(** * Fallout 4 plugin decoder ([Tools/fo4_esp_parser.py]): a shallow embedding

    The development follows the Python source top-down: the byte cursor
    ([BinaryReader]), the record post-processing
    ([ESPRecord.parse_subrecords]), the record decoder
    ([ESPParser._parse_record]), the container walker
    ([ESPParser._parse_group]) and the identity resolver
    ([ESPParser.resolve_formid]); then the header decoder
    ([ESPParser._parse_tes4]) with [ESPParser.parse], the naming of
    identities ([ESPParser.get_keyword_name]) and the analyses that are
    pure functions of the parser ([analyze_overrides], [analyze_keywords]
    and the field decoders).

    Conventions.
    - A Python [bytes] object is a [list byte]; a Python [int] is a [Z].
    - A Python [str] is a Rocq [string] holding the UTF-8 encoding of the
      text, so ASCII literals of the source read the same here.
    - A Python exception is a value of [exn]; a function that can raise
      returns a sum or a [result].
    - A Python [dict] is a [gmap], a [set] a [gset]. *)

From Stdlib Require Import ZArith List String Ascii Strings.Byte Bool Lia.
From stdpp Require Import base gmap strings list.

Import ListNotations.
Local Open Scope string_scope.
Local Open Scope Z_scope.

(** ** Bytes and Python slicing *)

Abbreviation bytes := (list byte).

Definition byte_val (b : byte) : Z := Z.of_N (Byte.to_N b).

(** [len(b)] *)
Definition len {A} (b : list A) : Z := Z.of_nat (length b).

(** Index normalisation of [b[lo:hi]]: a negative index counts from the
    end, then the index is clamped to [0, len]. *)
Definition slice_index (n i : Z) : Z :=
  let i := if i <? 0 then i + n else i in
  if i <? 0 then 0 else if n <? i then n else i.

(** [b[lo:hi]] *)
Definition slice {A} (b : list A) (lo hi : Z) : list A :=
  let lo' := slice_index (len b) lo in
  let hi' := slice_index (len b) hi in
  firstn (Z.to_nat (hi' - lo')) (skipn (Z.to_nat lo') b).

(** Little-endian unsigned value of a byte string. *)
Fixpoint le_uint (b : bytes) : Z :=
  match b with
  | [] => 0
  | x :: rest => byte_val x + 256 * le_uint rest
  end.

(** Python exceptions raised by the modelled code. *)
Inductive exn := StructError | AssertionError.

(** [struct.unpack_from(fmt, buffer, offset)] for a little-endian unsigned
    format of [size] bytes: a negative offset is taken from the end of the
    buffer; [struct.error] when the offset is out of range or fewer than
    [size] bytes follow it. *)
Definition unpack_from (size : Z) (buffer : bytes) (offset : Z) : exn + Z :=
  let off := if offset <? 0 then offset + len buffer else offset in
  if off <? 0 then inl StructError
  else if len buffer - off <? size then inl StructError
  else inr (le_uint (firstn (Z.to_nat size) (skipn (Z.to_nat off) buffer))).

(** [struct.unpack('<I', b)[0]]: the buffer must hold exactly four bytes. *)
Definition unpack_I (b : bytes) : exn + Z :=
  if len b =? 4 then inr (le_uint b) else inl StructError.

(** Two's complement reading of a 32-bit pattern (format ['<i']). *)
Definition to_int32 (v : Z) : Z := if 2 ^ 31 <=? v then v - 2 ^ 32 else v.

(** ** Text: codecs and formatting *)

Definition in_range (b : byte) (lo hi : Z) : bool :=
  (lo <=? byte_val b) && (byte_val b <=? hi).

(** Well-formed UTF-8 (the strict decoder accepts exactly these byte
    sequences: no overlong forms, no surrogates, nothing above U+10FFFF). *)
Fixpoint utf8_valid (l : bytes) : bool :=
  match l with
  | [] => true
  | b0 :: t0 =>
    if byte_val b0 <? 0x80 then utf8_valid t0
    else if in_range b0 0xC2 0xDF then
      match t0 with
      | b1 :: t1 => in_range b1 0x80 0xBF && utf8_valid t1
      | _ => false
      end
    else if in_range b0 0xE0 0xEF then
      match t0 with
      | b1 :: b2 :: t2 =>
        (if byte_val b0 =? 0xE0 then in_range b1 0xA0 0xBF
         else if byte_val b0 =? 0xED then in_range b1 0x80 0x9F
         else in_range b1 0x80 0xBF)
        && in_range b2 0x80 0xBF && utf8_valid t2
      | _ => false
      end
    else if in_range b0 0xF0 0xF4 then
      match t0 with
      | b1 :: b2 :: b3 :: t3 =>
        (if byte_val b0 =? 0xF0 then in_range b1 0x90 0xBF
         else if byte_val b0 =? 0xF4 then in_range b1 0x80 0x8F
         else in_range b1 0x80 0xBF)
        && in_range b2 0x80 0xBF && in_range b3 0x80 0xBF && utf8_valid t3
      | _ => false
      end
    else false
  end.

(** [raw.decode('utf-8')]; [None] stands for [UnicodeDecodeError]. *)
Definition decode_utf8 (raw : bytes) : option string :=
  if utf8_valid raw then Some (string_of_list_byte raw) else None.

Definition byte_of_Z (v : Z) : byte :=
  match Byte.of_N (Z.to_N v) with Some b => b | None => x00 end.

(** UTF-8 encoding of a code point of the Basic Multilingual Plane. *)
Definition utf8_encode (cp : Z) : bytes :=
  if cp <? 0x80 then [byte_of_Z cp]
  else if cp <? 0x800 then
    [byte_of_Z (0xC0 + cp / 64); byte_of_Z (0x80 + cp mod 64)]
  else
    [byte_of_Z (0xE0 + cp / 4096); byte_of_Z (0x80 + (cp / 64) mod 64);
     byte_of_Z (0x80 + cp mod 64)].

(** Windows-1252: the code point of a byte; five bytes are unassigned. *)
Definition cp1252_codepoint (b : Z) : option Z :=
  if (b <? 0x80) || (0xA0 <=? b) then Some b
  else
    nth_error
      [Some 0x20AC; None; Some 0x201A; Some 0x0192; Some 0x201E; Some 0x2026;
       Some 0x2020; Some 0x2021; Some 0x02C6; Some 0x2030; Some 0x0160;
       Some 0x2039; Some 0x0152; None; Some 0x017D; None;
       None; Some 0x2018; Some 0x2019; Some 0x201C; Some 0x201D; Some 0x2022;
       Some 0x2013; Some 0x2014; Some 0x02DC; Some 0x2122; Some 0x0161;
       Some 0x203A; Some 0x0153; None; Some 0x017E; Some 0x0178]
      (Z.to_nat (b - 0x80)) ≫= id.

(** [raw.decode('cp1252')]; [None] stands for [UnicodeDecodeError]. *)
Fixpoint decode_cp1252_bytes (raw : bytes) : option bytes :=
  match raw with
  | [] => Some []
  | b :: rest =>
    match cp1252_codepoint (byte_val b), decode_cp1252_bytes rest with
    | Some cp, Some out => Some (utf8_encode cp ++ out)%list
    | _, _ => None
    end
  end.

Definition decode_cp1252 (raw : bytes) : option string :=
  string_of_list_byte <$> decode_cp1252_bytes raw.

(** [raw.decode('ascii')]; [None] stands for [UnicodeDecodeError]. *)
Definition decode_ascii (raw : bytes) : option string :=
  if forallb (fun b => byte_val b <? 0x80) raw
  then Some (string_of_list_byte raw) else None.

Definition hex_digit (upper : bool) (d : Z) : ascii :=
  ascii_of_nat (Z.to_nat (if d <? 10 then 48 + d
                          else (if upper then 55 else 87) + d)).

(** [raw.hex()] *)
Fixpoint hex (raw : bytes) : string :=
  match raw with
  | [] => ""
  | b :: rest =>
    String (hex_digit false (byte_val b / 16))
      (String (hex_digit false (byte_val b mod 16)) (hex rest))
  end.

(** The [width] low hexadecimal digits of [n], upper case. *)
Fixpoint hex_fixed (width : nat) (n : Z) : string :=
  match width with
  | O => ""
  | S w => String.append (hex_fixed w (n / 16))
             (String (hex_digit true (n mod 16)) "")
  end.

(** Number of hexadecimal digits of a positive number. *)
Definition hex_width (n : Z) : nat := Z.to_nat (Z.log2 n / 4 + 1).

(** [f'{n:0wX}'] for [0 <= n]: upper-case hexadecimal, zero-padded to at
    least [w] digits. *)
Definition format_X (w : nat) (n : Z) : string :=
  hex_fixed (Nat.max w (hex_width n)) n.

(** [raw.rstrip(b'\x00')] *)
Definition rstrip_nul (raw : bytes) : bytes :=
  fold_right (fun b acc =>
                match acc with
                | [] => if Byte.eqb b x00 then [] else [b]
                | _ => b :: acc
                end) [] raw.

(** [raw[:raw.index(b'\x00')]] when a null byte occurs, else [raw]. *)
Fixpoint until_nul (raw : bytes) : bytes :=
  match raw with
  | [] => []
  | b :: rest => if Byte.eqb b x00 then [] else b :: until_nul rest
  end.

(** The [try utf-8 / except: try cp1252 / except: hex] cascade of
    [read_string]. *)
Definition decode_text (raw : bytes) : string :=
  match decode_utf8 raw with
  | Some s => s
  | None =>
    match decode_cp1252 raw with
    | Some s => s
    | None => hex raw
    end
  end.

(** The cascade of the [EDID] and [FULL] branches of [parse_subrecords]:
    UTF-8, then Windows-1252, both on the payload without its trailing
    nulls, then the hexadecimal dump of the whole payload. *)
Definition decode_field (sub_data : bytes) : string :=
  match decode_utf8 (rstrip_nul sub_data) with
  | Some s => s
  | None =>
    match decode_cp1252 (rstrip_nul sub_data) with
    | Some s => s
    | None => hex sub_data
    end
  end.

(** The [try ascii / except: hex] cascade used for signatures and labels. *)
Definition decode_sig (raw : bytes) : string :=
  match decode_ascii raw with
  | Some s => s
  | None => hex raw
  end.

(** ** BinaryReader *)

Module BinaryReader.

(** [self.data], [self.pos] *)
Record t := mk { data : bytes; pos : Z }.

Definition advance (r : t) (n : Z) : t := mk (data r) (pos r + n).

Definition read (r : t) (n : Z) : bytes * t :=
  (slice (data r) (pos r) (pos r + n), advance r n).

Definition read_fixed (size : Z) (r : t) : exn + Z * t :=
  match unpack_from size (data r) (pos r) with
  | inl e => inl e
  | inr val => inr (val, advance r size)
  end.

Definition read_uint8 : t -> exn + Z * t := read_fixed 1.
Definition read_uint16 : t -> exn + Z * t := read_fixed 2.
Definition read_uint32 : t -> exn + Z * t := read_fixed 4.

Definition read_int32 (r : t) : exn + Z * t :=
  match read_fixed 4 r with
  | inl e => inl e
  | inr (val, r') => inr (to_int32 val, r')
  end.

(** The value of [read_float] is kept as its IEEE-754 binary32 bit
    pattern; no modelled function computes with it. *)
Definition read_float : t -> exn + Z * t := read_fixed 4.

Definition read_string (r : t) (n : Z) : string * t :=
  let raw := slice (data r) (pos r) (pos r + n) in
  (decode_text (until_nul raw), advance r n).

Definition read_sig (r : t) : string * t :=
  let raw := slice (data r) (pos r) (pos r + 4) in
  (decode_sig raw, advance r 4).

Definition remaining (r : t) : Z := len (data r) - pos r.

Definition has_data (r : t) : bool := pos r <? len (data r).

Definition peek_sig (r : t) : option string :=
  if len (data r) <? pos r + 4 then None
  else decode_ascii (slice (data r) (pos r) (pos r + 4)).

Definition skip (r : t) (n : Z) : t := advance r n.

End BinaryReader.

Import BinaryReader.

(** ** ESPRecord *)

Definition FLAG_COMPRESSED : Z := 0x00040000.

(** A value of [raw_data]: the payload of the first subrecord of a type,
    turned into a list of payloads when the type repeats. *)
Inductive raw_value :=
| RawBytes (b : bytes)
| RawList (l : list bytes).

Record ESPRecord := mkRecord {
  type : string;
  data_size : Z;
  flags : Z;
  form_id : Z;
  timestamp : Z;
  version_info : Z;
  subrecords : list (string * bytes);
  is_compressed : bool;
  editor_id : string;
  full_name : string;
  keywords : list Z;
  raw_data : gmap string raw_value
}.

Definition set_subrecords (rec : ESPRecord) (v : list (string * bytes)) :=
  mkRecord (type rec) (data_size rec) (flags rec) (form_id rec)
    (timestamp rec) (version_info rec) v (is_compressed rec)
    (editor_id rec) (full_name rec) (keywords rec) (raw_data rec).

Definition set_editor_id (rec : ESPRecord) (v : string) :=
  mkRecord (type rec) (data_size rec) (flags rec) (form_id rec)
    (timestamp rec) (version_info rec) (subrecords rec) (is_compressed rec)
    v (full_name rec) (keywords rec) (raw_data rec).

Definition set_full_name (rec : ESPRecord) (v : string) :=
  mkRecord (type rec) (data_size rec) (flags rec) (form_id rec)
    (timestamp rec) (version_info rec) (subrecords rec) (is_compressed rec)
    (editor_id rec) v (keywords rec) (raw_data rec).

Definition set_keywords (rec : ESPRecord) (v : list Z) :=
  mkRecord (type rec) (data_size rec) (flags rec) (form_id rec)
    (timestamp rec) (version_info rec) (subrecords rec) (is_compressed rec)
    (editor_id rec) (full_name rec) v (raw_data rec).

Definition set_raw_data (rec : ESPRecord) (v : gmap string raw_value) :=
  mkRecord (type rec) (data_size rec) (flags rec) (form_id rec)
    (timestamp rec) (version_info rec) (subrecords rec) (is_compressed rec)
    (editor_id rec) (full_name rec) (keywords rec) v.

(** [range(0, n, 4)] *)
Definition range4 (n : Z) : list Z :=
  map (fun k => 4 * Z.of_nat k) (seq 0 (Z.to_nat ((n + 3) / 4))).

(** The body of the [KWDA] branch: every index of [range(0, len, 4)] with
    four bytes left contributes one unpacked identity. *)
Fixpoint kwda_loop (sub_data : bytes) (idx : list Z) (kws : list Z)
  : exn + list Z :=
  match idx with
  | [] => inr kws
  | i :: rest =>
    if i + 4 <=? len sub_data then
      match unpack_I (slice sub_data i (i + 4)) with
      | inl e => inl e
      | inr kw_fid => kwda_loop sub_data rest (kws ++ [kw_fid])%list
      end
    else kwda_loop sub_data rest kws
  end.

(** The trailing [if sub_type not in self.raw_data ... else ...]. *)
Definition store_raw (raw : gmap string raw_value) (sub_type : string)
    (sub_data : bytes) : gmap string raw_value :=
  match raw !! sub_type with
  | None => <[sub_type := RawBytes sub_data]> raw
  | Some (RawList l) => <[sub_type := RawList (l ++ [sub_data])%list]> raw
  | Some (RawBytes b) => <[sub_type := RawList [b; sub_data]]> raw
  end.

(** One iteration of the [for] loop of [parse_subrecords]; the loop state
    is the record and the local [keyword_count]. *)
Definition parse_subrecord (rec : ESPRecord) (keyword_count : Z)
    (sub_type : string) (sub_data : bytes) : exn + ESPRecord * Z :=
  let branch : exn + ESPRecord * Z :=
    if String.eqb sub_type "EDID" then
      inr (set_editor_id rec (decode_field sub_data), keyword_count)
    else if String.eqb sub_type "FULL" then
      if len sub_data =? 4 then
        match unpack_I sub_data with
        | inl e => inl e
        | inr string_id =>
          inr (set_full_name rec
                 (String.append "[LSTRING:"
                    (String.append (format_X 8 string_id) "]")),
               keyword_count)
        end
      else
        inr (set_full_name rec (decode_field sub_data), keyword_count)
    else if String.eqb sub_type "KSIZ" then
      if 4 <=? len sub_data then
        match unpack_I sub_data with
        | inl e => inl e
        | inr count => inr (rec, count)
        end
      else inr (rec, keyword_count)
    else if String.eqb sub_type "KWDA" then
      match kwda_loop sub_data (range4 (len sub_data)) [] with
      | inl e => inl e
      | inr kws => inr (set_keywords rec kws, keyword_count)
      end
    else inr (rec, keyword_count) in
  match branch with
  | inl e => inl e
  | inr (rec, keyword_count) =>
    inr (set_raw_data rec (store_raw (raw_data rec) sub_type sub_data),
         keyword_count)
  end.

Fixpoint parse_subrecords_loop (subs : list (string * bytes))
    (rec : ESPRecord) (keyword_count : Z) : exn + ESPRecord :=
  match subs with
  | [] => inr rec
  | (sub_type, sub_data) :: rest =>
    match parse_subrecord rec keyword_count sub_type sub_data with
    | inl e => inl e
    | inr (rec, keyword_count) => parse_subrecords_loop rest rec keyword_count
    end
  end.

(** [ESPRecord.parse_subrecords] *)
Definition parse_subrecords (rec : ESPRecord) : exn + ESPRecord :=
  parse_subrecords_loop (subrecords rec) rec 0.

(** ** ESPParser *)

(** What [print] writes when [verbose] is set, by kind and arguments (the
    rendered text is not modelled). *)
Inductive message :=
| MsgGroup (group_label : string) (content_size : Z)
| MsgDecompressWarning (sig : string) (form_id : Z).

(** The fields of the parser that the walker, the record decoder and the
    resolver read or write.  The header summary ([version], [num_records],
    [author], ...) is written by [_parse_tes4] only and left out. *)
Record ESPParser := mkParser {
  filename : string;
  verbose : bool;
  masters : list string;
  records : gmap string (list ESPRecord);
  records_by_formid : gmap Z ESPRecord;
  group_count : Z;
  record_count : Z;
  compressed_count : Z;
  type_counts : gmap string Z;
  stdout : list message
}.

(** [self.group_count += 1] *)
Definition count_group (st : ESPParser) : ESPParser :=
  mkParser (filename st) (verbose st) (masters st) (records st)
    (records_by_formid st) (group_count st + 1) (record_count st)
    (compressed_count st) (type_counts st) (stdout st).

(** [self.record_count += 1; self.type_counts[sig] += 1] *)
Definition count_record (st : ESPParser) (sig : string) : ESPParser :=
  mkParser (filename st) (verbose st) (masters st) (records st)
    (records_by_formid st) (group_count st) (record_count st + 1)
    (compressed_count st)
    (<[sig := default 0 (type_counts st !! sig) + 1]> (type_counts st))
    (stdout st).

(** [self.compressed_count += 1] *)
Definition count_compressed (st : ESPParser) : ESPParser :=
  mkParser (filename st) (verbose st) (masters st) (records st)
    (records_by_formid st) (group_count st) (record_count st)
    (compressed_count st + 1) (type_counts st) (stdout st).

(** [if self.verbose: print(...)] *)
Definition print (st : ESPParser) (m : message) : ESPParser :=
  if verbose st then
    mkParser (filename st) (verbose st) (masters st) (records st)
      (records_by_formid st) (group_count st) (record_count st)
      (compressed_count st) (type_counts st) (stdout st ++ [m])%list
  else st.

(** [self.records[sig].append(rec); self.records_by_formid[form_id] = rec] *)
Definition store_record (st : ESPParser) (sig : string) (fid : Z)
    (rec : ESPRecord) : ESPParser :=
  mkParser (filename st) (verbose st) (masters st)
    (<[sig := (default [] (records st !! sig) ++ [rec])%list]> (records st))
    (<[fid := rec]> (records_by_formid st))
    (group_count st) (record_count st) (compressed_count st)
    (type_counts st) (stdout st).

(** Outcome of a parser method: normal return, an exception that
    propagates to the caller (the mutations made so far stay visible in the
    parser and the reader), or exhausted fuel. *)
Inductive result (A : Type) :=
| Ok (a : A) (st : ESPParser) (reader : BinaryReader.t)
| Raise (e : exn) (st : ESPParser) (reader : BinaryReader.t)
| OutOfFuel.
Arguments Ok {A}.
Arguments Raise {A}.
Arguments OutOfFuel {A}.

Definition on_read {A B} (st : ESPParser) (r : BinaryReader.t)
    (c : exn + A * BinaryReader.t)
    (k : A -> BinaryReader.t -> result B) : result B :=
  match c with
  | inl e => Raise e st r
  | inr (a, r') => k a r'
  end.

Definition and_then {A B} (c : result A)
    (k : A -> ESPParser -> BinaryReader.t -> result B) : result B :=
  match c with
  | Ok a st r => k a st r
  | Raise e st r => Raise e st r
  | OutOfFuel => OutOfFuel
  end.

(** *** Subrecord splitting (the [while] loop of [_parse_record]) *)

Inductive step :=
| Continue (sub_reader : BinaryReader.t) (xxxx_size : option Z)
    (subs : list (string * bytes))
| Break
| StepRaise (e : exn).

(** The loop body, entered once the loop condition holds. *)
Definition split_step (sub_reader : BinaryReader.t) (xxxx_size : option Z)
    (subs : list (string * bytes)) : step :=
  let '(sub_type, sub_reader) := read_sig sub_reader in
  match read_uint16 sub_reader with
  | inl e => StepRaise e
  | inr (sub_size, sub_reader) =>
    if String.eqb sub_type "XXXX" then
      let '(raw, sub_reader) := read sub_reader 4 in
      match unpack_I raw with
      | inl e => StepRaise e
      | inr v => Continue sub_reader (Some v) subs
      end
    else
      let sub_size := match xxxx_size with Some x => x | None => sub_size end in
      if remaining sub_reader <? sub_size then Break
      else
        let '(sub_data, sub_reader) := read sub_reader sub_size in
        Continue sub_reader None (subs ++ [(sub_type, sub_data)])%list
  end.

Inductive split_result :=
| SplitDone (subs : list (string * bytes))
| SplitRaise (e : exn)
| SplitOutOfFuel.

Fixpoint split_loop (fuel : nat) (sub_reader : BinaryReader.t)
    (xxxx_size : option Z) (subs : list (string * bytes)) : split_result :=
  match fuel with
  | O => SplitOutOfFuel
  | S fuel =>
    if has_data sub_reader && (6 <=? remaining sub_reader) then
      match split_step sub_reader xxxx_size subs with
      | Continue sub_reader xxxx_size subs =>
        split_loop fuel sub_reader xxxx_size subs
      | Break => SplitDone subs
      | StepRaise e => SplitRaise e
      end
    else SplitDone subs
  end.

(** [sub_reader = BinaryReader(record_data); xxxx_size = None; while ...].
    Every iteration consumes at least six bytes, so [length record_data]
    iterations always suffice (lemma [split_subrecords_total]). *)
Definition split_subrecords (record_data : bytes) : split_result :=
  split_loop (S (length record_data)) (BinaryReader.mk record_data 0) None [].

(** *** The record decoder *)

Section Decoder.

(** [zlib.decompress(stream, bufsize=n)]: [Some out] is the inflated
    payload, [None] stands for [zlib.error]. *)
Variable zlib_decompress : bytes -> Z -> option bytes.

(** [rec = ESPRecord()] followed by the envelope assignments. *)
Definition new_record (sig : string) (data_size flags form_id timestamp
    version_info : Z) : ESPRecord :=
  mkRecord sig data_size flags form_id timestamp version_info []
    (negb (Z.land flags FLAG_COMPRESSED =? 0)) "" "" [] ∅.

(** [_parse_record] from [# Parse subrecords] to [return rec]. *)
Definition finish_record (st : ESPParser) (reader : BinaryReader.t)
    (sig : string) (form_id : Z) (rec : ESPRecord) (record_data : bytes)
  : result (option ESPRecord) :=
  match split_subrecords record_data with
  | SplitOutOfFuel => OutOfFuel
  | SplitRaise e => Raise e st reader
  | SplitDone subs =>
    match parse_subrecords (set_subrecords rec subs) with
    | inl e => Raise e st reader
    | inr rec => Ok (Some rec) (store_record st sig form_id rec) reader
    end
  end.

(** [_parse_record] after the six envelope reads, from
    [self.record_count += 1] on. *)
Definition record_payload (st : ESPParser) (r : BinaryReader.t)
    (sig : string) (data_size flags form_id timestamp version_info : Z)
  : result (option ESPRecord) :=
  let st := count_record st sig in
  if remaining r <? data_size then Ok None st (skip r (remaining r))
  else
    let '(record_data, r) := read r data_size in
    let rec := new_record sig data_size flags form_id timestamp
                 version_info in
    if is_compressed rec && (4 <=? len record_data) then
      let st := count_compressed st in
      match unpack_I (slice record_data 0 4) with
      | inl e => Raise e st r
      | inr decompressed_size =>
        match zlib_decompress (slice record_data 4 (len record_data))
                decompressed_size with
        | None =>
          Ok (Some rec) (print st (MsgDecompressWarning sig form_id)) r
        | Some record_data =>
          finish_record st r sig form_id rec record_data
        end
      end
    else finish_record st r sig form_id rec record_data.

(** [ESPParser._parse_record] (its [filter_types] argument is unused). *)
Definition _parse_record (st : ESPParser) (reader : BinaryReader.t)
  : result (option ESPRecord) :=
  if remaining reader <? 24 then Ok None st (skip reader (remaining reader))
  else
    let '(sig, r) := read_sig reader in
    on_read st r (read_uint32 r) (fun data_size r =>
    on_read st r (read_uint32 r) (fun flags r =>
    on_read st r (read_uint32 r) (fun form_id r =>
    on_read st r (read_uint32 r) (fun timestamp r =>
    on_read st r (read_uint32 r) (fun version_info r =>
    record_payload st r sig data_size flags form_id timestamp
      version_info))))).

(** *** The container walker *)

(** [sig == s] for the result of [peek_sig], which may be [None]. *)
Definition sig_is (sig : option string) (s : string) : bool :=
  match sig with
  | Some v => String.eqb v s
  | None => false
  end.

(** [if filter_types and group_label not in filter_types] *)
Definition filtered_out (filter_types : option (gset string))
    (group_label : string) : bool :=
  match filter_types with
  | None => false
  | Some s => negb (bool_decide (s = ∅)) && negb (bool_decide (group_label ∈ s))
  end.

(** [end_pos = reader.pos + content_size] with
    [content_size = group_size - 24], computed once the envelope has been
    read. *)
Definition group_end_pos (reader : BinaryReader.t) (group_size : Z) : Z :=
  pos reader + (group_size - 24).

(** [ESPParser._parse_group]; [group_content] is its [# Parse contents]
    loop.  One unit of fuel is spent per call and per loop test. *)
Fixpoint _parse_group (fuel : nat) (filter_types : option (gset string))
    (st : ESPParser) (reader : BinaryReader.t) : result unit :=
  match fuel with
  | O => OutOfFuel
  | S fuel =>
    let '(sig, r) := read_sig reader in
    if negb (String.eqb sig "GRUP") then Raise AssertionError st r
    else
      on_read st r (read_uint32 r) (fun group_size r =>
      let '(label_raw, r) := read r 4 in
      on_read st r (read_int32 r) (fun group_type r =>
      on_read st r (read_uint32 r) (fun timestamp r =>
      on_read st r (read_uint32 r) (fun version_info r =>
      let st := count_group st in
      let content_size := group_size - 24 in
      let end_pos := group_end_pos r group_size in
      if group_type =? 0 then
        let group_label := decode_sig label_raw in
        let st := print st (MsgGroup group_label content_size) in
        if filtered_out filter_types group_label
        then Ok tt st (skip r content_size)
        else group_content fuel filter_types end_pos st r
      else group_content fuel filter_types end_pos st r))))
  end
with group_content (fuel : nat) (filter_types : option (gset string))
    (end_pos : Z) (st : ESPParser) (reader : BinaryReader.t) : result unit :=
  match fuel with
  | O => OutOfFuel
  | S fuel =>
    if pos reader <? end_pos then
      if remaining reader <? 4 then Ok tt st reader
      else
        if sig_is (peek_sig reader) "GRUP" then
          and_then (_parse_group fuel filter_types st reader)
            (fun _ => group_content fuel filter_types end_pos)
        else
          and_then (_parse_record st reader)
            (fun _ => group_content fuel filter_types end_pos)
    else Ok tt st reader
  end.

(** The [# Parse remaining groups] loop of [ESPParser.parse], entered once
    the header record has been consumed. *)
Fixpoint parse_groups (fuel : nat) (filter_types : option (gset string))
    (st : ESPParser) (reader : BinaryReader.t) : result unit :=
  match fuel with
  | O => OutOfFuel
  | S fuel =>
    if has_data reader && (4 <=? remaining reader) then
      if sig_is (peek_sig reader) "GRUP" then
        and_then (_parse_group fuel filter_types st reader)
          (fun _ => parse_groups fuel filter_types)
      else
        and_then (_parse_record st reader)
          (fun _ => parse_groups fuel filter_types)
    else Ok tt st reader
  end.

End Decoder.

(** ** The identity resolver *)

(** [ESPParser.resolve_formid] *)
Definition resolve_formid (st : ESPParser) (form_id : Z) : string * string :=
  let master_idx := Z.land (Z.shiftr form_id 24) 0xFF in
  let local_id := Z.land form_id 0x00FFFFFF in
  if master_idx <? len (masters st) then
    (default "" (masters st !! Z.to_nat master_idx), format_X 6 local_id)
  else if master_idx =? len (masters st) then
    (filename st, format_X 6 local_id)
  else
    (String.append "UNKNOWN_MASTER_" (format_X 2 master_idx),
     format_X 6 local_id).

(** ** Vocabulary of the statements *)

(** The fields found at an offset of a buffer: a 4-byte signature as
    [read_sig] decodes it, and little-endian unsigned fields of 2 and 4
    bytes. *)
Definition sig_at (b : bytes) (off : Z) : string :=
  decode_sig (slice b off (off + 4)).

Definition u16_at (b : bytes) (off : Z) : Z := le_uint (slice b off (off + 2)).

Definition u32_at (b : bytes) (off : Z) : Z := le_uint (slice b off (off + 4)).

(** The payload of the record whose envelope starts at [off]: the bytes
    after the 24-byte envelope, as many as the envelope declares. *)
Definition payload_at (b : bytes) (off : Z) : bytes :=
  slice b (off + 24) (off + 24 + u32_at b (off + 4)).

(** The parser a result leaves behind, whether the method returned or
    raised. *)
Definition final_parser {A} (res : result A) : option ESPParser :=
  match res with
  | Ok _ st _ => Some st
  | Raise _ st _ => Some st
  | OutOfFuel => None
  end.

(** Number of records held by the by-type index. *)
Definition stored_count (st : ESPParser) : Z :=
  map_fold (fun _ recs n => len recs + n) 0 (records st).

(** [struct.pack('<H', v)] and [struct.pack('<I', v)], used to write
    streams down. *)
Definition pack_H (v : Z) : bytes :=
  [byte_of_Z (v mod 256); byte_of_Z (v / 256 mod 256)].

Definition pack_I (v : Z) : bytes :=
  [byte_of_Z (v mod 256); byte_of_Z (v / 256 mod 256);
   byte_of_Z (v / 65536 mod 256); byte_of_Z (v / 16777216 mod 256)].

(** A decompressor that rejects every stream.  It stands for
    [zlib.decompress] in the examples, whose records are either stored
    uncompressed (it is then never called) or carry a payload that is not
    a zlib stream. *)
Definition zlib_reject : bytes -> Z -> option bytes := fun _ _ => None.

(** A fresh parser, as [ESPParser.__init__] leaves it, for a file
    [Self.esp] whose header declared the masters [A.esm] and [B.esm]. *)
Definition fresh_parser (verbose : bool) : ESPParser :=
  mkParser "Self.esp" verbose ["A.esm"; "B.esm"] ∅ ∅ 0 0 0 ∅ [].

(** A pending 32-bit override is never negative. *)
Definition xxxx_ok (xxxx_size : option Z) : Prop :=
  match xxxx_size with Some v => 0 <= v | None => True end.

(** The stream of the oversized-field scenario: the escape entry (its own
    16-bit size field [esc_size], then the 32-bit override), and the entry
    of type [ty] whose 16-bit size field is zero. *)
Definition escaped_stream (esc_size ty body : bytes) : bytes :=
  (list_byte_of_string "XXXX" ++ esc_size ++ pack_I 70000
   ++ ty ++ pack_H 0 ++ body)%list.

(** Reading hexadecimal text back (upper-case digits), to state what the
    formatted identifiers denote. *)
Definition hex_digit_value (c : ascii) : option Z :=
  let n := Z.of_nat (nat_of_ascii c) in
  if (48 <=? n) && (n <=? 57) then Some (n - 48)
  else if (65 <=? n) && (n <=? 70) then Some (n - 55)
  else None.

Fixpoint hex_value_from (acc : Z) (s : string) : option Z :=
  match s with
  | EmptyString => Some acc
  | String c rest =>
    match hex_digit_value c with
    | Some d => hex_value_from (16 * acc + d) rest
    | None => None
    end
  end.

Definition hex_value (s : string) : option Z := hex_value_from 0 s.

(** The reader a result leaves behind. *)
Definition final_reader {A} (res : result A) : option BinaryReader.t :=
  match res with
  | Ok _ _ r => Some r
  | Raise _ _ r => Some r
  | OutOfFuel => None
  end.

(** A record envelope (timestamp and version words zero) followed by its
    payload, with the declared payload size given apart so that it can
    disagree with the payload. *)
Definition record_bytes (sig : string) (declared_size flags form_id : Z)
    (payload : bytes) : bytes :=
  (list_byte_of_string sig ++ pack_I declared_size ++ pack_I flags
   ++ pack_I form_id ++ pack_I 0 ++ pack_I 0 ++ payload)%list.

(** A container envelope followed by its content, with the declared total
    size given apart. *)
Definition group_bytes (declared_size : Z) (label : bytes) (group_type : Z)
    (content : bytes) : bytes :=
  (list_byte_of_string "GRUP" ++ pack_I declared_size ++ label
   ++ pack_I group_type ++ pack_I 0 ++ pack_I 0 ++ content)%list.

(** A [WEAP] record whose envelope declares 10 payload bytes in a file
    that ends 3 bytes after the envelope. *)
Definition truncated_file : bytes :=
  record_bytes "WEAP" 10 0 0x02000001 [x01; x02; x03].

(** A container that declares 48 bytes, envelope and one record envelope,
    while the record envelope declares 8 payload bytes: the payload lies
    after the declared end of the container. *)
Definition overrun_group : bytes :=
  group_bytes 48 (list_byte_of_string "WEAP") 0
    (record_bytes "WEAP" 8 0 0x02000001
       [x01; x02; x03; x04; x05; x06; x07; x08]).

(** A [WEAP] record with an empty payload, at top level outside any
    container, and the same record inside a container labelled [KYWD]. *)
Definition stray_record : bytes := record_bytes "WEAP" 0 0 0x02000001 [].

Definition mislabelled_group : bytes :=
  group_bytes 48 (list_byte_of_string "KYWD") 0 stray_record.

(** A file body made of top-level containers (group type 0) given by
    label and content, each declaring its true size. *)
Definition groups_file (groups : list (bytes * bytes)) : bytes :=
  concat (map (fun g => group_bytes (24 + len (snd g)) (fst g) 0 (snd g))
            groups).

(** The interest set of the filtering scenario. *)
Definition only_KYWD : option (gset string) := Some {["KYWD"]}.

(** The identities packed in a keyword array: one per complete group of
    four bytes, little-endian. *)
Definition keywords_of_array (arr : bytes) : list Z :=
  map (fun k => u32_at arr (4 * Z.of_nat k)) (seq 0 (Z.to_nat (len arr / 4))).

(** The payload of the last subrecord of a type. *)
Fixpoint last_payload (ty : string) (subs : list (string * bytes))
  : option bytes :=
  match subs with
  | [] => None
  | (t, d) :: rest =>
    match last_payload ty rest with
    | Some x => Some x
    | None => if String.eqb t ty then Some d else None
    end
  end.

(** A record whose keyword count says 1 while its keyword array holds
    two identities. *)
Definition miscounted_record : ESPRecord :=
  mkRecord "WEAP" 0 0 0x02000001 0 0
    [("KSIZ", pack_I 1); ("KWDA", (pack_I 7 ++ pack_I 9)%list)]
    false "" "" [] ∅.

(** A [WEAP] record with the compression flag set whose payload is the
    size hint 100 followed by four bytes that are not a zlib stream. *)
Definition garbled_compressed_file : bytes :=
  record_bytes "WEAP" 8 FLAG_COMPRESSED 0x02000001
    (pack_I 100 ++ [xff; xff; xff; xff])%list.

(** A container labelled [WEAP] that declares 30 bytes and holds six
    bytes that are no record. *)
Definition corrupt_weap_group : bytes :=
  group_bytes 30 (list_byte_of_string "WEAP") 0
    [xff; xff; xff; xff; xff; xff].

(** The oversized payload of the escape scenario, all zero. *)
Definition zero_body : bytes := repeat x00 (Z.to_nat 70000).

(** A content span whose entries fit: starting at [p], the entries met by
    the walker's loop under the given interest set follow one another
    and each ends, by its declared size, at or before the end [e] of the
    span, the last one exactly at [e]; the same holds inside every
    container that is entered. *)
Inductive tiled (b : bytes) (filter_types : option (gset string))
  : Z -> Z -> Prop :=
| tiled_end (e : Z) : tiled b filter_types e e
| tiled_record (p e : Z) :
    0 <= p -> p < e ->
    sig_is (peek_sig (BinaryReader.mk b p)) "GRUP" = false ->
    p + 24 + u32_at b (p + 4) <= e ->
    tiled b filter_types (p + 24 + u32_at b (p + 4)) e ->
    tiled b filter_types p e
| tiled_skipped (p e : Z) :
    0 <= p -> p < e ->
    peek_sig (BinaryReader.mk b p) = Some "GRUP" ->
    24 <= u32_at b (p + 4) -> p + u32_at b (p + 4) <= e ->
    to_int32 (u32_at b (p + 12)) = 0 ->
    filtered_out filter_types (sig_at b (p + 8)) = true ->
    tiled b filter_types (p + u32_at b (p + 4)) e ->
    tiled b filter_types p e
| tiled_group (p e : Z) :
    0 <= p -> p < e ->
    peek_sig (BinaryReader.mk b p) = Some "GRUP" ->
    24 <= u32_at b (p + 4) -> p + u32_at b (p + 4) <= e ->
    (to_int32 (u32_at b (p + 12)) = 0 ->
     filtered_out filter_types (sig_at b (p + 8)) = false) ->
    tiled b filter_types (p + 24) (p + u32_at b (p + 4)) ->
    tiled b filter_types (p + u32_at b (p + 4)) e ->
    tiled b filter_types p e.

(** The walker ends within [e]: it returns with the cursor exactly at
    [e], or an exception leaves the cursor at or before [e]. *)
Definition ends_within {A} (b : bytes) (e : Z) (res : result A) : Prop :=
  match res with
  | Ok _ _ r => r = BinaryReader.mk b e
  | Raise _ _ r => data r = b /\ pos r <= e
  | OutOfFuel => False
  end.

(** A container envelope labelled [WEAP] that declares a total size of
    zero. *)
Definition zero_sized_group : bytes :=
  group_bytes 0 (list_byte_of_string "WEAP") 0 [].

(** ** Further vocabulary: subrecord streams *)

(** A subrecord as a payload holds it: the type, the 16-bit size of the
    payload, the payload. *)
Definition subrecord_bytes (s : bytes * bytes) : bytes :=
  (fst s ++ pack_H (len (snd s)) ++ snd s)%list.

Definition subrecords_bytes (subs : list (bytes * bytes)) : bytes :=
  concat (map subrecord_bytes subs).

(** The subrecords as the splitter hands them over. *)
Definition decoded_subrecords (subs : list (bytes * bytes))
  : list (string * bytes) :=
  map (fun s => (decode_sig (fst s), snd s)) subs.

(** A subrecord that needs no escape: a 4-byte type other than the
    escape type, and a payload whose size fits 16 bits. *)
Definition plain_subrecord (s : bytes * bytes) : Prop :=
  len (fst s) = 4 /\ decode_sig (fst s) <> "XXXX" /\ len (snd s) < 65536.

(** Bytes of a payload that the subrecords account for: six bytes of
    header and the payload, for each. *)
Definition subrecords_size (subs : list (string * bytes)) : Z :=
  fold_right (fun s n => 6 + len (snd s) + n) 0 subs.

(** The payloads of the subrecords of one type, in order. *)
Definition payloads_of (ty : string) (subs : list (string * bytes))
  : list bytes :=
  map snd (filter (fun s => fst s = ty) subs).

(** What [raw_data] holds for a type with these payloads. *)
Definition raw_of (payloads : list bytes) : option raw_value :=
  match payloads with
  | [] => None
  | [d] => Some (RawBytes d)
  | _ => Some (RawList payloads)
  end.

(** ** Further vocabulary: progress of the walker *)

(** A method call that ends (returns or raises) and, when it returns,
    leaves the same buffer with the cursor at least [d] bytes further. *)
Definition advances_by {A} (d : Z) (r : BinaryReader.t) (res : result A)
  : Prop :=
  match res with
  | Ok _ _ r' => data r' = data r /\ pos r + d <= pos r'
  | Raise _ _ _ => True
  | OutOfFuel => False
  end.

(** ** ESPRecord: the derived properties *)

(** [ESPRecord.form_id_hex] *)
Definition form_id_hex (rec : ESPRecord) : string := format_X 8 (form_id rec).

(** [ESPRecord.master_index] *)
Definition master_index (rec : ESPRecord) : Z :=
  Z.land (Z.shiftr (form_id rec) 24) 0xFF.

(** [ESPRecord.local_id] *)
Definition local_id (rec : ESPRecord) : Z := Z.land (form_id rec) 0x00FFFFFF.

(** ** ESPParser: names of identities *)

(** [ESPParser.resolve_formid_str] *)
Definition resolve_formid_str (st : ESPParser) (form_id : Z) : string :=
  let '(master, local) := resolve_formid st form_id in
  String.append master (String.append "|" local).

(** [VANILLA_WEAPON_KEYWORDS] *)
Definition VANILLA_WEAPON_KEYWORDS : gmap Z string :=
  list_to_map
    [(0x0004A0A2, "WeaponTypeRifle"); (0x0004A0A1, "WeaponTypePistol");
     (0x00054C45, "WeaponTypeShotgun"); (0x000A36BE, "WeaponTypeSniper");
     (0x000A36D6, "WeaponTypeGatling"); (0x00054C46, "WeaponTypeLaser");
     (0x000A36D4, "WeaponTypePlasma"); (0x000A36D5, "WeaponTypeHeavyGun");
     (0x0004A0A4, "WeaponTypeMelee1H"); (0x0004A0A5, "WeaponTypeMelee2H");
     (0x0004A0A6, "WeaponTypeUnarmed"); (0x0004A0A3, "WeaponTypeAutomatic");
     (0x000A36D7, "WeaponTypeGrenade"); (0x000A36D8, "WeaponTypeMine");
     (0x000424EF, "ObjectTypeWeapon"); (0x000424EE, "ObjectTypeArmor");
     (0x000424F0, "ObjectTypeDrink"); (0x000424F1, "ObjectTypeFood")].

(** Truth value of a Python [str]. *)
Definition nonempty (s : string) : bool :=
  match s with EmptyString => false | String _ _ => true end.

(** The tail of [get_keyword_name], after the look-up among the parsed
    records. *)
Definition known_keyword_name (st : ESPParser) (form_id : Z) : string :=
  match VANILLA_WEAPON_KEYWORDS !! form_id with
  | Some name => name
  | None => resolve_formid_str st form_id
  end.

(** [ESPParser.get_keyword_name] *)
Definition get_keyword_name (st : ESPParser) (form_id : Z) : string :=
  match records_by_formid st !! form_id with
  | Some rec =>
    if nonempty (editor_id rec) then editor_id rec
    else known_keyword_name st form_id
  | None => known_keyword_name st form_id
  end.

(** ** Override analysis *)

(** The dictionaries that [analyze_overrides] appends: one for an
    override (it has the key ['type']), one for a new record. *)
Record override_entry := mkOverride {
  o_type : string;
  o_form_id : string;
  o_editor_id : string;
  o_full_name : string;
  o_keywords : list string
}.

Record new_entry := mkNew {
  n_form_id : string;
  n_editor_id : string;
  n_full_name : string;
  n_keywords : list string
}.

Definition override_of (st : ESPParser) (rec : ESPRecord) : override_entry :=
  mkOverride (type rec) (form_id_hex rec) (editor_id rec) (full_name rec)
    (map (get_keyword_name st) (keywords rec)).

Definition new_of (st : ESPParser) (rec : ESPRecord) : new_entry :=
  mkNew (form_id_hex rec) (editor_id rec) (full_name rec)
    (map (get_keyword_name st) (keywords rec)).

(** [d[key].append(x)] on a [defaultdict(list)] *)
Definition append_to {A} (d : gmap string (list A)) (key : string) (x : A)
  : gmap string (list A) :=
  <[key := (default [] (d !! key) ++ [x])%list]> d.

(** The body of the inner loop of [analyze_overrides]. *)
Definition analyze_record (st : ESPParser)
    (acc : gmap string (list override_entry) * gmap string (list new_entry))
    (rec : ESPRecord)
  : gmap string (list override_entry) * gmap string (list new_entry) :=
  let '(overrides, new_records) := acc in
  if master_index rec <? len (masters st) then
    let master := default "" (masters st !! Z.to_nat (master_index rec)) in
    (append_to overrides master (override_of st rec), new_records)
  else
    (overrides, append_to new_records (type rec) (new_of st rec)).

(** [analyze_overrides]; [items] is [parser.records.items()], the types
    with their records in the order in which the types were first
    stored. *)
Definition analyze_overrides (st : ESPParser)
    (items : list (string * list ESPRecord))
  : gmap string (list override_entry) * gmap string (list new_entry) :=
  fold_left (fun acc item => fold_left (analyze_record st) (snd item) acc)
    items (∅, ∅).

(** Number of entries held by a dictionary of lists. *)
Definition entries_count {A} (d : gmap string (list A)) : Z :=
  map_fold (fun _ l n => len l + n) 0 d.

(** ** Field decoders of the analyses *)

(** [struct.unpack('<H', b)[0]]: the buffer must hold exactly two bytes. *)
Definition unpack_H (b : bytes) : exn + Z :=
  if len b =? 2 then inr (le_uint b) else inl StructError.

(** A value of the dictionaries the field decoders return; a float is
    kept as its IEEE-754 binary32 bit pattern. *)
Inductive field_value :=
| FInt (v : Z)
| FFloat (bits : Z)
| FStr (s : string).

(** [if len(data) >= need: result[key] = make(unpack(data[lo:hi])[0])] *)
Definition field (need lo hi : Z) (unpack : bytes -> exn + Z)
    (make : Z -> field_value) (key : string) (data : bytes)
    (result : exn + gmap string field_value)
  : exn + gmap string field_value :=
  match result with
  | inl e => inl e
  | inr d =>
    if need <=? len data then
      match unpack (slice data lo hi) with
      | inl e => inl e
      | inr v => inr (<[key := make v]> d)
      end
    else inr d
  end.

(** [parse_weap_dnam] *)
Definition parse_weap_dnam (data : bytes) : exn + gmap string field_value :=
  field 60 56 60 unpack_I FFloat "stagger" data
    (field 52 40 44 unpack_I FFloat "max_range" data
       (field 48 36 40 unpack_I FFloat "min_range" data
          (field 36 24 28 unpack_I FFloat "vats_hit_chance" data
             (field 28 16 20 unpack_I FFloat "sight_fov" data
                (field 16 12 14 unpack_H FInt "flags" data
                   (field 12 8 12 unpack_I FFloat "reach" data
                      (field 8 4 8 unpack_I FFloat "speed" data
                         (field 4 0 4 unpack_I FInt "animation_type" data
                            (inr ∅))))))))).

(** [parse_weap_data] *)
Definition parse_weap_data (data : bytes) : exn + gmap string field_value :=
  field 8 4 8 unpack_I FFloat "weight" data
    (field 4 0 4 unpack_I (fun v => FInt (to_int32 v)) "value" data (inr ∅)).

(** [parse_ammo_data] *)
Definition parse_ammo_data (data : bytes) : exn + gmap string field_value :=
  field 20 16 20 unpack_I FFloat "weight" data
    (field 16 12 16 unpack_I (fun v => FInt (to_int32 v)) "value" data
       (field 12 8 12 unpack_I FFloat "damage" data
          (field 8 4 8 unpack_I FInt "flags" data
             (field 4 0 4 unpack_I (fun v => FStr (format_X 8 v))
                "projectile" data (inr ∅))))).

(** ** The file header ([ESPParser._parse_tes4]) and [ESPParser.parse] *)

Definition FLAG_ESM : Z := 0x00000001.
Definition FLAG_LOCALIZED : Z := 0x00000040.
Definition FLAG_ESL : Z := 0x00000200.

(** What [_parse_tes4] and [parse] print when [verbose] is set, by kind
    and arguments. *)
Inductive header_message :=
| MsgHeader (version : Z) (flag_str : list string) (masters : list string)
| MsgParsingComplete (filename : string) (masters : list string)
    (group_count record_count compressed_count : Z)
    (type_counts : gmap string Z).

(** The header fields of the parser, which only [_parse_tes4] writes;
    [version] is kept as its binary32 bit pattern.  [header_out] is what
    [_parse_tes4] has printed, before any line of the walker. *)
Record HeaderInfo := mkHeader {
  version : Z;
  num_records : Z;
  next_object_id : Z;
  author : string;
  description : string;
  is_esm : bool;
  is_esl : bool;
  is_localized : bool;
  header_out : list header_message
}.

(** The header fields as [__init__] leaves them. *)
Definition new_header : HeaderInfo := mkHeader 0 0 0 "" "" false false false [].

Definition set_version (h : HeaderInfo) (v : Z) :=
  mkHeader v (num_records h) (next_object_id h) (author h) (description h)
    (is_esm h) (is_esl h) (is_localized h) (header_out h).

Definition set_num_records (h : HeaderInfo) (v : Z) :=
  mkHeader (version h) v (next_object_id h) (author h) (description h)
    (is_esm h) (is_esl h) (is_localized h) (header_out h).

Definition set_next_object_id (h : HeaderInfo) (v : Z) :=
  mkHeader (version h) (num_records h) v (author h) (description h)
    (is_esm h) (is_esl h) (is_localized h) (header_out h).

Definition set_author (h : HeaderInfo) (v : string) :=
  mkHeader (version h) (num_records h) (next_object_id h) v (description h)
    (is_esm h) (is_esl h) (is_localized h) (header_out h).

Definition set_description (h : HeaderInfo) (v : string) :=
  mkHeader (version h) (num_records h) (next_object_id h) (author h) v
    (is_esm h) (is_esl h) (is_localized h) (header_out h).

(** [self.is_esm = bool(flags & FLAG_ESM)] and the two assignments after
    it. *)
Definition set_header_flags (h : HeaderInfo) (flags : Z) :=
  mkHeader (version h) (num_records h) (next_object_id h) (author h)
    (description h)
    (negb (Z.land flags FLAG_ESM =? 0))
    (negb (Z.land flags FLAG_ESL =? 0))
    (negb (Z.land flags FLAG_LOCALIZED =? 0)) (header_out h).

(** [self.masters.append(master_name)] *)
Definition add_master (st : ESPParser) (master_name : string) : ESPParser :=
  mkParser (filename st) (verbose st) (masters st ++ [master_name])%list
    (records st) (records_by_formid st) (group_count st) (record_count st)
    (compressed_count st) (type_counts st) (stdout st).

(** [raw.decode('cp1252', errors='replace')]: an unassigned byte becomes
    U+FFFD. *)
Definition decode_cp1252_replace (raw : bytes) : string :=
  string_of_list_byte
    (flat_map (fun b => utf8_encode (default 0xFFFD
                                       (cp1252_codepoint (byte_val b)))) raw).

(** The [try utf-8 / except: cp1252 with errors='replace'] cascade of the
    [CNAM] and [SNAM] branches. *)
Definition decode_header_text (sub_data : bytes) : string :=
  match decode_utf8 (rstrip_nul sub_data) with
  | Some s => s
  | None => decode_cp1252_replace (rstrip_nul sub_data)
  end.

(** The [HEDR] branch: three assignments, each of which can raise after
    the ones before it have been made. *)
Definition parse_hedr (h : HeaderInfo) (sub_data : bytes)
  : exn * HeaderInfo + HeaderInfo :=
  match unpack_I (slice sub_data 0 4) with
  | inl e => inl (e, h)
  | inr v =>
    let h := set_version h v in
    match unpack_I (slice sub_data 4 8) with
    | inl e => inl (e, h)
    | inr n =>
      let h := set_num_records h (to_int32 n) in
      match unpack_I (slice sub_data 8 12) with
      | inl e => inl (e, h)
      | inr o => inr (set_next_object_id h o)
      end
    end
  end.

(** Outcome of [_parse_tes4]: as [result], with the header fields. *)
Inductive header_result :=
| HeaderOk (h : HeaderInfo) (st : ESPParser) (reader : BinaryReader.t)
| HeaderRaise (e : exn) (h : HeaderInfo) (st : ESPParser)
    (reader : BinaryReader.t)
| HeaderOutOfFuel.

(** The [flag_str] list of the verbose branch. *)
Definition flag_str (h : HeaderInfo) : list string :=
  ((if is_esm h then ["ESM"] else []) ++
   (if is_esl h then ["ESL"] else []) ++
   (if is_localized h then ["LOCALIZED"] else []))%list.

(** The verbose branch that ends [_parse_tes4]. *)
Definition print_header (h : HeaderInfo) (st : ESPParser) : HeaderInfo :=
  if verbose st then
    mkHeader (version h) (num_records h) (next_object_id h) (author h)
      (description h) (is_esm h) (is_esl h) (is_localized h)
      (header_out h ++ [MsgHeader (version h) (flag_str h) (masters st)])%list
  else h.

(** Outcome of [ESPParser.parse]; [summary] is what its last verbose
    branch prints, after every line of the walker. *)
Inductive parse_result :=
| ParseOk (h : HeaderInfo) (st : ESPParser) (reader : BinaryReader.t)
    (summary : list header_message)
| ParseRaise (e : exn) (h : HeaderInfo) (st : ESPParser)
    (reader : BinaryReader.t)
| ParseOutOfFuel.

Section Header.

(** [raw.decode('utf-8', errors='replace')] *)
Variable decode_utf8_replace : bytes -> string.

(** The [if sub_type == ... elif ...] chain of the loop body. *)
Definition tes4_field (h : HeaderInfo) (st : ESPParser) (sub_type : string)
    (sub_data : bytes) : exn * HeaderInfo + HeaderInfo * ESPParser :=
  if String.eqb sub_type "HEDR" then
    match parse_hedr h sub_data with
    | inl eh => inl eh
    | inr h => inr (h, st)
    end
  else if String.eqb sub_type "CNAM" then
    inr (set_author h (decode_header_text sub_data), st)
  else if String.eqb sub_type "SNAM" then
    inr (set_description h (decode_header_text sub_data), st)
  else if String.eqb sub_type "MAST" then
    inr (h, add_master st (decode_utf8_replace (rstrip_nul sub_data)))
  else inr (h, st).

(** The [# Parse TES4 subrecords] loop; one unit of fuel per loop test. *)
Fixpoint tes4_loop (fuel : nat) (end_pos : Z) (h : HeaderInfo)
    (st : ESPParser) (reader : BinaryReader.t) : header_result :=
  match fuel with
  | O => HeaderOutOfFuel
  | S fuel =>
    if pos reader <? end_pos then
      let '(sub_type, r) := read_sig reader in
      match read_uint16 r with
      | inl e => HeaderRaise e h st r
      | inr (sub_size, r) =>
        let '(sub_data, r) := read r sub_size in
        match tes4_field h st sub_type sub_data with
        | inl (e, h) => HeaderRaise e h st r
        | inr (h, st) => tes4_loop fuel end_pos h st r
        end
      end
    else HeaderOk h st reader
  end.

(** [ESPParser._parse_tes4] *)
Definition _parse_tes4 (fuel : nat) (h : HeaderInfo) (st : ESPParser)
    (reader : BinaryReader.t) : header_result :=
  let '(sig, r) := read_sig reader in
  if negb (String.eqb sig "TES4") then HeaderRaise AssertionError h st r
  else
    match read_uint32 r with
    | inl e => HeaderRaise e h st r
    | inr (data_size, r) =>
    match read_uint32 r with
    | inl e => HeaderRaise e h st r
    | inr (flags, r) =>
    match read_uint32 r with
    | inl e => HeaderRaise e h st r
    | inr (form_id, r) =>
    match read_uint32 r with
    | inl e => HeaderRaise e h st r
    | inr (timestamp, r) =>
    match read_uint32 r with
    | inl e => HeaderRaise e h st r
    | inr (version_info, r) =>
      let h := set_header_flags h flags in
      let end_pos := pos r + data_size in
      match tes4_loop fuel end_pos h st r with
      | HeaderOk h st r => HeaderOk (print_header h st) st r
      | other => other
      end
    end end end end end.

Variable zlib_decompress : bytes -> Z -> option bytes.

(** [ESPParser.parse] on the bytes [data] read from the file. *)
Definition parse (fuel : nat) (filter_types : option (gset string))
    (h : HeaderInfo) (st : ESPParser) (data : bytes) : parse_result :=
  match _parse_tes4 fuel h st (BinaryReader.mk data 0) with
  | HeaderOutOfFuel => ParseOutOfFuel
  | HeaderRaise e h st r => ParseRaise e h st r
  | HeaderOk h st r =>
    match parse_groups zlib_decompress fuel filter_types st r with
    | OutOfFuel => ParseOutOfFuel
    | Raise e st r => ParseRaise e h st r
    | Ok _ st r =>
      ParseOk h st r
        (if verbose st then
           [MsgParsingComplete (filename st) (masters st) (group_count st)
              (record_count st) (compressed_count st) (type_counts st)]
         else [])
    end
  end.

End Header.

(** [second_ok b0 b1]: [b1] can follow the lead byte [b0] of a sequence
    of three or four bytes (the ranges that exclude overlong forms,
    surrogates and code points above U+10FFFF). *)
Definition second_ok (b0 b1 : byte) : bool :=
  if byte_val b0 =? 0xE0 then in_range b1 0xA0 0xBF
  else if byte_val b0 =? 0xED then in_range b1 0x80 0x9F
  else if byte_val b0 =? 0xF0 then in_range b1 0x90 0xBF
  else if byte_val b0 =? 0xF4 then in_range b1 0x80 0x8F
  else in_range b1 0x80 0xBF.

(** U+FFFD in UTF-8. *)
Definition replacement : bytes := [xef; xbf; xbd].

(** [raw.decode('utf-8', errors='replace')], as CPython decodes: a
    well-formed sequence is kept, and every maximal prefix of a
    well-formed sequence that is cut short, by a byte that cannot
    continue it or by the end of the input, becomes one U+FFFD, as does
    every byte that cannot start a sequence. *)
Fixpoint utf8_replace_bytes (l : bytes) : bytes :=
  match l with
  | [] => []
  | b0 :: t0 =>
    if byte_val b0 <? 0x80 then b0 :: utf8_replace_bytes t0
    else if in_range b0 0xC2 0xDF then
      match t0 with
      | [] => replacement
      | b1 :: t1 =>
        if in_range b1 0x80 0xBF then b0 :: b1 :: utf8_replace_bytes t1
        else (replacement ++ utf8_replace_bytes t0)%list
      end
    else if in_range b0 0xE0 0xEF then
      match t0 with
      | [] => replacement
      | b1 :: t1 =>
        if second_ok b0 b1 then
          match t1 with
          | [] => replacement
          | b2 :: t2 =>
            if in_range b2 0x80 0xBF
            then b0 :: b1 :: b2 :: utf8_replace_bytes t2
            else (replacement ++ utf8_replace_bytes t1)%list
          end
        else (replacement ++ utf8_replace_bytes t0)%list
      end
    else if in_range b0 0xF0 0xF4 then
      match t0 with
      | [] => replacement
      | b1 :: t1 =>
        if second_ok b0 b1 then
          match t1 with
          | [] => replacement
          | b2 :: t2 =>
            if in_range b2 0x80 0xBF then
              match t2 with
              | [] => replacement
              | b3 :: t3 =>
                if in_range b3 0x80 0xBF
                then b0 :: b1 :: b2 :: b3 :: utf8_replace_bytes t3
                else (replacement ++ utf8_replace_bytes t2)%list
              end
            else (replacement ++ utf8_replace_bytes t1)%list
          end
        else (replacement ++ utf8_replace_bytes t0)%list
      end
    else (replacement ++ utf8_replace_bytes t0)%list
  end.

Definition utf8_replace (raw : bytes) : string :=
  string_of_list_byte (utf8_replace_bytes raw).

(** Bytes of the header record: the 24-byte envelope and the fields. *)
Definition tes4_bytes (flags : Z) (fields : list (bytes * bytes)) : bytes :=
  record_bytes "TES4" (len (subrecords_bytes fields)) flags 0
    (subrecords_bytes fields).

(** ** Vocabulary of the override analysis *)

(** The records that [analyze_overrides] visits, in order. *)
Definition visited (items : list (string * list ESPRecord))
  : list ESPRecord :=
  concat (map snd items).

(** What a [defaultdict(list)] holds for a key whose appended values are
    [l]: nothing when none was appended. *)
Definition bucket {A} (l : list A) : option (list A) :=
  match l with
  | [] => None
  | _ => Some l
  end.

(** [rec.master_index < len(parser.masters)] *)
Definition is_override (st : ESPParser) (rec : ESPRecord) : bool :=
  master_index rec <? len (masters st).

(** [parser.masters[rec.master_index]] *)
Definition master_of (st : ESPParser) (rec : ESPRecord) : string :=
  default "" (masters st !! Z.to_nat (master_index rec)).

(** The two dictionaries after the records [seen] have been visited. *)
Definition partitioned (st : ESPParser) (seen : list ESPRecord)
    (acc : gmap string (list override_entry) * gmap string (list new_entry))
  : Prop :=
  (forall m,
      fst acc !! m
      = bucket (map (override_of st)
                  (List.filter (fun rec => is_override st rec
                                           && String.eqb (master_of st rec) m)
                     seen)))
  /\ (forall ty,
         snd acc !! ty
         = bucket (map (new_of st)
                     (List.filter (fun rec => negb (is_override st rec)
                                              && String.eqb (type rec) ty)
                        seen))).

(** ** Vocabulary of the field decoders *)

(** The key is one of the [layout] and the payload has the length its
    guard asks for. *)
Definition present (layout : list (string * Z)) (data : bytes)
    (key : string) : Prop :=
  exists need, In (key, need) layout /\ need <= len data.

(** ** Vocabulary of the decoder's invariants *)

(** What one call of [_parse_record] can have done to the parser when it
    ends, by return or by exception. *)
Definition record_effect (st st' : ESPParser) : Prop :=
  st' = st
  \/ exists sig,
      st' = count_record st sig
      \/ st' = count_compressed (count_record st sig)
      \/ (exists fid,
             st' = print (count_compressed (count_record st sig))
                     (MsgDecompressWarning sig fid))
      \/ (exists fid rec,
             type rec = sig /\ form_id rec = fid
             /\ (st' = store_record (count_record st sig) sig fid rec
                 \/ st' = store_record (count_compressed (count_record st sig))
                            sig fid rec)).

(** The settings of the parser are the same, and its output has only
    grown, and not at all when [verbose] is off. *)
Definition same_settings (st st' : ESPParser) : Prop :=
  filename st' = filename st /\ verbose st' = verbose st
  /\ masters st' = masters st
  /\ stdout st `prefix_of` stdout st'
  /\ (verbose st = false -> stdout st' = stdout st).

(** [sum(self.type_counts.values())] *)
Definition total_counts (st : ESPParser) : Z :=
  map_fold (fun _ v n => v + n) 0 (type_counts st).

(** The counters have not gone down; what was added to the stored
    records and to [compressed_count] is at most what was added to
    [record_count], which is what was added to the counts by type. *)
Definition counters_consistent (st st' : ESPParser) : Prop :=
  0 <= group_count st' - group_count st
  /\ 0 <= compressed_count st' - compressed_count st
     <= record_count st' - record_count st
  /\ 0 <= stored_count st' - stored_count st
     <= record_count st' - record_count st
  /\ total_counts st' - total_counts st = record_count st' - record_count st.

(** Every record of the by-identity index carries that identity and is
    in the by-type index, in the list of its own type. *)
Definition indexes_agree (st : ESPParser) : Prop :=
  forall fid rec,
    records_by_formid st !! fid = Some rec ->
    form_id rec = fid /\ rec ∈ default [] (records st !! type rec).

(** The lists of the by-type index have only been extended at their end,
    no identity has left the by-identity index, and the two indexes agree
    if they did. *)
Definition indexes_grow (st st' : ESPParser) : Prop :=
  (forall ty, default [] (records st !! ty)
              `prefix_of` default [] (records st' !! ty))
  /\ (forall fid, is_Some (records_by_formid st !! fid) ->
                  is_Some (records_by_formid st' !! fid))
  /\ (indexes_agree st -> indexes_agree st').

(** ** Vocabulary of the record round trip *)

(** What the [FULL] branch of [parse_subrecords] makes of a payload: a
    payload of exactly four bytes is taken for a string-table index. *)
Definition full_name_of (sub_data : bytes) : string :=
  if len sub_data =? 4 then
    String.append "[LSTRING:"
      (String.append (format_X 8 (le_uint sub_data)) "]")
  else decode_field sub_data.

(** A record written down: the envelope with the true payload size, and
    the subrecords [fields] as payload. *)
Definition plain_record_bytes (sig : string) (flags form_id : Z)
    (fields : list (bytes * bytes)) : bytes :=
  record_bytes sig (len (subrecords_bytes fields)) flags form_id
    (subrecords_bytes fields).

(** The record that the decoder is expected to build from
    [plain_record_bytes], before post-processing. *)
Definition plain_record (sig : string) (flags form_id : Z)
    (fields : list (bytes * bytes)) : ESPRecord :=
  set_subrecords
    (mkRecord (decode_sig (list_byte_of_string sig))
       (len (subrecords_bytes fields)) flags form_id 0 0 [] false "" "" [] ∅)
    (decoded_subrecords fields).

(** What can be written with [plain_record_bytes] and read back. *)
Definition writable (sig : string) (flags form_id : Z)
    (fields : list (bytes * bytes)) : Prop :=
  len (list_byte_of_string sig) = 4
  /\ 0 <= flags < 2 ^ 32 /\ Z.land flags FLAG_COMPRESSED = 0
  /\ 0 <= form_id < 2 ^ 32
  /\ len (subrecords_bytes fields) < 2 ^ 32
  /\ Forall plain_subrecord fields
  /\ (forall d, In ("KSIZ", d) (decoded_subrecords fields) -> len d <= 4).

(** Three subrecords for the examples: an editor id, a display name of
    four bytes and an array of two keywords. *)
Definition sample_fields : list (bytes * bytes) :=
  [(list_byte_of_string "EDID", (list_byte_of_string "Foo" ++ [x00])%list);
   (list_byte_of_string "FULL", list_byte_of_string "Name");
   (list_byte_of_string "KWDA", (pack_I 0x0004A0A2 ++ pack_I 0x01000800)%list)].

(** ** Vocabulary of the header round trip *)

(** The parser with another master list. *)
Definition with_masters (st : ESPParser) (l : list string) : ESPParser :=
  mkParser (filename st) (verbose st) l (records st) (records_by_formid st)
    (group_count st) (record_count st) (compressed_count st)
    (type_counts st) (stdout st).

(** The master names of the header fields, in order. *)
Definition master_names (decode_utf8_replace : bytes -> string)
    (fields : list (bytes * bytes)) : list string :=
  map (fun d => decode_utf8_replace (rstrip_nul d))
    (payloads_of "MAST" (decoded_subrecords fields)).

(** A header field that can be written and read back: a 4-byte type, a
    payload whose size fits 16 bits, and at least twelve bytes when the
    type is [HEDR]. *)
Definition header_field (s : bytes * bytes) : Prop :=
  len (fst s) = 4 /\ len (snd s) < 65536
  /\ (decode_sig (fst s) = "HEDR" -> 12 <= len (snd s)).

(** The outcome of [_parse_tes4] is a return or an exception, and a
    return leaves the same buffer with the cursor at or after [end_pos]
    and at least [d] bytes further. *)
Definition header_ends (d end_pos : Z) (r : BinaryReader.t)
    (res : header_result) : Prop :=
  match res with
  | HeaderOk _ _ r' =>
    data r' = data r /\ pos r + d <= pos r' /\ end_pos <= pos r'
  | HeaderRaise _ _ _ _ => True
  | HeaderOutOfFuel => False
  end.

(** A header with two masters and the fields a plugin usually has. *)
Definition sample_header_fields : list (bytes * bytes) :=
  [(list_byte_of_string "HEDR",
    (pack_I 0x3F800000 ++ pack_I 2 ++ pack_I 0x800)%list);
   (list_byte_of_string "CNAM", (list_byte_of_string "me" ++ [x00])%list);
   (list_byte_of_string "MAST",
    (list_byte_of_string "Fallout4.esm" ++ [x00])%list);
   (list_byte_of_string "DATA", (pack_I 0 ++ pack_I 0)%list);
   (list_byte_of_string "MAST",
    (list_byte_of_string "DLCRobot.esm" ++ [x00])%list);
   (list_byte_of_string "DATA", (pack_I 0 ++ pack_I 0)%list)].

(** ** Vocabulary of the compressed records *)

(** The payload of a compressed record: the declared inflated size and
    the stream. *)
Definition compressed_payload (declared : Z) (stream : bytes) : bytes :=
  (pack_I declared ++ stream)%list.

(** [zlib.adler32] *)
Definition adler32 (d : bytes) : Z :=
  let ab := fold_left (fun ab x =>
                         let a := (fst ab + byte_val x) mod 65521 in
                         (a, (snd ab + a) mod 65521)) d (1, 0) in
  snd ab * 65536 + fst ab.

(** Big-endian unsigned value of a byte string. *)
Definition be_uint (b : bytes) : Z := le_uint (rev b).

(** The stored blocks of a deflate stream, each of them a header byte
    (bit 0 marks the last block, bits 1 and 2 are the block type, 0 for
    stored; the other bits are padding), the 16-bit length, its
    complement and the bytes.  The result is the inflated data and what
    follows the last block; [None] when a block is of another type, is
    cut short or has a length that its complement does not match. *)
Fixpoint stored_blocks (fuel : nat) (s out : bytes)
  : option (bytes * bytes) :=
  match fuel with
  | O => None
  | S fuel =>
    match s with
    | hd :: l0 :: l1 :: n0 :: n1 :: rest =>
      let size := byte_val l0 + 256 * byte_val l1 in
      let nsize := byte_val n0 + 256 * byte_val n1 in
      if negb (Z.land (byte_val hd) 6 =? 0) then None
      else if negb (size + nsize =? 65535) then None
      else if len rest <? size then None
      else
        let out := (out ++ firstn (Z.to_nat size) rest)%list in
        let rest := skipn (Z.to_nat size) rest in
        if Z.land (byte_val hd) 1 =? 1 then Some (out, rest)
        else stored_blocks fuel rest out
    | _ => None
    end
  end.

(** [zlib.decompress(stream, bufsize=n)] on the streams whose deflate
    blocks are all stored blocks: the two-byte zlib header (method 8,
    window of at most 32K, no preset dictionary, check bits), the stored
    blocks, and the Adler-32 of the inflated data, big-endian; bytes
    after it are ignored, and [bufsize] only sizes the first output
    buffer.  A stream with a compressed block is rejected here, so this
    stands for [zlib.decompress] only where no such block is met. *)
Definition zlib_stored (stream : bytes) (bufsize : Z) : option bytes :=
  match stream with
  | cmf :: flg :: body =>
    if (Z.land (byte_val cmf) 15 =? 8) && (byte_val cmf / 16 <=? 7)
       && ((byte_val cmf * 256 + byte_val flg) mod 31 =? 0)
       && (Z.land (byte_val flg) 32 =? 0)
    then
      match stored_blocks (S (length body)) body [] with
      | Some (out, trailer) =>
        if (4 <=? len trailer)
           && (be_uint (firstn 4 trailer) =? adler32 out)
        then Some out else None
      | None => None
      end
    else None
  | _ => None
  end.

(** A zlib stream that holds [d], fewer than 65536 bytes, in one stored
    block. *)
Definition stored_stream (d : bytes) : bytes :=
  ([x78; x01; x01] ++ pack_H (len d) ++ pack_H (65535 - len d) ++ d
   ++ rev (pack_I (adler32 d)))%list.

(** The sample subrecords as a zlib stream. *)
Definition sample_stream : bytes :=
  stored_stream (subrecords_bytes sample_fields).

(** ** Keyword analysis *)




(** ** Data of the examples *)

(** A parser as [ESPParser.__init__] leaves it: no master yet. *)
Definition blank_parser (verbose : bool) : ESPParser :=
  mkParser "Self.esp" verbose [] ∅ ∅ 0 0 0 ∅ [].

(** A weapon record with the sample subrecords, as bytes and as the
    record the decoder builds before post-processing. *)
Definition sample_record_file : bytes :=
  plain_record_bytes "WEAP" 0 0x01000800 sample_fields.

Definition sample_record : ESPRecord :=
  plain_record "WEAP" 0 0x01000800 sample_fields.

(** A record whose keyword count is five bytes long. *)
Definition long_count_record : ESPRecord :=
  mkRecord "WEAP" 0 0 0 0 0 [("KSIZ", (pack_I 1 ++ [x00])%list)]
    false "" "" [] ∅.

(** The sample record with the compression flag, its payload a size hint
    and the sample stream. *)
Definition sample_compressed_file : bytes :=
  record_bytes "WEAP" (len (compressed_payload 34 sample_stream))
    FLAG_COMPRESSED 0x01000800 (compressed_payload 34 sample_stream).

(** A plugin file: the sample header, then the sample record. *)
Definition sample_plugin : bytes :=
  (tes4_bytes 0x201 sample_header_fields ++ sample_record_file)%list.

(** A parser that holds one keyword record whose master index is 5. *)
Definition sample_keyword : ESPRecord :=
  mkRecord "KYWD" 0 0 0x05000001 0 0 [] false "MyKeyword" "" [] ∅.

Definition keyword_parser : ESPParser :=
  store_record (fresh_parser false) "KYWD" 0x05000001 sample_keyword.
(** ** Facts about bytes and slices *)

Lemma len_nonneg {A} (b : list A) : 0 <= len b.
Proof. unfold len. lia. Qed.

Lemma len_app {A} (a b : list A) : len (a ++ b)%list = len a + len b.
Proof. unfold len. rewrite length_app. lia. Qed.

Lemma byte_val_range (b : byte) : 0 <= byte_val b < 256.
Proof.
  unfold byte_val. pose proof (Byte.to_N_bounded b). lia.
Qed.

Lemma slice_nonneg {A} (b : list A) (lo n : Z) :
  0 <= lo -> 0 <= n ->
  slice b lo (lo + n) = firstn (Z.to_nat n) (skipn (Z.to_nat lo) b).
Proof.
  intros Hlo Hn. unfold slice, slice_index.
  pose proof (len_nonneg b) as Hb. unfold len in *.
  replace (lo <? 0) with false by lia.
  replace (lo + n <? 0) with false by lia.
  repeat match goal with
         | |- context [?x <? ?y] => destruct (Z.ltb_spec x y); try lia
         end.
  - rewrite !drop_ge by lia. by rewrite !take_nil.
  - rewrite !take_ge; [done | rewrite length_drop; lia..].
  - f_equal. lia.
Qed.

Lemma len_slice {A} (b : list A) (lo n : Z) :
  0 <= lo -> 0 <= n ->
  len (slice b lo (lo + n)) = Z.min n (Z.max 0 (len b - lo)).
Proof.
  intros Hlo Hn. rewrite slice_nonneg by lia. unfold len.
  rewrite length_firstn, length_skipn. lia.
Qed.

Lemma slice_app_mid {A} (pre mid post : list A) :
  slice (pre ++ mid ++ post)%list (len pre) (len pre + len mid) = mid.
Proof.
  rewrite slice_nonneg by apply len_nonneg. unfold len.
  rewrite !Nat2Z.id. rewrite drop_app_length. by rewrite take_app_length.
Qed.

Lemma slice_at {A} (b pre mid post : list A) (lo n : Z) :
  b = (pre ++ mid ++ post)%list -> lo = len pre -> n = len mid ->
  slice b lo (lo + n) = mid.
Proof. intros -> -> ->. apply slice_app_mid. Qed.

Lemma le_uint_range (b : bytes) : 0 <= le_uint b < 256 ^ len b.
Proof.
  induction b as [|x b IH].
  - simpl. unfold len. simpl. lia.
  - cbn [le_uint]. pose proof (byte_val_range x).
    replace (len (x :: b)) with (len b + 1) by (unfold len; simpl length; lia).
    rewrite Z.pow_add_r by (pose proof (len_nonneg b); lia).
    change (256 ^ 1) with 256. nia.
Qed.

Lemma unpack_from_short (size : Z) (b : bytes) (off : Z) :
  len b - off < size -> unpack_from size b off = inl StructError.
Proof.
  intros H. unfold unpack_from. pose proof (len_nonneg b).
  repeat match goal with
         | |- context [?x <? ?y] => destruct (Z.ltb_spec x y); try lia
         end; done.
Qed.

Lemma unpack_from_ok (size : Z) (b : bytes) (off : Z) :
  0 <= off -> 0 <= size -> size <= len b - off ->
  unpack_from size b off = inr (le_uint (slice b off (off + size))).
Proof.
  intros H1 H2 H3. unfold unpack_from.
  replace (off <? 0) with false by lia.
  repeat match goal with
         | |- context [?x <? ?y] => destruct (Z.ltb_spec x y); try lia
         end.
  rewrite slice_nonneg by lia. reflexivity.
Qed.

(** ** Facts about the cursor *)

Lemma read_fixed_short (size : Z) (r : BinaryReader.t) :
  remaining r < size -> read_fixed size r = inl StructError.
Proof.
  intros H. unfold read_fixed. by rewrite unpack_from_short.
Qed.

Lemma read_fixed_ok (size : Z) (r : BinaryReader.t) :
  0 <= pos r -> 0 <= size -> size <= remaining r ->
  read_fixed size r
  = inr (le_uint (slice (data r) (pos r) (pos r + size)), advance r size).
Proof.
  intros H1 H2 H3. unfold read_fixed. by rewrite unpack_from_ok.
Qed.

Lemma read_uint32_ok (r : BinaryReader.t) :
  0 <= pos r -> 4 <= remaining r ->
  read_uint32 r = inr (u32_at (data r) (pos r), advance r 4).
Proof. intros. apply read_fixed_ok; lia. Qed.

Lemma read_uint16_ok (r : BinaryReader.t) :
  0 <= pos r -> 2 <= remaining r ->
  read_uint16 r = inr (u16_at (data r) (pos r), advance r 2).
Proof. intros. apply read_fixed_ok; lia. Qed.

Lemma read_int32_ok (r : BinaryReader.t) :
  0 <= pos r -> 4 <= remaining r ->
  read_int32 r = inr (to_int32 (u32_at (data r) (pos r)), advance r 4).
Proof. intros. unfold read_int32. by rewrite read_fixed_ok by lia. Qed.

Lemma read_sig_eq (r : BinaryReader.t) :
  read_sig r = (sig_at (data r) (pos r), advance r 4).
Proof. reflexivity. Qed.

Lemma remaining_advance (r : BinaryReader.t) (n : Z) :
  remaining (advance r n) = remaining r - n.
Proof. unfold remaining, advance. simpl. lia. Qed.

Lemma advance_advance (r : BinaryReader.t) (n m : Z) :
  advance (advance r n) m = advance r (n + m).
Proof. unfold advance. simpl. f_equal. lia. Qed.

Lemma skip_remaining (r : BinaryReader.t) :
  skip r (remaining r) = BinaryReader.mk (data r) (len (data r)).
Proof. unfold skip, advance, remaining. f_equal. lia. Qed.

(** ** The envelope reads *)

Section DecoderFacts.

Variable zlib : bytes -> Z -> option bytes.

Lemma parse_record_short (st : ESPParser) (r : BinaryReader.t) :
  remaining r < 24 ->
  _parse_record zlib st r
  = Ok None st (BinaryReader.mk (data r) (len (data r))).
Proof.
  intros H. unfold _parse_record.
  destruct (Z.ltb_spec (remaining r) 24); [|lia].
  by rewrite skip_remaining.
Qed.

Lemma parse_record_envelope (st : ESPParser) (r : BinaryReader.t) :
  0 <= pos r -> 24 <= remaining r ->
  _parse_record zlib st r
  = record_payload zlib st (advance r 24)
      (sig_at (data r) (pos r)) (u32_at (data r) (pos r + 4))
      (u32_at (data r) (pos r + 8)) (u32_at (data r) (pos r + 12))
      (u32_at (data r) (pos r + 16)) (u32_at (data r) (pos r + 20)).
Proof.
  intros Hp Hr. unfold _parse_record.
  destruct (Z.ltb_spec (remaining r) 24); [lia|].
  rewrite read_sig_eq. unfold on_read.
  repeat (rewrite read_uint32_ok
            by (rewrite ?remaining_advance; cbn [pos advance]; lia);
          rewrite ?advance_advance; cbn [pos data advance]).
  repeat f_equal; lia.
Qed.

End DecoderFacts.

(** ** Subrecord splitting *)

Lemma unpack_I_inr (raw : bytes) (v : Z) :
  unpack_I raw = inr v -> len raw = 4 /\ v = le_uint raw /\ 0 <= v.
Proof.
  unfold unpack_I. destruct (Z.eqb_spec (len raw) 4); [|done].
  intros [= <-]. pose proof (le_uint_range raw). lia.
Qed.

Lemma read_fixed_inr (size : Z) (r r' : BinaryReader.t) (v : Z) :
  read_fixed size r = inr (v, r') -> r' = advance r size.
Proof.
  unfold read_fixed. destruct (unpack_from size (data r) (pos r)); [done|].
  by intros [= _ <-].
Qed.

Lemma read_fixed_value (size : Z) (r r' : BinaryReader.t) (v : Z) :
  read_fixed size r = inr (v, r') -> 0 <= v.
Proof.
  unfold read_fixed.
  destruct (unpack_from size (data r) (pos r)) as [e|w] eqn:E; [done|].
  intros [= <- _]. unfold unpack_from in E.
  repeat match type of E with
         | (if ?c then _ else _) = _ => destruct c; try done
         end.
  injection E as <-. apply le_uint_range.
Qed.

(** An iteration that continues keeps the buffer, moves the cursor forward
    by six bytes at least, and leaves a well-formed override. *)
Lemma split_step_continue sr x subs sr' x' subs' :
  xxxx_ok x ->
  split_step sr x subs = Continue sr' x' subs' ->
  data sr' = data sr /\ pos sr + 6 <= pos sr' /\ xxxx_ok x'.
Proof.
  intros Hx. unfold split_step. rewrite read_sig_eq.
  destruct (read_uint16 (advance sr 4)) as [e|[sub_size r2]] eqn:E; [done|].
  pose proof (read_fixed_inr _ _ _ _ E) as ->.
  pose proof (read_fixed_value _ _ _ _ E) as Hsz.
  destruct (String.eqb _ "XXXX").
  - cbn [read]. destruct (unpack_I _) as [e|v] eqn:U; [done|].
    intros [= <- <- <-]. apply unpack_I_inr in U.
    cbn [advance data pos xxxx_ok]. split_and!; [done|lia|lia].
  - set (n := match x with Some v => v | None => sub_size end).
    assert (0 <= n) by (subst n; destruct x; simpl in Hx; lia).
    destruct (Z.ltb_spec (remaining (advance (advance sr 4) 2)) n); [done|].
    cbn [read]. intros [= <- <- <-]. cbn [advance data pos xxxx_ok].
    split_and!; [done|lia|done].
Qed.

Lemma split_loop_total (fuel : nat) sr x subs :
  xxxx_ok x -> Z.max 0 (remaining sr) < Z.of_nat fuel ->
  split_loop fuel sr x subs <> SplitOutOfFuel.
Proof.
  revert sr x subs. induction fuel as [|fuel IH]; intros sr x subs Hx Hf.
  - lia.
  - cbn [split_loop].
    destruct (has_data sr && (6 <=? remaining sr)) eqn:C; [|done].
    apply andb_true_iff in C as [_ C%Z.leb_le].
    destruct (split_step sr x subs) as [sr' x' subs'| |e] eqn:E; [|done..].
    apply split_step_continue in E as (Hd & Hp & Hx'); [|done].
    apply IH; [done|]. unfold remaining in *. rewrite Hd. lia.
Qed.

(** The splitter always terminates within its fuel. *)
Lemma split_subrecords_total (record_data : bytes) :
  split_subrecords record_data <> SplitOutOfFuel.
Proof.
  unfold split_subrecords. apply split_loop_total; [done|].
  unfold remaining, len. cbn [data pos]. lia.
Qed.

Lemma split_loop_more_fuel (fuel fuel' : nat) sr x subs :
  (fuel <= fuel')%nat ->
  split_loop fuel sr x subs <> SplitOutOfFuel ->
  split_loop fuel' sr x subs = split_loop fuel sr x subs.
Proof.
  revert fuel' sr x subs.
  induction fuel as [|fuel IH]; intros fuel' sr x subs Hle Hres; [done|].
  destruct fuel' as [|fuel']; [lia|]. cbn [split_loop] in *.
  destruct (has_data sr && (6 <=? remaining sr)); [|done].
  destruct (split_step sr x subs) as [sr' x' subs'| |e]; [|done..].
  apply IH; [lia|done].
Qed.

(** The escape entry: whatever its own 16-bit size field holds, the four
    bytes after that field become the pending override and the cursor
    moves by ten bytes; no subrecord is produced. *)
Lemma split_step_escape sr x subs (pre esc_size override post : bytes) :
  data sr = (pre ++ list_byte_of_string "XXXX" ++ esc_size ++ override
             ++ post)%list ->
  pos sr = len pre -> len esc_size = 2 -> len override = 4 ->
  split_step sr x subs
  = Continue (advance sr 10) (Some (le_uint override)) subs.
Proof.
  intros Hd Hp Hs Ho. unfold split_step. rewrite read_sig_eq.
  assert (sig_at (data sr) (pos sr) = "XXXX") as ->.
  { unfold sig_at.
    rewrite (slice_at _ pre (list_byte_of_string "XXXX")
               (esc_size ++ override ++ post)%list); done. }
  assert (0 <= pos sr) by (rewrite Hp; apply len_nonneg).
  assert (len (data sr) = len pre + 10 + len post) as Hl.
  { rewrite Hd, !len_app, Hs, Ho.
    change (len (list_byte_of_string "XXXX")) with 4. lia. }
  pose proof (len_nonneg post).
  rewrite read_uint16_ok
    by (rewrite ?remaining_advance; unfold remaining; cbn [pos advance]; lia).
  cbn [String.eqb Ascii.eqb Bool.eqb andb]. cbn [read].
  rewrite !advance_advance. cbn [pos data advance].
  rewrite (slice_at (data sr)
             (pre ++ list_byte_of_string "XXXX" ++ esc_size)%list
             override post).
  - unfold unpack_I. rewrite Ho. cbn [Z.eqb Pos.eqb]. repeat f_equal.
  - rewrite Hd. by rewrite <- !app_assoc.
  - rewrite !len_app, Hs, Hp.
    change (len (list_byte_of_string "XXXX")) with 4. lia.
  - lia.
Qed.

(** An ordinary entry whose effective size (the pending override if there
    is one, else its own 16-bit field) is available. *)
Lemma split_step_plain sr x subs (pre ty sz payload post : bytes) :
  data sr = (pre ++ ty ++ sz ++ payload ++ post)%list ->
  pos sr = len pre -> len ty = 4 -> decode_sig ty <> "XXXX" -> len sz = 2 ->
  len payload = match x with Some v => v | None => le_uint sz end ->
  split_step sr x subs
  = Continue (advance sr (6 + len payload)) None
      (subs ++ [(decode_sig ty, payload)])%list.
Proof.
  intros Hd Hp Ht Hne Hs Hn. unfold split_step. rewrite read_sig_eq.
  assert (sig_at (data sr) (pos sr) = decode_sig ty) as ->.
  { unfold sig_at.
    rewrite (slice_at _ pre ty (sz ++ payload ++ post)%list); done. }
  assert (0 <= pos sr) by (rewrite Hp; apply len_nonneg).
  assert (len (data sr) = len pre + 6 + len payload + len post) as Hl.
  { rewrite Hd, !len_app, Hs, Ht. lia. }
  pose proof (len_nonneg post). pose proof (len_nonneg payload).
  rewrite read_uint16_ok
    by (rewrite ?remaining_advance; unfold remaining; cbn [pos advance]; lia).
  apply String.eqb_neq in Hne. rewrite Hne.
  cbn [pos data advance].
  assert (u16_at (data sr) (pos sr + 4) = le_uint sz) as ->.
  { unfold u16_at.
    rewrite (slice_at _ (pre ++ ty)%list sz (payload ++ post)%list); try done.
    - rewrite Hd. by rewrite <- !app_assoc.
    - rewrite len_app. lia. }
  rewrite <- Hn.
  destruct (Z.ltb_spec (remaining (advance (advance sr 4) 2)) (len payload)).
  { rewrite !remaining_advance in *. unfold remaining in *. lia. }
  cbn [read]. rewrite !advance_advance. cbn [pos data advance].
  rewrite (slice_at (data sr) (pre ++ ty ++ sz)%list payload post).
  - by replace (4 + (2 + len payload)) with (6 + len payload) by lia.
  - rewrite Hd. by rewrite <- !app_assoc.
  - rewrite !len_app. lia.
  - done.
Qed.

Lemma split_loop_step (fuel : nat) sr x subs sr' x' subs' :
  0 <= pos sr -> 6 <= remaining sr ->
  split_step sr x subs = Continue sr' x' subs' ->
  split_loop (S fuel) sr x subs = split_loop fuel sr' x' subs'.
Proof.
  intros Hp Hr E. cbn [split_loop]. unfold has_data, remaining in *.
  destruct (Z.ltb_spec (pos sr) (len (data sr))); [|lia].
  destruct (Z.leb_spec 6 (len (data sr) - pos sr)); [|lia].
  cbn [andb]. by rewrite E.
Qed.

Lemma split_loop_end (fuel : nat) sr x subs :
  remaining sr < 6 -> split_loop (S fuel) sr x subs = SplitDone subs.
Proof.
  intros Hr. cbn [split_loop].
  destruct (Z.leb_spec 6 (remaining sr)); [lia|].
  by rewrite andb_false_r.
Qed.

Lemma byte_val_of_Z (v : Z) : 0 <= v < 256 -> byte_val (byte_of_Z v) = v.
Proof.
  intros Hv. unfold byte_val, byte_of_Z.
  destruct (Byte.of_N (Z.to_N v)) as [b|] eqn:E.
  - apply Byte.to_of_N in E. lia.
  - apply Byte.of_N_None_iff in E. lia.
Qed.

Lemma le_uint_pack_H (v : Z) : 0 <= v < 65536 -> le_uint (pack_H v) = v.
Proof.
  intros Hv. unfold pack_H. cbn [le_uint].
  rewrite !byte_val_of_Z by (split; [apply Z.mod_pos_bound|apply Z.mod_pos_bound]; lia).
  rewrite (Z.mod_small (v / 256)) by (split; [apply Z.div_pos|apply Z.div_lt_upper_bound]; lia).
  pose proof (Z.div_mod v 256). lia.
Qed.

Lemma escaped_stream_split (esc_size ty body rest : bytes) :
  len esc_size = 2 -> len ty = 4 -> decode_sig ty <> "XXXX" ->
  len body = 70000 ->
  forall fuel,
    split_loop (S (S fuel))
      (BinaryReader.mk (escaped_stream esc_size ty body ++ rest)%list 0)
      None []
    = split_loop fuel
        (BinaryReader.mk (escaped_stream esc_size ty body ++ rest)%list 70016)
        None [(decode_sig ty, body)].
Proof.
  intros Hs Ht Hne Hb fuel.
  set (d := (escaped_stream esc_size ty body ++ rest)%list).
  assert (len d = 70016 + len rest) as Hl.
  { subst d. unfold escaped_stream. rewrite !len_app, Hs, Ht, Hb.
    change (len (list_byte_of_string "XXXX")) with 4.
    change (len (pack_I 70000)) with 4. change (len (pack_H 0)) with 2. lia. }
  pose proof (len_nonneg rest).
  rewrite (split_loop_step _ _ _ _ (advance (BinaryReader.mk d 0) 10)
             (Some 70000) []).
  2: done.
  2: unfold remaining; cbn [data pos]; lia.
  2: { rewrite (split_step_escape _ _ _ [] esc_size (pack_I 70000)
                  (ty ++ pack_H 0 ++ body ++ rest)%list); try done.
       subst d. unfold escaped_stream. cbn [data app].
       by rewrite <- !app_assoc. }
  rewrite (split_loop_step _ _ _ _
             (advance (advance (BinaryReader.mk d 0) 10) (6 + len body))
             None ([] ++ [(decode_sig ty, body)])%list).
  - rewrite advance_advance. unfold advance. cbn [data pos app].
    rewrite Hb. done.
  - cbn [advance pos]. lia.
  - rewrite remaining_advance. unfold remaining; cbn [data pos]; lia.
  - apply (split_step_plain _ _ _
             (list_byte_of_string "XXXX" ++ esc_size ++ pack_I 70000)%list
             ty (pack_H 0) body rest); try done.
    + subst d. unfold escaped_stream. cbn [data advance].
      by rewrite <- !app_assoc.
    + cbn [advance pos]. rewrite !len_app, Hs.
      change (len (list_byte_of_string "XXXX")) with 4.
      change (len (pack_I 70000)) with 4. lia.
Qed.

(** C3.  In a payload made of the escape entry with 32-bit size 70000, an
    entry of type [ty] with 16-bit size 0 and 70000 bytes, the splitter
    yields exactly one subrecord, of type [ty] and with those 70000 bytes
    as payload; the escape entry yields none.  The override is spent on
    that entry: an entry that follows is cut by its own 16-bit size. *)
Theorem escape_applies_to_next_subrecord_only (esc_size ty body : bytes) :
  len esc_size = 2 -> len ty = 4 -> decode_sig ty <> "XXXX" ->
  len body = 70000 ->
  split_subrecords (escaped_stream esc_size ty body)
  = SplitDone [(decode_sig ty, body)]
  /\ forall ty2 payload2 : bytes,
      len ty2 = 4 -> decode_sig ty2 <> "XXXX" -> len payload2 < 65536 ->
      split_subrecords
        (escaped_stream esc_size ty body
         ++ ty2 ++ pack_H (len payload2) ++ payload2)%list
      = SplitDone [(decode_sig ty, body); (decode_sig ty2, payload2)].
Proof.
  intros Hs Ht Hne Hb.
  assert (len (escaped_stream esc_size ty body) = 70016) as Hl.
  { unfold escaped_stream. rewrite !len_app, Hs, Ht, Hb.
    change (len (list_byte_of_string "XXXX")) with 4.
    change (len (pack_I 70000)) with 4. change (len (pack_H 0)) with 2. lia. }
  split.
  - assert (split_loop 3
              (BinaryReader.mk (escaped_stream esc_size ty body) 0) None []
            = SplitDone [(decode_sig ty, body)]) as Hrun.
    { rewrite <- (app_nil_r (escaped_stream esc_size ty body)).
      rewrite escaped_stream_split by done.
      apply split_loop_end.
      unfold remaining. cbn [data pos]. rewrite app_nil_r, Hl. lia. }
    unfold split_subrecords.
    rewrite <- Hrun. apply split_loop_more_fuel.
    + unfold len in Hl. lia.
    + by rewrite Hrun.
  - intros ty2 payload2 Ht2 Hne2 Hp2.
    pose proof (len_nonneg payload2) as Hp0.
    set (rest := (ty2 ++ pack_H (len payload2) ++ payload2)%list).
    assert (len rest = 6 + len payload2) as Hr.
    { subst rest. rewrite !len_app, Ht2.
      change (len (pack_H (len payload2))) with 2. lia. }
    assert (split_loop 4
              (BinaryReader.mk (escaped_stream esc_size ty body ++ rest)%list 0)
              None []
            = SplitDone [(decode_sig ty, body); (decode_sig ty2, payload2)])
      as Hrun.
    { rewrite escaped_stream_split by done.
      rewrite (split_loop_step _ _ _ _
                 (advance (BinaryReader.mk
                             (escaped_stream esc_size ty body ++ rest)%list
                             70016) (6 + len payload2))
                 None ([(decode_sig ty, body)]
                       ++ [(decode_sig ty2, payload2)])%list).
      - apply split_loop_end. rewrite remaining_advance.
        unfold remaining. cbn [data pos]. rewrite len_app, Hl, Hr. lia.
      - cbn [pos]. lia.
      - unfold remaining. cbn [data pos]. rewrite len_app, Hl, Hr. lia.
      - apply (split_step_plain _ _ _ (escaped_stream esc_size ty body)
                 ty2 (pack_H (len payload2)) payload2 []); try done.
        + cbn [data]. subst rest. by rewrite app_nil_r.
        + rewrite le_uint_pack_H; lia. }
    unfold split_subrecords.
    rewrite <- Hrun. apply split_loop_more_fuel.
    + assert (len (escaped_stream esc_size ty body ++ rest)%list
              = 70016 + len rest) as Hl2 by (rewrite len_app, Hl; lia).
      unfold len in Hl2, Hr, Hp0. lia.
    + by rewrite Hrun.
Qed.

Lemma slice_short_tail {A} (pre tail : list A) (n : Z) :
  len tail <= n ->
  slice (pre ++ tail)%list (len pre) (len pre + n) = tail.
Proof.
  intros Hn. pose proof (len_nonneg tail).
  rewrite slice_nonneg by (try apply len_nonneg; lia).
  unfold len in *. rewrite Nat2Z.id, drop_app_length.
  apply take_ge. lia.
Qed.

(** On the escape type with fewer than four bytes after the size field,
    the step raises [struct.error]. *)
Lemma split_step_escape_short sr x subs (pre esc_size tail : bytes) :
  data sr = (pre ++ list_byte_of_string "XXXX" ++ esc_size ++ tail)%list ->
  pos sr = len pre -> len esc_size = 2 -> len tail < 4 ->
  split_step sr x subs = StepRaise StructError.
Proof.
  intros Hd Hp Hs Ht. unfold split_step. rewrite read_sig_eq.
  assert (sig_at (data sr) (pos sr) = "XXXX") as ->.
  { unfold sig_at.
    rewrite (slice_at _ pre (list_byte_of_string "XXXX")
               (esc_size ++ tail)%list); done. }
  assert (0 <= pos sr) by (rewrite Hp; apply len_nonneg).
  assert (len (data sr) = len pre + 6 + len tail) as Hl.
  { rewrite Hd, !len_app, Hs.
    change (len (list_byte_of_string "XXXX")) with 4. lia. }
  pose proof (len_nonneg tail).
  rewrite read_uint16_ok
    by (rewrite ?remaining_advance; unfold remaining; cbn [pos advance];
        lia).
  cbn [String.eqb Ascii.eqb Bool.eqb andb]. cbn [read].
  rewrite !advance_advance. cbn [pos data advance].
  replace (data sr)
    with ((pre ++ list_byte_of_string "XXXX" ++ esc_size) ++ tail)%list
    by (rewrite Hd; by rewrite <- !app_assoc).
  replace (pos sr + (4 + 2))
    with (len (pre ++ list_byte_of_string "XXXX" ++ esc_size)%list).
  2: { rewrite !len_app, Hs, Hp.
       change (len (list_byte_of_string "XXXX")) with 4. lia. }
  rewrite slice_short_tail by lia.
  unfold unpack_I. destruct (Z.eqb_spec (len tail) 4); [lia|done].
Qed.

(** A declared size of 8: the second half of the escape's payload is taken
    for the type of the next entry, and the override, 3, cuts a payload
    out of the bytes of the real next entry. *)
Example escape_with_size_8_misaligns :
  split_subrecords
    (list_byte_of_string "XXXX" ++ pack_H 8 ++ pack_I 3
     ++ list_byte_of_string "JUNK"
     ++ list_byte_of_string "DATA" ++ pack_H 1 ++ [x2a])%list
  = SplitDone [("JUNK", list_byte_of_string "TA" ++ [x01])%list].
Proof. vm_compute. reflexivity. Qed.

(** ** The identity resolver *)

Lemma hex_digit_value_upper (d : Z) :
  0 <= d < 16 -> hex_digit_value (hex_digit true d) = Some d.
Proof.
  intros Hd.
  assert (d = 0 \/ d = 1 \/ d = 2 \/ d = 3 \/ d = 4 \/ d = 5 \/ d = 6
          \/ d = 7 \/ d = 8 \/ d = 9 \/ d = 10 \/ d = 11 \/ d = 12
          \/ d = 13 \/ d = 14 \/ d = 15) as H by lia.
  repeat (destruct H as [->|H]; [reflexivity|]). by subst.
Qed.

Lemma hex_value_from_app (s1 s2 : string) (acc : Z) :
  hex_value_from acc (String.append s1 s2)
  = match hex_value_from acc s1 with
    | Some v => hex_value_from v s2
    | None => None
    end.
Proof.
  revert acc. induction s1 as [|c s1 IH]; intros acc; [done|].
  simpl. destruct (hex_digit_value c); [apply IH|done].
Qed.

Lemma string_length_append (s1 s2 : string) :
  String.length (String.append s1 s2)
  = (String.length s1 + String.length s2)%nat.
Proof. induction s1 as [|c s1 IH]; [done|]. simpl. by f_equal. Qed.

Lemma hex_fixed_length (w : nat) (n : Z) : String.length (hex_fixed w n) = w.
Proof.
  revert n. induction w as [|w IH]; intros n; [done|].
  cbn [hex_fixed]. rewrite string_length_append, IH. cbn. lia.
Qed.

Lemma hex_fixed_value (w : nat) (n acc : Z) :
  0 <= n ->
  hex_value_from acc (hex_fixed w n)
  = Some (16 ^ Z.of_nat w * acc + n mod 16 ^ Z.of_nat w).
Proof.
  revert n acc. induction w as [|w IH]; intros n acc Hn.
  - cbn [hex_fixed hex_value_from]. f_equal.
    change (16 ^ Z.of_nat 0) with 1. rewrite Z.mod_1_r. lia.
  - cbn [hex_fixed]. rewrite hex_value_from_app.
    rewrite IH by (apply Z.div_pos; lia).
    cbn [hex_value_from].
    rewrite hex_digit_value_upper by (apply Z.mod_pos_bound; lia).
    f_equal. rewrite Nat2Z.inj_succ, Z.pow_succ_r by lia.
    rewrite Z.rem_mul_r by lia. lia.
Qed.

Lemma format_X_small (w : nat) (n : Z) :
  0 <= n < 16 ^ Z.of_nat w -> (0 < w)%nat -> format_X w n = hex_fixed w n.
Proof.
  intros Hn Hw. unfold format_X. f_equal. apply Nat.max_l.
  unfold hex_width. destruct (Z.eq_dec n 0) as [->|Hz].
  - change (Z.log2 0 / 4 + 1) with 1. lia.
  - assert (Z.log2 n < 4 * Z.of_nat w).
    { apply Z.log2_lt_pow2; [lia|].
      rewrite Z.pow_mul_r by lia. change (2 ^ 4) with 16. lia. }
    assert (Z.log2 n / 4 < Z.of_nat w)
      by (apply Z.div_lt_upper_bound; lia).
    lia.
Qed.

(** C4.  [resolve_formid] is total.  With [i] the high byte and [local] the
    low 24 bits of the identity, the local part of the answer is [local]
    written with exactly six hexadecimal digits, and the source is
    [masters[i]] when [i] is below the number of masters, the file's own
    name when [i] equals it, and the placeholder [UNKNOWN_MASTER_ii]
    when [i] is above it.  With masters [A.esm] and [B.esm]: 0x01000001
    gives (B.esm, 000001), 0x02000005 the file itself with 000005, and
    0x05000000 a placeholder. *)
Theorem resolve_formid_cases :
  (forall (st : ESPParser) (form_id : Z),
      let i := (form_id / 2 ^ 24) mod 256 in
      let local := form_id mod 2 ^ 24 in
      exists source local_hex,
        resolve_formid st form_id = (source, local_hex)
        /\ String.length local_hex = 6%nat
        /\ hex_value local_hex = Some local
        /\ (i < len (masters st) ->
            masters st !! Z.to_nat i = Some source)
        /\ (i = len (masters st) -> source = filename st)
        /\ (len (masters st) < i ->
            source = String.append "UNKNOWN_MASTER_" (format_X 2 i)))
  /\ resolve_formid (fresh_parser false) 0x01000001 = ("B.esm", "000001")
  /\ resolve_formid (fresh_parser false) 0x02000005 = ("Self.esp", "000005")
  /\ resolve_formid (fresh_parser false) 0x05000000
     = ("UNKNOWN_MASTER_05", "000000").
Proof.
  split; [|by vm_compute].
  intros st form_id i local. unfold resolve_formid.
  assert (Z.land (Z.shiftr form_id 24) 255 = i) as ->.
  { change 255 with (Z.ones 8). rewrite Z.land_ones by lia.
    by rewrite Z.shiftr_div_pow2 by lia. }
  assert (Z.land form_id 16777215 = local) as ->.
  { change 16777215 with (Z.ones 24). by rewrite Z.land_ones by lia. }
  assert (0 <= local < 2 ^ 24) as Hl by (apply Z.mod_pos_bound; lia).
  assert (0 <= i < 256) as Hi by (apply Z.mod_pos_bound; lia).
  assert (String.length (format_X 6 local) = 6%nat
          /\ hex_value (format_X 6 local) = Some local) as [Hlen Hval].
  { rewrite format_X_small by (change (16 ^ Z.of_nat 6) with (2 ^ 24); lia).
    split; [apply hex_fixed_length|].
    unfold hex_value. rewrite hex_fixed_value by lia.
    change (16 ^ Z.of_nat 6) with (2 ^ 24).
    rewrite Z.mod_small by lia. f_equal; lia. }
  destruct (Z.ltb_spec i (len (masters st))) as [Hlt|Hge].
  - destruct (masters st !! Z.to_nat i) as [m|] eqn:E.
    + exists m, (format_X 6 local). cbn [default]. split_and!; try done; lia.
    + apply lookup_ge_None in E. unfold len in Hlt. lia.
  - destruct (Z.eqb_spec i (len (masters st))) as [Heq|Hne].
    + exists (filename st), (format_X 6 local). split_and!; try done; lia.
    + eexists _, (format_X 6 local). split_and!; try done; lia.
Qed.

(** ** The record decoder *)

Section RecordFacts.

Variable zlib : bytes -> Z -> option bytes.

(** A dropped record: the envelope is counted, the cursor goes to the end
    of the buffer, nothing else changes. *)
Lemma record_payload_truncated st r sig data_size flags form_id ts vi :
  remaining r < data_size ->
  record_payload zlib st r sig data_size flags form_id ts vi
  = Ok None (count_record st sig) (BinaryReader.mk (data r) (len (data r))).
Proof.
  intros H. unfold record_payload.
  destruct (Z.ltb_spec (remaining r) data_size); [|lia].
  by rewrite skip_remaining.
Qed.

Lemma finish_record_counts st r sig fid rec record_data st' :
  final_parser (finish_record st r sig fid rec record_data) = Some st' ->
  record_count st' = record_count st /\ type_counts st' = type_counts st.
Proof.
  unfold finish_record.
  destruct (split_subrecords record_data); [|by intros [= <-]|done].
  destruct (parse_subrecords _); by intros [= <-].
Qed.

Lemma finish_record_reader st r sig fid rec record_data :
  final_reader (finish_record st r sig fid rec record_data) = Some r.
Proof.
  unfold finish_record.
  pose proof (split_subrecords_total record_data).
  destruct (split_subrecords record_data); [|done..].
  by destruct (parse_subrecords _).
Qed.

Lemma print_counts st m :
  record_count (print st m) = record_count st
  /\ type_counts (print st m) = type_counts st.
Proof. unfold print. by destruct (verbose st). Qed.

Lemma record_payload_counts st r sig data_size flags form_id ts vi :
  exists st',
    final_parser (record_payload zlib st r sig data_size flags form_id ts vi)
    = Some st'
    /\ record_count st' = record_count st + 1
    /\ type_counts st' !! sig
       = Some (default 0 (type_counts st !! sig) + 1).
Proof.
  assert (forall st', record_count st' = record_count (count_record st sig)
                      /\ type_counts st' = type_counts (count_record st sig)
                      -> record_count st' = record_count st + 1
                         /\ type_counts st' !! sig
                            = Some (default 0 (type_counts st !! sig) + 1))
    as Hcount.
  { intros st' [-> ->]. cbn [count_record record_count type_counts].
    by rewrite lookup_insert_eq. }
  assert (forall st0 r0 rec record_data,
            record_count st0 = record_count (count_record st sig)
            /\ type_counts st0 = type_counts (count_record st sig) ->
            exists st',
              final_parser (finish_record st0 r0 sig form_id rec record_data)
              = Some st'
              /\ record_count st' = record_count st + 1
              /\ type_counts st' !! sig
                 = Some (default 0 (type_counts st !! sig) + 1)) as Hfin.
  { intros st0 r0 rec record_data [H1 H2].
    pose proof (finish_record_reader st0 r0 sig form_id rec record_data) as Hr.
    destruct (final_parser (finish_record st0 r0 sig form_id rec record_data))
      as [st'|] eqn:E.
    - exists st'. split; [done|]. apply Hcount.
      apply finish_record_counts in E as [-> ->]. done.
    - destruct (finish_record st0 r0 sig form_id rec record_data); done. }
  unfold record_payload.
  destruct (remaining r <? data_size).
  { eexists. split; [done|]. by apply Hcount. }
  cbn [read].
  destruct (is_compressed _ && _).
  - destruct (unpack_I _).
    + eexists. split; [done|]. by apply Hcount.
    + destruct (zlib _ _).
      * by apply Hfin.
      * eexists. split; [done|]. apply Hcount.
        destruct (print_counts (count_compressed (count_record st sig))
                    (MsgDecompressWarning sig form_id)) as [-> ->]. done.
  - by apply Hfin.
Qed.

(** Where the record decoder leaves the cursor: past the declared payload
    when it fits in the buffer, else at the end of the buffer. *)
Lemma record_payload_reader st r sig data_size flags form_id ts vi :
  final_reader (record_payload zlib st r sig data_size flags form_id ts vi)
  = Some (if remaining r <? data_size
          then BinaryReader.mk (data r) (len (data r))
          else advance r data_size).
Proof.
  unfold record_payload.
  destruct (Z.ltb_spec (remaining r) data_size).
  { by rewrite skip_remaining. }
  cbn [read].
  destruct (is_compressed _ && _).
  - destruct (unpack_I _); [done|].
    destruct (zlib _ _); [|done]. apply finish_record_reader.
  - apply finish_record_reader.
Qed.

End RecordFacts.

(** C7, as the code has it.  The fixed-width reads fail with
    [struct.error] when fewer bytes remain than their width.  [read],
    [read_string] and [read_sig] cannot fail: asked for more bytes than
    remain, they return the bytes that remain, fewer than requested, and
    still advance the cursor by the full requested length. *)
Theorem reads_past_the_end (r : BinaryReader.t) :
  (remaining r < 1 -> read_uint8 r = inl StructError)
  /\ (remaining r < 2 -> read_uint16 r = inl StructError)
  /\ (remaining r < 4 ->
      read_uint32 r = inl StructError /\ read_int32 r = inl StructError
      /\ read_float r = inl StructError)
  /\ (forall n, 0 <= pos r -> 0 < n -> remaining r < n ->
      len (fst (read r n)) = Z.max 0 (remaining r)
      /\ len (fst (read r n)) < n
      /\ pos (snd (read r n)) = pos r + n
      /\ read_string r n
         = (decode_text (until_nul (fst (read r n))), snd (read r n)))
  /\ (0 <= pos r -> remaining r < 4 ->
      read_sig r = (decode_sig (fst (read r 4)), snd (read r 4))
      /\ len (fst (read r 4)) < 4).
Proof.
  split_and!.
  - apply read_fixed_short.
  - apply read_fixed_short.
  - intros H. unfold read_int32, read_uint32, read_float.
    by rewrite read_fixed_short.
  - intros n Hp H0 Hn. cbn [read fst snd advance pos].
    pose proof (len_nonneg (data r)).
    rewrite len_slice by lia. unfold remaining in *.
    split_and!; try done; lia.
  - intros Hp Hr. split; [done|]. cbn [read fst].
    rewrite len_slice by lia. unfold remaining in *.
    pose proof (len_nonneg (data r)). lia.
Qed.

(** C7 fails as stated: on a buffer of two bytes, a [read] of four bytes
    returns the two bytes and moves the cursor to 4, without failing. *)
Lemma read_returns_fewer_bytes_than_requested :
  read (BinaryReader.mk [x01; x02] 0) 4
  = ([x01; x02], BinaryReader.mk [x01; x02] 4)
  /\ read_sig (BinaryReader.mk [x41; x42] 0)
     = ("AB", BinaryReader.mk [x41; x42] 4).
Proof. split; reflexivity. Qed.


(** C9.  Once the 24-byte envelope has been read, the record decoder has
    added one to [record_count] and to the count of the envelope's type,
    whatever happens to the record afterwards.  An envelope that
    declares more payload than the buffer holds is dropped after that:
    the indexes keep their content while [record_count] has grown, so it
    can exceed the number of stored records (as it does on
    [truncated_file], from a fresh parser: one envelope counted, nothing
    stored). *)
Theorem dropped_envelope_is_counted
    (zlib : bytes -> Z -> option bytes) (st : ESPParser)
    (r : BinaryReader.t) :
  0 <= pos r -> 24 <= remaining r ->
  (exists st',
      final_parser (_parse_record zlib st r) = Some st'
      /\ record_count st' = record_count st + 1
      /\ type_counts st' !! sig_at (data r) (pos r)
         = Some (default 0 (type_counts st !! sig_at (data r) (pos r)) + 1))
  /\ (remaining r - 24 < u32_at (data r) (pos r + 4) ->
      exists st' r',
        _parse_record zlib st r = Ok None st' r'
        /\ record_count st' = record_count st + 1
        /\ records st' = records st
        /\ records_by_formid st' = records_by_formid st
        /\ record_count st' - stored_count st'
           = record_count st - stored_count st + 1)
  /\ (exists st' r',
        _parse_record zlib (fresh_parser false)
          (BinaryReader.mk truncated_file 0) = Ok None st' r'
        /\ record_count st' = 1 /\ stored_count st' = 0
        /\ records_by_formid st' = ∅).
Proof.
  intros Hp Hr. split_and!.
  - rewrite parse_record_envelope by done. apply record_payload_counts.
  - intros Ht. rewrite parse_record_envelope by done.
    rewrite record_payload_truncated by (rewrite remaining_advance; lia).
    eexists _, _. split; [done|].
    unfold stored_count. cbn [count_record record_count records
                               records_by_formid].
    split_and!; try done; lia.
  - rewrite parse_record_envelope by (vm_compute; done).
    rewrite record_payload_truncated by (vm_compute; done).
    eexists _, _. split; [done|]. by vm_compute.
Qed.



(** C1: the behaviour of the code.  When the compression flag is set, the
    payload has four bytes at least and fits in the buffer, and the
    decompressor rejects it, the record decoder returns the record with no
    subrecords and no keywords, but leaves both indexes as they were: the
    record is not stored. *)
Theorem failed_decompression_record_is_not_stored
    (zlib : bytes -> Z -> option bytes) (st : ESPParser)
    (r : BinaryReader.t) :
  0 <= pos r -> 24 <= remaining r ->
  4 <= u32_at (data r) (pos r + 4) <= remaining r - 24 ->
  Z.land (u32_at (data r) (pos r + 8)) FLAG_COMPRESSED <> 0 ->
  zlib (slice (payload_at (data r) (pos r)) 4
          (len (payload_at (data r) (pos r))))
       (le_uint (slice (payload_at (data r) (pos r)) 0 4)) = None ->
  exists rec st',
    _parse_record zlib st r
    = Ok (Some rec) st' (advance r (24 + u32_at (data r) (pos r + 4)))
    /\ subrecords rec = [] /\ keywords rec = []
    /\ records st' = records st
    /\ records_by_formid st' = records_by_formid st
    /\ record_count st' = record_count st + 1
    /\ compressed_count st' = compressed_count st + 1.
Proof.
  intros Hp Hr Hsz Hfl Hz.
  rewrite parse_record_envelope by done. unfold record_payload.
  destruct (Z.ltb_spec (remaining (advance r 24))
              (u32_at (data r) (pos r + 4))) as [Hlt|_].
  { rewrite remaining_advance in Hlt. lia. }
  cbn [read advance pos data].
  fold (payload_at (data r) (pos r)).
  assert (len (payload_at (data r) (pos r)) = u32_at (data r) (pos r + 4))
    as Hlen.
  { unfold payload_at. rewrite len_slice by lia. unfold remaining in *. lia. }
  cbn [new_record is_compressed].
  destruct (Z.eqb_spec (Z.land (u32_at (data r) (pos r + 8)) FLAG_COMPRESSED)
              0); [done|].
  destruct (Z.leb_spec 4 (len (payload_at (data r) (pos r)))); [|lia].
  cbn [negb andb].
  assert (unpack_I (slice (payload_at (data r) (pos r)) 0 4)
          = inr (le_uint (slice (payload_at (data r) (pos r)) 0 4))) as ->.
  { unfold unpack_I.
    rewrite (len_slice _ 0 4) by lia.
    destruct (Z.eqb_spec (Z.min 4 (Z.max 0
                (len (payload_at (data r) (pos r)) - 0))) 4); [done|lia]. }
  rewrite Hz, advance_advance. eexists _, _. split; [reflexivity|].
  unfold print. destruct (verbose _); by cbn.
Qed.

(** ** The container walker *)

Section GroupFacts.

Variable zlib : bytes -> Z -> option bytes.

(** [_parse_group] once its envelope has been read. *)
Lemma parse_group_envelope (fuel : nat) (filter_types : option (gset string))
    (st : ESPParser) (r : BinaryReader.t) :
  0 <= pos r -> 24 <= remaining r -> sig_at (data r) (pos r) = "GRUP" ->
  _parse_group zlib (S fuel) filter_types st r
  = let group_size := u32_at (data r) (pos r + 4) in
    let group_label := sig_at (data r) (pos r + 8) in
    let end_pos := pos r + 24 + (group_size - 24) in
    if to_int32 (u32_at (data r) (pos r + 12)) =? 0 then
      let st := print (count_group st)
                  (MsgGroup group_label (group_size - 24)) in
      if filtered_out filter_types group_label
      then Ok tt st (BinaryReader.mk (data r) end_pos)
      else group_content zlib fuel filter_types end_pos st (advance r 24)
    else
      group_content zlib fuel filter_types end_pos (count_group st)
        (advance r 24).
Proof.
  intros Hp Hr Hsig. cbn [_parse_group]. rewrite read_sig_eq, Hsig.
  cbn [String.eqb Ascii.eqb Bool.eqb andb negb]. unfold on_read.
  rewrite read_uint32_ok
    by (rewrite ?remaining_advance; cbn [pos advance]; lia).
  cbn [read]. rewrite !advance_advance.
  rewrite read_int32_ok
    by (rewrite ?remaining_advance; cbn [pos advance]; lia).
  rewrite !advance_advance.
  repeat (rewrite read_uint32_ok
            by (rewrite ?remaining_advance; cbn [pos advance]; lia);
          rewrite ?advance_advance).
  unfold group_end_pos, skip, sig_at. cbn [pos data advance].
  change (4 + (4 + 4) + 4 + 4 + 4) with 24.
  change (4 + (4 + 4)) with 12. change (4 + 4) with 8.
  change (12 + 4 + 4) with 20.
  replace (pos r + 8 + 4) with (pos r + 12) by lia.
  replace (advance r (20 + (4 + (u32_at (data r) (pos r + 4) - 24))))
    with (BinaryReader.mk (data r)
            (pos r + 24 + (u32_at (data r) (pos r + 4) - 24)))
    by (unfold advance; f_equal; lia).
  reflexivity.
Qed.

(** The loop ends as soon as the cursor is at or past the content end. *)
Lemma group_content_done (fuel : nat) (filter_types : option (gset string))
    (end_pos : Z) (st : ESPParser) (r : BinaryReader.t) :
  end_pos <= pos r ->
  group_content zlib (S fuel) filter_types end_pos st r = Ok tt st r.
Proof.
  intros H. cbn [group_content].
  destruct (Z.ltb_spec (pos r) end_pos); [lia|done].
Qed.

Lemma parse_record_reader (st : ESPParser) (r : BinaryReader.t) :
  0 <= pos r -> 24 <= remaining r ->
  final_reader (_parse_record zlib st r)
  = Some (if remaining r - 24 <? u32_at (data r) (pos r + 4)
          then BinaryReader.mk (data r) (len (data r))
          else advance r (24 + u32_at (data r) (pos r + 4))).
Proof.
  intros Hp Hr. rewrite parse_record_envelope by done.
  rewrite record_payload_reader, remaining_advance, advance_advance.
  done.
Qed.

End GroupFacts.

(** ** Containers whose entries fit *)

Lemma peek_sig_some (r : BinaryReader.t) (s : string) :
  peek_sig r = Some s ->
  sig_at (data r) (pos r) = s /\ pos r + 4 <= len (data r).
Proof.
  unfold peek_sig.
  destruct (Z.ltb_spec (len (data r)) (pos r + 4)); [done|].
  intros E. split; [|done]. unfold sig_at, decode_sig. by rewrite E.
Qed.

Lemma u32_at_nonneg (b : bytes) (off : Z) : 0 <= u32_at b off.
Proof. unfold u32_at. apply le_uint_range. Qed.

Section Tiling.

Variable zlib : bytes -> Z -> option bytes.

Lemma group_content_unfold (fuel : nat) (filter_types : option (gset string))
    (end_pos : Z) (st : ESPParser) (r : BinaryReader.t) :
  group_content zlib (S fuel) filter_types end_pos st r
  = if pos r <? end_pos then
      if remaining r <? 4 then Ok tt st r
      else if sig_is (peek_sig r) "GRUP" then
        and_then (_parse_group zlib fuel filter_types st r)
          (fun _ => group_content zlib fuel filter_types end_pos)
      else
        and_then (_parse_record zlib st r)
          (fun _ => group_content zlib fuel filter_types end_pos)
    else Ok tt st r.
Proof. reflexivity. Qed.

(** On a content span whose entries fit, the loop of the walker ends
    within the content end, given enough fuel. *)
Lemma tiled_content (b : bytes) (filter_types : option (gset string))
    (p e : Z) :
  tiled b filter_types p e -> e <= len b ->
  exists n : nat, forall fuel : nat, (n <= fuel)%nat ->
    forall st : ESPParser,
      ends_within b e
        (group_content zlib fuel filter_types e st (BinaryReader.mk b p)).
Proof.
  induction 1 as [e
                 |p e Hp Hlt Hpeek Hfit _ IH
                 |p e Hp Hlt Hpeek Hsz Hfit Hty Hout _ IH
                 |p e Hp Hlt Hpeek Hsz Hfit Hin _ IH1 _ IH2]; intros He.
  - exists 1%nat. intros [|fuel] Hf st; [lia|].
    rewrite group_content_done by (cbn [pos]; lia). done.
  - destruct (IH He) as [n Hn]. exists (S n).
    intros [|fuel] Hf st; [lia|].
    pose proof (u32_at_nonneg b (p + 4)) as Hs.
    rewrite group_content_unfold. cbn [pos]. unfold remaining. cbn [data pos].
    destruct (Z.ltb_spec p e); [|lia].
    destruct (Z.ltb_spec (len b - p) 4); [lia|].
    rewrite Hpeek.
    pose proof (parse_record_reader zlib st (BinaryReader.mk b p)) as Hr.
    cbn [data pos] in Hr. unfold remaining in Hr. cbn [data pos] in Hr.
    specialize (Hr Hp ltac:(lia)).
    destruct (Z.ltb_spec (len b - p - 24) (u32_at b (p + 4))); [lia|].
    destruct (_parse_record zlib st (BinaryReader.mk b p))
      as [a st1 r1|ex st1 r1|]; cbn [final_reader] in Hr; [| |done].
    + injection Hr as ->. cbn [and_then]. unfold advance. cbn [data pos].
      replace (p + (24 + u32_at b (p + 4))) with (p + 24 + u32_at b (p + 4))
        by lia.
      apply Hn. lia.
    + injection Hr as ->. cbn [and_then ends_within advance data pos].
      split; [done|lia].
  - destruct (IH He) as [n Hn]. exists (S (S n)).
    intros [|[|fuel]] Hf st; [lia..|].
    apply peek_sig_some in Hpeek as Hsig. cbn [data pos] in Hsig.
    destruct Hsig as [Hsig Hlen].
    rewrite group_content_unfold. cbn [pos]. unfold remaining. cbn [data pos].
    destruct (Z.ltb_spec p e); [|lia].
    destruct (Z.ltb_spec (len b - p) 4); [lia|].
    rewrite Hpeek. cbn [sig_is String.eqb Ascii.eqb Bool.eqb andb].
    rewrite parse_group_envelope
      by (try done; unfold remaining; cbn [data pos]; lia).
    cbv zeta. cbn [data pos]. rewrite Hty, Hout. cbn [Z.eqb and_then].
    replace (p + 24 + (u32_at b (p + 4) - 24)) with (p + u32_at b (p + 4))
      by lia.
    apply Hn. lia.
  - destruct (IH1 ltac:(lia)) as [n1 Hn1].
    destruct (IH2 He) as [n2 Hn2]. exists (S (S (n1 + n2))).
    intros [|[|fuel]] Hf st; [lia..|].
    apply peek_sig_some in Hpeek as Hsig. cbn [data pos] in Hsig.
    destruct Hsig as [Hsig Hlen].
    rewrite group_content_unfold. cbn [pos]. unfold remaining. cbn [data pos].
    destruct (Z.ltb_spec p e); [|lia].
    destruct (Z.ltb_spec (len b - p) 4); [lia|].
    rewrite Hpeek. cbn [sig_is String.eqb Ascii.eqb Bool.eqb andb].
    rewrite parse_group_envelope
      by (try done; unfold remaining; cbn [data pos]; lia).
    cbv zeta. cbn [data pos].
    replace (p + 24 + (u32_at b (p + 4) - 24)) with (p + u32_at b (p + 4))
      by lia.
    unfold advance. cbn [data pos].
    assert (forall st0,
              ends_within b e
                (and_then
                   (group_content zlib fuel filter_types
                      (p + u32_at b (p + 4)) st0
                      (BinaryReader.mk b (p + 24)))
                   (fun _ => group_content zlib (S fuel) filter_types e)))
      as Hinner.
    { intros st0. specialize (Hn1 fuel ltac:(lia) st0).
      destruct (group_content zlib fuel filter_types _ st0 _)
        as [a st1 r1|ex st1 r1|]; cbn [ends_within and_then] in *.
      - subst r1. apply Hn2. lia.
      - split; [tauto|lia].
      - done. }
    destruct (Z.eqb_spec (to_int32 (u32_at b (p + 12))) 0) as [Hzero|_].
    + rewrite (Hin Hzero). apply Hinner.
    + apply Hinner.
Qed.

(** A container whose entries fit is walked within its content end. *)
Lemma tiled_group_run (filter_types : option (gset string))
    (r : BinaryReader.t) :
  0 <= pos r -> sig_at (data r) (pos r) = "GRUP" ->
  24 <= u32_at (data r) (pos r + 4) ->
  pos r + u32_at (data r) (pos r + 4) <= len (data r) ->
  tiled (data r) filter_types (pos r + 24)
    (pos r + 24 + (u32_at (data r) (pos r + 4) - 24)) ->
  exists n : nat, forall fuel : nat, (n <= fuel)%nat ->
    forall st : ESPParser,
      ends_within (data r)
        (pos r + 24 + (u32_at (data r) (pos r + 4) - 24))
        (_parse_group zlib fuel filter_types st r).
Proof.
  intros Hp Hsig Hsz Hfit Ht.
  destruct (tiled_content _ _ _ _ Ht ltac:(lia)) as [n Hn].
  exists (S n). intros [|fuel] Hf st; [lia|].
  rewrite parse_group_envelope by (try done; unfold remaining; lia).
  cbv zeta. unfold advance.
  destruct (to_int32 _ =? 0); [destruct (filtered_out _ _)|].
  - reflexivity.
  - apply Hn. lia.
  - apply Hn. lia.
Qed.

End Tiling.

(** C2, as the code has it.  The content end of a container is
    [start_pos + 24 + (declared_size - 24)].  A container that is skipped
    leaves the cursor exactly there; otherwise the walker runs its loop
    against that end, and the loop returns at once when the cursor is at
    or past it.  The bound does not reach the entries: the record decoder
    moves the cursor past the payload its envelope declares whenever that
    payload fits in the buffer (and to the end of the buffer when it does
    not), without looking at the content end.  The cursor stays within
    the content end when the entries fit ([tiled]): the walker then
    returns with the cursor exactly at the content end, and an exception
    raised on the way leaves it at or before that end. *)
Theorem content_end_bounds_the_loop_only
    (zlib : bytes -> Z -> option bytes) (fuel : nat)
    (filter_types : option (gset string)) (st : ESPParser)
    (r : BinaryReader.t) :
  0 <= pos r -> 24 <= remaining r -> sig_at (data r) (pos r) = "GRUP" ->
  let end_pos := pos r + 24 + (u32_at (data r) (pos r + 4) - 24) in
  (exists st',
      _parse_group zlib (S fuel) filter_types st r
      = Ok tt st' (BinaryReader.mk (data r) end_pos)
      \/ _parse_group zlib (S fuel) filter_types st r
         = group_content zlib fuel filter_types end_pos st' (advance r 24))
  /\ (forall fuel' st1 r1,
        end_pos <= pos r1 ->
        group_content zlib (S fuel') filter_types end_pos st1 r1
        = Ok tt st1 r1)
  /\ (forall st1 r1,
        0 <= pos r1 -> 24 <= remaining r1 ->
        final_reader (_parse_record zlib st1 r1)
        = Some (if remaining r1 - 24 <? u32_at (data r1) (pos r1 + 4)
                then BinaryReader.mk (data r1) (len (data r1))
                else advance r1 (24 + u32_at (data r1) (pos r1 + 4))))
  /\ (24 <= u32_at (data r) (pos r + 4) -> end_pos <= len (data r) ->
      tiled (data r) filter_types (pos r + 24) end_pos ->
      exists n : nat, forall fuel' : nat, (n <= fuel')%nat ->
        forall st1 : ESPParser,
          ends_within (data r) end_pos
            (_parse_group zlib fuel' filter_types st1 r)).
Proof.
  intros Hp Hr Hsig end_pos. split_and!.
  - rewrite parse_group_envelope by done. cbv zeta. fold end_pos.
    destruct (to_int32 _ =? 0); [destruct (filtered_out _ _)|]; eauto.
  - intros. by apply group_content_done.
  - intros. by apply parse_record_reader.
  - intros Hsz Hfit Ht. subst end_pos.
    apply tiled_group_run; try done. lia.
Qed.

(** C2 fails as stated: in [overrun_group] the content end is 48, and
    the walker returns with the cursor at 56, the record inside having
    read its 8 payload bytes past the content end. *)
Lemma record_reads_past_content_end :
  0 + 24 + (u32_at overrun_group 4 - 24) = 48
  /\ final_reader
       (_parse_group zlib_reject 3 None (fresh_parser false)
          (BinaryReader.mk overrun_group 0))
     = Some (BinaryReader.mk overrun_group 56).
Proof. split; by vm_compute. Qed.

Lemma filtered_out_only_KYWD (group_label : string) :
  group_label <> "KYWD" -> filtered_out only_KYWD group_label = true.
Proof.
  intros Hne. unfold filtered_out, only_KYWD.
  rewrite bool_decide_eq_false_2 by (apply non_empty_singleton_L).
  rewrite bool_decide_eq_false_2 by (by rewrite elem_of_singleton).
  done.
Qed.

Lemma to_int32_0 : to_int32 0 = 0.
Proof. reflexivity. Qed.

Lemma print_keeps_records st m :
  records (print st m) = records st
  /\ records_by_formid (print st m) = records_by_formid st
  /\ record_count (print st m) = record_count st
  /\ group_count (print st m) = group_count st.
Proof. unfold print. by destruct (verbose st). Qed.

(** A container of type 0 whose label is not [KYWD], met under the
    interest set [{KYWD}]: only its envelope is read. *)
Lemma skip_uninteresting_group
    (zlib : bytes -> Z -> option bytes) (fuel : nat) (st : ESPParser)
    (r : BinaryReader.t) :
  0 <= pos r -> 24 <= remaining r -> sig_at (data r) (pos r) = "GRUP" ->
  u32_at (data r) (pos r + 12) = 0 ->
  sig_at (data r) (pos r + 8) <> "KYWD" ->
  exists st',
    _parse_group zlib (S fuel) only_KYWD st r
    = Ok tt st'
        (BinaryReader.mk (data r)
           (pos r + 24 + (u32_at (data r) (pos r + 4) - 24)))
    /\ records st' = records st
    /\ records_by_formid st' = records_by_formid st
    /\ record_count st' = record_count st
    /\ group_count st' = group_count st + 1.
Proof.
  intros Hp Hr Hsig Hty Hlabel.
  rewrite parse_group_envelope by done. cbv zeta.
  rewrite Hty, to_int32_0. cbn [Z.eqb].
  rewrite filtered_out_only_KYWD by done.
  eexists. split; [reflexivity|].
  destruct (print_keeps_records (count_group st)
              (MsgGroup (sig_at (data r) (pos r + 8))
                 (u32_at (data r) (pos r + 4) - 24)))
    as (-> & -> & -> & ->).
  done.
Qed.

Lemma le_uint_pack_I (v : Z) : 0 <= v < 2 ^ 32 -> le_uint (pack_I v) = v.
Proof.
  intros Hv. unfold pack_I. cbn [le_uint].
  rewrite !byte_val_of_Z by (apply Z.mod_pos_bound; lia).
  pose proof (Z.div_mod v 256 ltac:(lia)).
  pose proof (Z.div_mod (v / 256) 256 ltac:(lia)).
  pose proof (Z.div_mod (v / 256 / 256) 256 ltac:(lia)).
  replace (v / 65536) with (v / 256 / 256)
    by (rewrite Z.div_div by lia; done).
  replace (v / 16777216) with (v / 256 / 256 / 256)
    by (rewrite !Z.div_div by lia; done).
  assert (v / 256 / 256 / 256 < 256)
    by (rewrite !Z.div_div by lia; apply Z.div_lt_upper_bound; lia).
  assert (0 <= v / 256 / 256 / 256) by (rewrite !Z.div_div by lia;
                                        apply Z.div_pos; lia).
  rewrite (Z.mod_small (v / 256 / 256 / 256)) by lia.
  lia.
Qed.

(** The envelope fields of a container written by [group_bytes], found
    anywhere in a buffer. *)
Lemma group_bytes_at (pre post label content : bytes) (size gt : Z) :
  len label = 4 -> 0 <= size < 2 ^ 32 -> 0 <= gt < 2 ^ 32 ->
  let d := (pre ++ group_bytes size label gt content ++ post)%list in
  len d = len pre + 24 + len content + len post
  /\ slice d (len pre) (len pre + 4) = list_byte_of_string "GRUP"
  /\ u32_at d (len pre + 4) = size
  /\ sig_at d (len pre + 8) = decode_sig label
  /\ u32_at d (len pre + 12) = gt.
Proof.
  intros Hl Hs Hg d. subst d. unfold group_bytes. split_and!.
  - rewrite !len_app, Hl.
    change (len (list_byte_of_string "GRUP")) with 4.
    change (len (pack_I size)) with 4. change (len (pack_I gt)) with 4.
    change (len (pack_I 0)) with 4. lia.
  - eapply slice_at; [|reflexivity|reflexivity].
    by rewrite <- !app_assoc.
  - unfold u32_at. rewrite <- (le_uint_pack_I size) at 2 by done. f_equal.
    eapply (slice_at _ (pre ++ list_byte_of_string "GRUP")%list).
    + by rewrite <- !app_assoc.
    + rewrite len_app. reflexivity.
    + reflexivity.
  - unfold sig_at. f_equal.
    eapply (slice_at _ (pre ++ list_byte_of_string "GRUP"
                        ++ pack_I size)%list).
    + by rewrite <- !app_assoc.
    + rewrite !len_app. change (len (list_byte_of_string "GRUP")) with 4.
      change (len (pack_I size)) with 4. lia.
    + done.
  - unfold u32_at. rewrite <- (le_uint_pack_I gt) at 2 by done. f_equal.
    eapply (slice_at _ (pre ++ list_byte_of_string "GRUP"
                        ++ pack_I size ++ label)%list).
    + by rewrite <- !app_assoc.
    + rewrite !len_app, Hl. change (len (list_byte_of_string "GRUP")) with 4.
      change (len (pack_I size)) with 4. lia.
    + reflexivity.
Qed.

Lemma groups_file_cons (g : bytes * bytes) (groups : list (bytes * bytes)) :
  groups_file (g :: groups)
  = (group_bytes (24 + len (snd g)) (fst g) 0 (snd g)
     ++ groups_file groups)%list.
Proof. reflexivity. Qed.

Lemma len_group_bytes (size : Z) (label content : bytes) (gt : Z) :
  len label = 4 -> len (group_bytes size label gt content) = 24 + len content.
Proof.
  intros Hl. unfold group_bytes. rewrite !len_app, Hl.
  change (len (list_byte_of_string "GRUP")) with 4.
  change (len (pack_I size)) with 4. change (len (pack_I gt)) with 4.
  change (len (pack_I 0)) with 4. lia.
Qed.

Lemma parse_groups_unfold
    (zlib : bytes -> Z -> option bytes) (fuel : nat)
    (filter_types : option (gset string)) (st : ESPParser)
    (r : BinaryReader.t) :
  parse_groups zlib (S fuel) filter_types st r
  = if has_data r && (4 <=? remaining r) then
      if sig_is (peek_sig r) "GRUP" then
        and_then (_parse_group zlib fuel filter_types st r)
          (fun _ => parse_groups zlib fuel filter_types)
      else
        and_then (_parse_record zlib st r)
          (fun _ => parse_groups zlib fuel filter_types)
    else Ok tt st r.
Proof. reflexivity. Qed.

(** A run of top-level containers of type 0, none labelled [KYWD], is
    walked to its end under the interest set [{KYWD}] without a single
    record being decoded, whatever the containers hold. *)
Lemma skip_groups_file
    (zlib : bytes -> Z -> option bytes) (groups : list (bytes * bytes)) :
  Forall (fun g => len (fst g) = 4 /\ decode_sig (fst g) <> "KYWD"
                   /\ 24 + len (snd g) < 2 ^ 32) groups ->
  forall (pre : bytes) (fuel : nat) (st : ESPParser),
    (length groups < fuel)%nat ->
    exists st',
      parse_groups zlib fuel only_KYWD st
        (BinaryReader.mk (pre ++ groups_file groups)%list (len pre))
      = Ok tt st'
          (BinaryReader.mk (pre ++ groups_file groups)%list
             (len (pre ++ groups_file groups)%list))
      /\ records st' = records st
      /\ records_by_formid st' = records_by_formid st
      /\ record_count st' = record_count st
      /\ group_count st' = group_count st + len groups.
Proof.
  induction 1 as [|g groups (Hl & Hne & Hsz) _ IH]; intros pre fuel st Hf.
  - destruct fuel as [|fuel]; [simpl in Hf; lia|].
    exists st. cbn [parse_groups]. unfold has_data. cbn [data pos].
    change (groups_file []) with (@nil byte). rewrite app_nil_r.
    rewrite Z.ltb_irrefl. cbn [andb]. split_and!; try done.
    unfold len. simpl. lia.
  - destruct fuel as [|[|fuel]]; [simpl in Hf; lia..|].
    rewrite groups_file_cons.
    set (size := 24 + len (snd g)).
    set (d := (pre ++ group_bytes size (fst g) 0 (snd g)
               ++ groups_file groups)%list).
    pose proof (len_nonneg (snd g)) as Hc.
    pose proof (len_nonneg (groups_file groups)) as Hrest.
    pose proof (len_nonneg pre) as Hpre.
    destruct (group_bytes_at pre (groups_file groups) (fst g) (snd g)
                size 0 Hl ltac:(lia) ltac:(lia))
      as (Hlen & Hsig & Hsize & Hlabel & Hty).
    fold d in Hlen, Hsig, Hsize, Hlabel, Hty.
    set (r := BinaryReader.mk d (len pre)).
    assert (sig_is (peek_sig r) "GRUP" = true) as Hpeek.
    { unfold peek_sig, r. cbn [data pos]. rewrite Hsig.
      destruct (Z.ltb_spec (len d) (len pre + 4)); [lia|]. reflexivity. }
    destruct (skip_uninteresting_group zlib fuel st r)
      as (st1 & Hrun & Hrec & Hfid & Hrc & Hgc).
    { done. }
    { unfold remaining, r. cbn [data pos]. lia. }
    { unfold sig_at, r. cbn [data pos]. by rewrite Hsig. }
    { done. }
    { unfold r. cbn [data pos]. by rewrite Hlabel. }
    destruct (IH (pre ++ group_bytes size (fst g) 0 (snd g))%list
                (S fuel) st1) as (st' & Hrun' & Hrec' & Hfid' & Hrc' & Hgc').
    { simpl in Hf. lia. }
    exists st'. rewrite <- !app_assoc in Hrun'. fold d in Hrun'.
    rewrite len_app, len_group_bytes in Hrun' by done.
    rewrite parse_groups_unfold. fold r. rewrite Hpeek.
    assert (has_data r && (4 <=? remaining r) = true) as ->.
    { unfold has_data, remaining, r. cbn [data pos].
      destruct (Z.ltb_spec (len pre) (len d)); [|lia].
      destruct (Z.leb_spec 4 (len d - len pre)); [done|lia]. }
    rewrite Hrun. cbn [and_then].
    unfold r in *. cbn [data pos] in *. rewrite Hsize.
    replace (len pre + 24 + (size - 24)) with (len pre + (24 + len (snd g)))
      by (subst size; lia).
    rewrite Hrun'. split_and!; try congruence.
    rewrite Hgc', Hgc. unfold len. simpl length. lia.
Qed.

(** C5, as the code has it.  Under the interest set [{KYWD}] a container
    of type 0 whose label is not [KYWD] is skipped whole: the walker reads
    its 24-byte envelope, sets the cursor to the content end that the
    envelope declares and returns; no entry inside is decoded, no record
    is stored and nothing is raised, whatever bytes the content holds.  A
    file body made of such containers only, each declaring its true size
    (24 plus the length of its content), is decoded to its end with no
    record stored. *)
Theorem uninteresting_containers_are_skipped
    (zlib : bytes -> Z -> option bytes) (st : ESPParser) :
  (forall (fuel : nat) (r : BinaryReader.t),
      0 <= pos r -> 24 <= remaining r -> sig_at (data r) (pos r) = "GRUP" ->
      u32_at (data r) (pos r + 12) = 0 ->
      sig_at (data r) (pos r + 8) <> "KYWD" ->
      exists st',
        _parse_group zlib (S fuel) only_KYWD st r
        = Ok tt st'
            (BinaryReader.mk (data r)
               (pos r + 24 + (u32_at (data r) (pos r + 4) - 24)))
        /\ records st' = records st
        /\ records_by_formid st' = records_by_formid st
        /\ record_count st' = record_count st
        /\ group_count st' = group_count st + 1)
  /\ (forall (groups : list (bytes * bytes)) (fuel : nat),
        Forall (fun g => len (fst g) = 4 /\ decode_sig (fst g) <> "KYWD"
                         /\ 24 + len (snd g) < 2 ^ 32) groups ->
        (length groups < fuel)%nat ->
        exists st',
          parse_groups zlib fuel only_KYWD st
            (BinaryReader.mk (groups_file groups) 0)
          = Ok tt st'
              (BinaryReader.mk (groups_file groups)
                 (len (groups_file groups)))
          /\ records st' = records st
          /\ records_by_formid st' = records_by_formid st
          /\ record_count st' = record_count st
          /\ group_count st' = group_count st + len groups).
Proof.
  split.
  - intros. by apply skip_uninteresting_group.
  - intros groups fuel Hg Hf.
    apply (skip_groups_file zlib groups Hg [] fuel st Hf).
Qed.

(** C5 fails as stated: under the interest set [{KYWD}] a [WEAP] record
    is stored when it stands at top level outside any container, and
    when it stands inside a container labelled [KYWD]. *)
Lemma filter_lets_other_types_through :
  (exists st' r' rec,
      parse_groups zlib_reject 2 only_KYWD (fresh_parser false)
        (BinaryReader.mk stray_record 0) = Ok tt st' r'
      /\ records st' !! "WEAP" = Some [rec])
  /\ (exists st' r' rec,
        parse_groups zlib_reject 5 only_KYWD (fresh_parser false)
          (BinaryReader.mk mislabelled_group 0) = Ok tt st' r'
        /\ records st' !! "WEAP" = Some [rec]
        /\ records st' !! "KYWD" = None).
Proof.
  split.
  - eexists _, _, _. split; by vm_compute.
  - eexists _, _, _. split_and!; by vm_compute.
Qed.

(** ** Keywords *)

Lemma kwda_loop_seq (sub_data : bytes) (n a : nat) (kws : list Z) :
  (a + n)%nat = Z.to_nat ((len sub_data + 3) / 4) ->
  kwda_loop sub_data (map (fun k => 4 * Z.of_nat k) (seq a n)) kws
  = inr (kws ++ map (fun k => u32_at sub_data (4 * Z.of_nat k))
                  (seq a (Z.to_nat (len sub_data / 4) - a)))%list.
Proof.
  pose proof (len_nonneg sub_data) as Hl.
  pose proof (Z.div_mod (len sub_data) 4 ltac:(lia)) as Hq.
  pose proof (Z.mod_pos_bound (len sub_data) 4 ltac:(lia)) as Hm.
  pose proof (Z.div_mod (len sub_data + 3) 4 ltac:(lia)) as Hq3.
  pose proof (Z.mod_pos_bound (len sub_data + 3) 4 ltac:(lia)) as Hm3.
  revert a kws. induction n as [|n IH]; intros a kws Ha.
  - cbn [seq map kwda_loop].
    replace (Z.to_nat (len sub_data / 4) - a)%nat with 0%nat by lia.
    cbn [seq map]. by rewrite app_nil_r.
  - cbn [seq map kwda_loop].
    destruct (Z.leb_spec (4 * Z.of_nat a + 4) (len sub_data)) as [Hfit|Hno].
    + unfold unpack_I. rewrite len_slice by lia.
      destruct (Z.eqb_spec
                  (Z.min 4 (Z.max 0 (len sub_data - 4 * Z.of_nat a))) 4);
        [|lia].
      rewrite IH by lia.
      replace (Z.to_nat (len sub_data / 4) - a)%nat
        with (S (Z.to_nat (len sub_data / 4) - S a))%nat by lia.
      cbn [seq map]. by rewrite <- app_assoc.
    + rewrite IH by lia.
      replace (Z.to_nat (len sub_data / 4) - S a)%nat with 0%nat by lia.
      replace (Z.to_nat (len sub_data / 4) - a)%nat with 0%nat by lia.
      done.
Qed.

Lemma kwda_loop_range4 (sub_data : bytes) :
  kwda_loop sub_data (range4 (len sub_data)) []
  = inr (keywords_of_array sub_data).
Proof.
  unfold range4. rewrite kwda_loop_seq by done.
  unfold keywords_of_array. by rewrite Nat.sub_0_r.
Qed.

(** One iteration of [parse_subrecords]: it cannot raise unless the
    subrecord is a keyword count longer than four bytes, and it replaces
    the keyword list exactly when the subrecord is a keyword array. *)
Lemma parse_subrecord_keywords (rec : ESPRecord) (kc : Z)
    (sub_type : string) (sub_data : bytes) :
  (sub_type = "KSIZ" -> len sub_data <= 4) ->
  exists rec' kc',
    parse_subrecord rec kc sub_type sub_data = inr (rec', kc')
    /\ keywords rec'
       = if String.eqb sub_type "KWDA" then keywords_of_array sub_data
         else keywords rec.
Proof.
  intros Hk. unfold parse_subrecord.
  destruct (String.eqb_spec sub_type "EDID") as [->|_].
  { eexists _, _. split; [reflexivity|]. done. }
  destruct (String.eqb_spec sub_type "FULL") as [->|_].
  { destruct (Z.eqb_spec (len sub_data) 4) as [H4|_].
    - unfold unpack_I. rewrite H4. cbn [Z.eqb Pos.eqb].
      eexists _, _. split; [reflexivity|]. done.
    - eexists _, _. split; [reflexivity|]. done. }
  destruct (String.eqb_spec sub_type "KSIZ") as [->|_].
  { destruct (Z.leb_spec 4 (len sub_data)) as [H4|_].
    - unfold unpack_I. specialize (Hk eq_refl).
      replace (len sub_data) with 4 by lia. cbn [Z.eqb Pos.eqb].
      eexists _, _. split; [reflexivity|]. done.
    - eexists _, _. split; [reflexivity|]. done. }
  destruct (String.eqb_spec sub_type "KWDA") as [->|_].
  { rewrite kwda_loop_range4.
    eexists _, _. split; [reflexivity|]. done. }
  eexists _, _. split; [reflexivity|]. done.
Qed.

Lemma parse_subrecords_loop_keywords (subs : list (string * bytes)) :
  forall (rec : ESPRecord) (kc : Z),
    (forall d, In ("KSIZ", d) subs -> len d <= 4) ->
    exists rec',
      parse_subrecords_loop subs rec kc = inr rec'
      /\ keywords rec'
         = match last_payload "KWDA" subs with
           | Some arr => keywords_of_array arr
           | None => keywords rec
           end.
Proof.
  induction subs as [|[ty d] subs IH]; intros rec kc Hk.
  - exists rec. done.
  - cbn [parse_subrecords_loop last_payload].
    destruct (parse_subrecord_keywords rec kc ty d) as (rec1 & kc1 & -> & Hkw).
    { intros ->. apply Hk. by left. }
    destruct (IH rec1 kc1) as (rec' & -> & Hkw').
    { intros d' Hd'. apply Hk. by right. }
    exists rec'. split; [done|]. rewrite Hkw', Hkw.
    destruct (last_payload "KWDA" subs); [done|].
    by destruct (String.eqb ty "KWDA").
Qed.

Lemma keywords_of_array_range (arr : bytes) :
  Forall (fun kw => 0 <= kw < 2 ^ 32) (keywords_of_array arr).
Proof.
  unfold keywords_of_array. apply Forall_map, Forall_forall.
  intros k _. unfold u32_at.
  pose proof (le_uint_range (slice arr (4 * Z.of_nat k)
                               (4 * Z.of_nat k + 4))) as [H0 H1].
  split; [done|]. eapply Z.lt_le_trans; [exact H1|].
  change (2 ^ 32) with (256 ^ 4).
  apply Z.pow_le_mono_r; [lia|]. rewrite len_slice by lia. lia.
Qed.

(** C8, as the code has it.  When no keyword-count subrecord is longer
    than four bytes, [parse_subrecords] returns, and the keyword list is
    read off the last keyword-array subrecord alone: one 32-bit
    little-endian identity per complete group of four bytes, that is
    [len // 4] of them.  The keyword count is read and left unused; the
    list does not depend on it.  Without a keyword array the list stays
    as it was. *)
Theorem keywords_follow_the_array_length (rec : ESPRecord) :
  (forall d, In ("KSIZ", d) (subrecords rec) -> len d <= 4) ->
  exists rec',
    parse_subrecords rec = inr rec'
    /\ (forall arr,
          last_payload "KWDA" (subrecords rec) = Some arr ->
          keywords rec' = keywords_of_array arr
          /\ len (keywords rec') = len arr / 4
          /\ Forall (fun kw => 0 <= kw < 2 ^ 32) (keywords rec'))
    /\ (last_payload "KWDA" (subrecords rec) = None ->
        keywords rec' = keywords rec).
Proof.
  intros Hk. unfold parse_subrecords.
  destruct (parse_subrecords_loop_keywords (subrecords rec) rec 0 Hk)
    as (rec' & -> & Hkw).
  exists rec'. split; [done|]. split.
  - intros arr Harr. rewrite Harr in Hkw. rewrite Hkw. split_and!.
    + done.
    + unfold keywords_of_array, len. rewrite length_map, length_seq.
      pose proof (len_nonneg arr).
      rewrite Z2Nat.id by (apply Z.div_pos; unfold len in *; lia). done.
    + apply keywords_of_array_range.
  - intros Hnone. by rewrite Hnone in Hkw.
Qed.

(** C8 fails as stated: [miscounted_record] carries the keyword count 1
    and a keyword array of eight bytes; the decoded list has the two
    identities of the array. *)
Lemma keyword_count_is_not_used :
  exists rec',
    parse_subrecords miscounted_record = inr rec'
    /\ keywords rec' = [7; 9].
Proof. eexists. split; by vm_compute. Qed.

(** ** The theorems at concrete inputs *)

Lemma failed_decompression_record_is_not_stored_witness :
  exists rec st',
    _parse_record zlib_reject (fresh_parser false)
      (BinaryReader.mk garbled_compressed_file 0)
    = Ok (Some rec) st' (BinaryReader.mk garbled_compressed_file 32)
    /\ subrecords rec = [] /\ keywords rec = []
    /\ records st' = ∅ /\ records_by_formid st' = ∅
    /\ record_count st' = 1 /\ compressed_count st' = 1.
Proof.
  destruct (failed_decompression_record_is_not_stored zlib_reject
              (fresh_parser false)
              (BinaryReader.mk garbled_compressed_file 0))
    as (rec & st' & H1 & H2 & H3 & H4 & H5 & H6 & H7).
  - by vm_compute.
  - by vm_compute.
  - by vm_compute.
  - by vm_compute.
  - reflexivity.
  - exists rec, st'. split_and!; assumption.
Defined.

Lemma content_end_bounds_the_loop_only_witness :
  (exists st',
      _parse_group zlib_reject 3 None (fresh_parser false)
        (BinaryReader.mk overrun_group 0)
      = Ok tt st' (BinaryReader.mk overrun_group 48)
      \/ _parse_group zlib_reject 3 None (fresh_parser false)
           (BinaryReader.mk overrun_group 0)
         = group_content zlib_reject 2 None 48 st'
             (advance (BinaryReader.mk overrun_group 0) 24))
  /\ (exists n : nat, forall fuel : nat, (n <= fuel)%nat ->
        forall st : ESPParser,
          ends_within mislabelled_group 48
            (_parse_group zlib_reject fuel None st
               (BinaryReader.mk mislabelled_group 0))).
Proof.
  split.
  - destruct (content_end_bounds_the_loop_only zlib_reject 2 None
                (fresh_parser false) (BinaryReader.mk overrun_group 0))
      as [[st' H] _].
    + by vm_compute.
    + by vm_compute.
    + by vm_compute.
    + exists st'. exact H.
  - destruct (content_end_bounds_the_loop_only zlib_reject 0 None
                (fresh_parser false) (BinaryReader.mk mislabelled_group 0))
      as (_ & _ & _ & H).
    + by vm_compute.
    + by vm_compute.
    + by vm_compute.
    + apply H.
      * by vm_compute.
      * by vm_compute.
      * change (tiled mislabelled_group None 24 48).
        apply tiled_record.
        -- lia.
        -- lia.
        -- by vm_compute.
        -- by vm_compute.
        -- change (tiled mislabelled_group None 48 48). apply tiled_end.
Defined.

Lemma escape_applies_to_next_subrecord_only_witness :
  len zero_body = 70000
  /\ split_subrecords
       (escaped_stream (pack_H 4) (list_byte_of_string "DATA") zero_body)
     = SplitDone [("DATA", zero_body)].
Proof.
  assert (len zero_body = 70000) as Hb by (by vm_compute).
  assert (decode_sig (list_byte_of_string "DATA") <> "XXXX") as Hne
    by (by vm_compute).
  split; [exact Hb|].
  exact (proj1 (escape_applies_to_next_subrecord_only (pack_H 4)
                  (list_byte_of_string "DATA") zero_body
                  eq_refl eq_refl Hne Hb)).
Defined.

Lemma resolve_formid_cases_witness :
  exists source local_hex,
    resolve_formid (fresh_parser false) 0x00012345 = (source, local_hex)
    /\ masters (fresh_parser false) !! 0%nat = Some source
    /\ hex_value local_hex = Some 0x012345.
Proof.
  destruct (proj1 resolve_formid_cases (fresh_parser false) 0x00012345)
    as (source & local_hex & H1 & _ & H3 & H4 & _).
  exists source, local_hex. split_and!.
  - exact H1.
  - apply H4. by vm_compute.
  - exact H3.
Defined.

Lemma uninteresting_containers_are_skipped_witness :
  (exists st',
      _parse_group zlib_reject 1 only_KYWD (fresh_parser false)
        (BinaryReader.mk corrupt_weap_group 0)
      = Ok tt st' (BinaryReader.mk corrupt_weap_group 30)
      /\ records st' = ∅)
  /\ (exists st',
        parse_groups zlib_reject 2 only_KYWD (fresh_parser false)
          (BinaryReader.mk corrupt_weap_group 0)
        = Ok tt st' (BinaryReader.mk corrupt_weap_group 30)
        /\ records st' = ∅).
Proof.
  destruct (uninteresting_containers_are_skipped zlib_reject
              (fresh_parser false)) as [Hone Hfile].
  split.
  - destruct (Hone 0%nat (BinaryReader.mk corrupt_weap_group 0))
      as (st' & H1 & H2 & _).
    + by vm_compute.
    + by vm_compute.
    + by vm_compute.
    + by vm_compute.
    + by vm_compute.
    + exists st'. split; [exact H1|exact H2].
  - destruct (Hfile [(list_byte_of_string "WEAP",
                      [xff; xff; xff; xff; xff; xff])] 2%nat)
      as (st' & H1 & H2 & _).
    + repeat constructor; by vm_compute.
    + simpl. lia.
    + exists st'. split; [exact H1|exact H2].
Defined.


Lemma reads_past_the_end_witness :
  read_uint32 (BinaryReader.mk [x01; x02] 0) = inl StructError
  /\ len (fst (read (BinaryReader.mk [x01; x02] 0) 4)) = 2.
Proof.
  destruct (reads_past_the_end (BinaryReader.mk [x01; x02] 0))
    as (_ & _ & H4 & Hread & _).
  split.
  - apply H4. by vm_compute.
  - destruct (Hread 4) as (H & _); by vm_compute.
Defined.

Lemma keywords_follow_the_array_length_witness :
  exists rec',
    parse_subrecords miscounted_record = inr rec'
    /\ keywords rec' = keywords_of_array (pack_I 7 ++ pack_I 9)%list
    /\ len (keywords rec') = 2.
Proof.
  destruct (keywords_follow_the_array_length miscounted_record)
    as (rec' & H1 & H2 & _).
  - intros d [H|[H|[]]]; [|discriminate H].
    injection H as <-. by vm_compute.
  - exists rec'. destruct (H2 (pack_I 7 ++ pack_I 9)%list) as (H3 & H4 & _).
    + reflexivity.
    + split_and!; [exact H1|exact H3|exact H4].
Defined.

Lemma dropped_envelope_is_counted_witness :
  exists st' r',
    _parse_record zlib_reject (fresh_parser false)
      (BinaryReader.mk truncated_file 0) = Ok None st' r'
    /\ record_count st' = 0 + 1
    /\ records st' = ∅.
Proof.
  destruct (dropped_envelope_is_counted zlib_reject (fresh_parser false)
              (BinaryReader.mk truncated_file 0)) as (_ & H & _).
  - by vm_compute.
  - by vm_compute.
  - destruct H as (st' & r' & H1 & H2 & H3 & _).
    + by vm_compute.
    + exists st', r'. split_and!; [exact H1|exact H2|exact H3].
Defined.

(** ** Two limits of the hypotheses above *)

(** A keyword count of more than four bytes makes [parse_subrecords]
    raise: [struct.unpack('<I', ...)] wants exactly four bytes. *)
Example long_keyword_count_raises :
  parse_subrecords
    (mkRecord "WEAP" 0 0 0 0 0 [("KSIZ", (pack_I 1 ++ [x00])%list)]
       false "" "" [] ∅)
  = inl StructError.
Proof. reflexivity. Qed.

(** A skipped container that declares the size zero sends the cursor
    back to its own envelope: the decode loop never ends, whatever the
    fuel. *)
Lemma zero_sized_skipped_group_never_ends
    (zlib : bytes -> Z -> option bytes) (fuel : nat) (st : ESPParser) :
  parse_groups zlib fuel only_KYWD st (BinaryReader.mk zero_sized_group 0)
  = OutOfFuel.
Proof.
  revert st. induction fuel as [|fuel IH]; intros st; [done|].
  rewrite parse_groups_unfold.
  change (has_data (BinaryReader.mk zero_sized_group 0)
          && (4 <=? remaining (BinaryReader.mk zero_sized_group 0)))
    with true.
  change (sig_is (peek_sig (BinaryReader.mk zero_sized_group 0)) "GRUP")
    with true.
  cbv iota. destruct fuel as [|fuel]; [done|].
  destruct (skip_uninteresting_group zlib fuel st
              (BinaryReader.mk zero_sized_group 0))
    as (st' & Hrun & _).
  - by vm_compute.
  - by vm_compute.
  - by vm_compute.
  - by vm_compute.
  - by vm_compute.
  - rewrite Hrun. cbn [and_then]. exact (IH st').
Qed.

(** * Further properties *)

(** ** The splitter on whole streams *)

Lemma len_subrecord_bytes (s : bytes * bytes) :
  len (fst s) = 4 -> len (subrecord_bytes s) = 6 + len (snd s).
Proof.
  intros H. unfold subrecord_bytes. rewrite !len_app, H.
  change (len (pack_H (len (snd s)))) with 2. lia.
Qed.

Lemma subrecords_bytes_cons (s : bytes * bytes) (subs : list (bytes * bytes)) :
  subrecords_bytes (s :: subs)
  = (subrecord_bytes s ++ subrecords_bytes subs)%list.
Proof. reflexivity. Qed.

(** The splitter walks through a run of plain subrecords, one iteration
    for each, whatever follows the run. *)
Lemma split_loop_plain_run (subs : list (bytes * bytes)) :
  Forall plain_subrecord subs ->
  forall (d pre rest : bytes) (fuel : nat) (acc : list (string * bytes)),
    d = (pre ++ subrecords_bytes subs ++ rest)%list ->
    split_loop (length subs + fuel) (BinaryReader.mk d (len pre)) None acc
    = split_loop fuel
        (BinaryReader.mk d (len pre + len (subrecords_bytes subs)))
        None (acc ++ decoded_subrecords subs)%list.
Proof.
  induction 1 as [|s subs (Hty & Hne & Hsz) _ IH];
    intros d pre rest fuel acc Hd.
  - cbn [length Nat.add subrecords_bytes map concat decoded_subrecords].
    rewrite app_nil_r. unfold len at 2. simpl length.
    by rewrite Z.add_0_r.
  - pose proof (len_nonneg (snd s)) as Hp.
    pose proof (len_nonneg pre) as Hpre.
    pose proof (len_nonneg (subrecords_bytes subs ++ rest)%list) as Hrest.
    rewrite subrecords_bytes_cons in Hd. cbn [length Nat.add].
    assert (d = (pre ++ fst s ++ pack_H (len (snd s)) ++ snd s
                 ++ subrecords_bytes subs ++ rest)%list) as Hd1.
    { rewrite Hd. unfold subrecord_bytes. by rewrite <- !app_assoc. }
    assert (d = ((pre ++ subrecord_bytes s) ++ subrecords_bytes subs
                 ++ rest)%list) as Hd2.
    { rewrite Hd. by rewrite <- !app_assoc. }
    rewrite (split_loop_step _ _ _ _
               (advance (BinaryReader.mk d (len pre)) (6 + len (snd s)))
               None (acc ++ [(decode_sig (fst s), snd s)])%list).
    + unfold advance. cbn [data pos].
      specialize (IH d (pre ++ subrecord_bytes s)%list rest fuel
                    (acc ++ [(decode_sig (fst s), snd s)])%list Hd2).
      rewrite len_app, len_subrecord_bytes in IH by done.
      rewrite IH. rewrite subrecords_bytes_cons, len_app,
        len_subrecord_bytes by done.
      cbn [decoded_subrecords map]. rewrite <- app_assoc. cbn [app].
      do 2 f_equal. lia.
    + cbn [pos]. lia.
    + unfold remaining. cbn [data pos]. rewrite Hd1, !len_app, Hty.
      change (len (pack_H (len (snd s)))) with 2.
      rewrite <- len_app. lia.
    + apply (split_step_plain _ _ _ pre (fst s) (pack_H (len (snd s)))
               (snd s) (subrecords_bytes subs ++ rest)%list); try done.
      rewrite le_uint_pack_H; lia.
Qed.

Lemma split_loop_plain_run_0 (subs : list (bytes * bytes)) (rest : bytes)
    (fuel : nat) :
  Forall plain_subrecord subs ->
  split_loop (length subs + fuel)
    (BinaryReader.mk (subrecords_bytes subs ++ rest)%list 0) None []
  = split_loop fuel
      (BinaryReader.mk (subrecords_bytes subs ++ rest)%list
         (len (subrecords_bytes subs)))
      None (decoded_subrecords subs).
Proof.
  intros Hsubs.
  exact (split_loop_plain_run subs Hsubs (subrecords_bytes subs ++ rest)%list
           [] rest fuel [] eq_refl).
Qed.

Lemma len_subrecords_bytes (subs : list (bytes * bytes)) :
  Forall plain_subrecord subs ->
  6 * len subs <= len (subrecords_bytes subs).
Proof.
  induction 1 as [|s subs (Hty & _ & _) _ IH].
  - unfold len. simpl. lia.
  - rewrite subrecords_bytes_cons, len_app, len_subrecord_bytes by done.
    pose proof (len_nonneg (snd s)). unfold len in *. simpl length. lia.
Qed.

(** An entry whose effective size exceeds what is left stops the loop. *)
Lemma split_step_overrun sr subs (pre ty sz tail : bytes) :
  data sr = (pre ++ ty ++ sz ++ tail)%list ->
  pos sr = len pre -> len ty = 4 -> decode_sig ty <> "XXXX" -> len sz = 2 ->
  len tail < le_uint sz ->
  split_step sr None subs = Break.
Proof.
  intros Hd Hp Ht Hne Hs Hn. unfold split_step. rewrite read_sig_eq.
  assert (sig_at (data sr) (pos sr) = decode_sig ty) as ->.
  { unfold sig_at. rewrite (slice_at _ pre ty (sz ++ tail)%list); done. }
  assert (0 <= pos sr) by (rewrite Hp; apply len_nonneg).
  assert (len (data sr) = len pre + 6 + len tail) as Hl.
  { rewrite Hd, !len_app, Hs, Ht. lia. }
  pose proof (len_nonneg tail).
  rewrite read_uint16_ok
    by (rewrite ?remaining_advance; unfold remaining; cbn [pos advance]; lia).
  apply String.eqb_neq in Hne. rewrite Hne. cbn [pos data advance].
  assert (u16_at (data sr) (pos sr + 4) = le_uint sz) as ->.
  { unfold u16_at.
    rewrite (slice_at _ (pre ++ ty)%list sz tail); try done.
    - rewrite Hd. by rewrite <- !app_assoc.
    - rewrite len_app. lia. }
  destruct (Z.ltb_spec (remaining (advance (advance sr 4) 2)) (le_uint sz));
    [done|].
  rewrite !remaining_advance in *. unfold remaining in *. lia.
Qed.

(** A run of plain subrecords splits back into those subrecords. *)
Lemma split_subrecords_plain
    (subs : list (bytes * bytes)) (rest : bytes) :
  Forall plain_subrecord subs -> len rest < 6 ->
  split_subrecords (subrecords_bytes subs ++ rest)%list
  = SplitDone (decoded_subrecords subs).
Proof.
  intros Hsubs Hrest.
  pose proof (len_subrecords_bytes subs Hsubs) as Hlen.
  pose proof (len_nonneg rest) as Hr0.
  assert (split_loop (length subs + 1)
            (BinaryReader.mk (subrecords_bytes subs ++ rest)%list 0) None []
          = SplitDone (decoded_subrecords subs)) as Hrun.
  { rewrite split_loop_plain_run_0 by done.
    apply split_loop_end. unfold remaining. cbn [data pos].
    rewrite len_app. lia. }
  unfold split_subrecords. rewrite <- Hrun. apply split_loop_more_fuel.
  - assert (len (subrecords_bytes subs ++ rest)%list
            = len (subrecords_bytes subs) + len rest) as H
      by apply len_app.
    unfold len in *. lia.
  - by rewrite Hrun.
Qed.

Lemma subrecords_size_plain (subs : list (bytes * bytes)) :
  Forall plain_subrecord subs ->
  subrecords_size (decoded_subrecords subs) = len (subrecords_bytes subs).
Proof.
  induction 1 as [|s subs (Hty & _ & _) _ IH]; [done|].
  rewrite subrecords_bytes_cons, len_app, len_subrecord_bytes by done.
  cbn [decoded_subrecords map subrecords_size fold_right snd].
  fold (decoded_subrecords subs).
  fold (subrecords_size (decoded_subrecords subs)).
  rewrite IH. lia.
Qed.

(** X1.  Round trip of the splitter: a payload written as a run of plain
    subrecords (type, 16-bit size, payload), followed by fewer than six
    stray bytes, splits back into those subrecords, in order and with
    their payloads intact; the stray bytes are ignored, and the
    subrecords account for every other byte of the payload. *)
Theorem split_reads_back_plain_subrecords
    (subs : list (bytes * bytes)) (rest : bytes) :
  Forall plain_subrecord subs -> len rest < 6 ->
  split_subrecords (subrecords_bytes subs ++ rest)%list
  = SplitDone (decoded_subrecords subs)
  /\ subrecords_size (decoded_subrecords subs) + len rest
     = len (subrecords_bytes subs ++ rest)%list.
Proof.
  intros Hsubs Hrest. split.
  - by apply split_subrecords_plain.
  - rewrite len_app. by rewrite subrecords_size_plain.
Qed.

(** X2.  Subrecord overrun: when a run of plain subrecords is followed by
    an entry of a type other than the escape type [XXXX] whose 16-bit
    size exceeds the bytes left after its header, the splitter stops
    there without raising and keeps exactly the subrecords read before
    it.  (An escape entry in that place is not measured against its size
    field.) *)
Theorem split_stops_at_overrunning_subrecord
    (subs : list (bytes * bytes)) (ty sz tail : bytes) :
  Forall plain_subrecord subs ->
  len ty = 4 -> decode_sig ty <> "XXXX" -> len sz = 2 ->
  len tail < le_uint sz ->
  split_subrecords (subrecords_bytes subs ++ ty ++ sz ++ tail)%list
  = SplitDone (decoded_subrecords subs).
Proof.
  intros Hsubs Hty Hne Hsz Hover.
  pose proof (len_subrecords_bytes subs Hsubs) as Hlen.
  pose proof (len_nonneg tail) as Ht0.
  set (rest := (ty ++ sz ++ tail)%list).
  assert (len rest = 6 + len tail) as Hrest
    by (subst rest; rewrite !len_app, Hty, Hsz; lia).
  assert (split_loop (length subs + 1)
            (BinaryReader.mk (subrecords_bytes subs ++ rest)%list 0) None []
          = SplitDone (decoded_subrecords subs)) as Hrun.
  { rewrite split_loop_plain_run_0 by done.
    cbn [split_loop].
    unfold has_data, remaining. cbn [data pos]. rewrite len_app, Hrest.
    destruct (Z.ltb_spec (len (subrecords_bytes subs))
                (len (subrecords_bytes subs) + (6 + len tail))); [|lia].
    destruct (Z.leb_spec 6 (len (subrecords_bytes subs) + (6 + len tail)
                            - len (subrecords_bytes subs))); [|lia].
    cbn [andb].
    by rewrite (split_step_overrun _ _ (subrecords_bytes subs) ty sz tail). }
  unfold split_subrecords. rewrite <- Hrun. apply split_loop_more_fuel.
  - assert (len (subrecords_bytes subs ++ rest)%list
            = len (subrecords_bytes subs) + len rest) as H
      by apply len_app.
    unfold len in *. lia.
  - by rewrite Hrun.
Qed.

Lemma subrecords_size_app (a b : list (string * bytes)) :
  subrecords_size (a ++ b)%list = subrecords_size a + subrecords_size b.
Proof.
  induction a as [|s a IH]; [done|].
  cbn [app subrecords_size fold_right] in *. fold (subrecords_size (a ++ b)).
  fold (subrecords_size a). lia.
Qed.

(** What one iteration does to the cursor and to the output. *)
Lemma split_step_accounts sr x acc :
  xxxx_ok x -> 0 <= pos sr -> 6 <= remaining sr ->
  match split_step sr x acc with
  | Continue sr' x' acc' =>
    data sr' = data sr /\ pos sr <= pos sr' <= len (data sr)
    /\ subrecords_size acc' - subrecords_size acc <= pos sr' - pos sr
    /\ xxxx_ok x'
  | Break => True
  | StepRaise e => e = StructError
  end.
Proof.
  intros Hx Hp Hr. unfold split_step. rewrite read_sig_eq.
  rewrite read_uint16_ok
    by (rewrite ?remaining_advance; cbn [pos advance]; lia).
  cbn [pos data advance].
  pose proof (le_uint_range (slice (data sr) (pos sr + 4) (pos sr + 4 + 2)))
    as [Hsz _]. fold (u16_at (data sr) (pos sr + 4)) in Hsz.
  unfold remaining in Hr.
  destruct (String.eqb _ "XXXX").
  - cbn [read]. rewrite !advance_advance. cbn [pos data advance].
    destruct (unpack_I _) as [e|v] eqn:U.
    + unfold unpack_I in U. destruct (len _ =? 4); [done|].
      by injection U as <-.
    + apply unpack_I_inr in U as (Hlen & _ & Hv).
      rewrite len_slice in Hlen by lia.
      cbn [xxxx_ok advance pos data]. split_and!; try done; lia.
  - set (n := match x with Some v => v | None => _ end).
    assert (0 <= n) by (subst n; destruct x; simpl in Hx; lia).
    destruct (Z.ltb_spec (remaining (advance (advance sr 4) 2)) n) as [|Hfit];
      [done|].
    rewrite !remaining_advance in Hfit. unfold remaining in Hfit.
    cbn [read]. rewrite !advance_advance. cbn [pos data advance xxxx_ok].
    rewrite subrecords_size_app.
    cbn [subrecords_size fold_right snd].
    replace (pos sr + (4 + 2)) with (pos sr + 6) by lia.
    rewrite len_slice by lia.
    split_and!; try done; lia.
Qed.

Lemma split_loop_accounts (fuel : nat) sr x acc :
  xxxx_ok x -> 0 <= pos sr <= len (data sr) ->
  subrecords_size acc <= pos sr ->
  match split_loop fuel sr x acc with
  | SplitDone subs => subrecords_size subs <= len (data sr)
  | SplitRaise e => e = StructError
  | SplitOutOfFuel => True
  end.
Proof.
  revert sr x acc. induction fuel as [|fuel IH]; intros sr x acc Hx Hp Hacc;
    [done|].
  cbn [split_loop].
  destruct (has_data sr && (6 <=? remaining sr)) eqn:C; [|lia].
  apply andb_true_iff in C as [_ C%Z.leb_le].
  pose proof (split_step_accounts sr x acc Hx ltac:(lia) C) as Hstep.
  destruct (split_step sr x acc) as [sr' x' acc'| |e]; [|lia|done].
  destruct Hstep as (Hd & Hpos & Hsize & Hx').
  rewrite <- Hd. apply IH; [done|rewrite Hd; lia|lia].
Qed.

(** X3.  The splitter always finishes, whatever the payload: it returns
    subrecords that account for no more bytes than the payload holds (six
    bytes of header and the payload, for each of them), or it raises
    [struct.error]; it never runs on. *)
Theorem split_terminates_within_the_payload (record_data : bytes) :
  (exists subs,
      split_subrecords record_data = SplitDone subs
      /\ subrecords_size subs <= len record_data)
  \/ split_subrecords record_data = SplitRaise StructError.
Proof.
  pose proof (split_loop_total (S (length record_data))
                (BinaryReader.mk record_data 0) None []) as Htotal.
  pose proof (split_loop_accounts (S (length record_data))
                (BinaryReader.mk record_data 0) None []) as Hacc.
  unfold split_subrecords.
  destruct (split_loop _ _ _ _) as [subs|e|].
  - left. exists subs. split; [done|]. apply Hacc; try done.
    cbn [pos data]. pose proof (len_nonneg record_data). lia.
  - right. f_equal. apply Hacc; try done.
    cbn [pos data]. pose proof (len_nonneg record_data). lia.
  - exfalso. apply Htotal; [done| |done].
    unfold remaining, len. cbn [data pos]. lia.
Qed.

(** ** The escape entry on whole streams *)

(** What the loop returns with some fuel is what the splitter returns,
    when its own fuel is at least that. *)
Lemma split_subrecords_from_loop (fuel : nat) (d : bytes)
    (res : split_result) :
  split_loop fuel (BinaryReader.mk d 0) None [] = res ->
  res <> SplitOutOfFuel -> (fuel <= S (length d))%nat ->
  split_subrecords d = res.
Proof.
  intros Hrun Hres Hfuel. unfold split_subrecords. rewrite <- Hrun.
  apply split_loop_more_fuel; [done|by rewrite Hrun].
Qed.

(** After a run of plain subrecords, an escape entry and the entry that
    follows its four override bytes take two iterations, whatever the
    size field of the escape entry says. *)
Lemma split_loop_escape_run (subs : list (bytes * bytes))
    (esc_size ty sz body rest : bytes) (n : Z) (fuel : nat) :
  Forall plain_subrecord subs -> len esc_size = 2 ->
  0 <= n < 2 ^ 32 -> len ty = 4 -> decode_sig ty <> "XXXX" ->
  len sz = 2 -> len body = n ->
  let d := (subrecords_bytes subs ++ list_byte_of_string "XXXX" ++ esc_size
            ++ pack_I n ++ ty ++ sz ++ body ++ rest)%list in
  split_loop (length subs + S (S fuel)) (BinaryReader.mk d 0) None []
  = split_loop fuel
      (BinaryReader.mk d (len (subrecords_bytes subs) + 10 + (6 + n)))
      None (decoded_subrecords subs ++ [(decode_sig ty, body)])%list.
Proof.
  intros Hsubs Hs Hn Ht Hne Hsz Hb. cbv zeta.
  rewrite split_loop_plain_run_0 by done.
  set (P := subrecords_bytes subs).
  set (d := (P ++ list_byte_of_string "XXXX" ++ esc_size ++ pack_I n
             ++ ty ++ sz ++ body ++ rest)%list).
  pose proof (len_nonneg P) as HP. pose proof (len_nonneg rest) as Hr.
  assert (len d = len P + 10 + (6 + n) + len rest) as Hl.
  { subst d. rewrite !len_app, Hs, Ht, Hsz, Hb.
    change (len (list_byte_of_string "XXXX")) with 4.
    change (len (pack_I n)) with 4. lia. }
  rewrite (split_loop_step _ _ _ _
             (advance (BinaryReader.mk d (len P)) 10)
             (Some n) (decoded_subrecords subs)).
  2: cbn [pos]; lia.
  2: unfold remaining; cbn [data pos]; lia.
  2: { rewrite (split_step_escape _ _ _ P esc_size (pack_I n)
                  (ty ++ sz ++ body ++ rest)%list); try done.
       by rewrite le_uint_pack_I. }
  rewrite (split_loop_step _ _ _ _
             (advance (advance (BinaryReader.mk d (len P)) 10)
                (6 + len body))
             None (decoded_subrecords subs ++ [(decode_sig ty, body)])%list).
  - rewrite advance_advance. unfold advance. cbn [data pos].
    rewrite Hb. do 2 f_equal. lia.
  - cbn [advance pos]. lia.
  - rewrite remaining_advance. unfold remaining. cbn [data pos]. lia.
  - apply (split_step_plain _ _ _
             (P ++ list_byte_of_string "XXXX" ++ esc_size ++ pack_I n)%list
             ty sz body rest); try done.
    + subst d. cbn [data advance]. by rewrite <- !app_assoc.
    + cbn [advance pos]. rewrite !len_app, Hs.
      change (len (list_byte_of_string "XXXX")) with 4.
      change (len (pack_I n)) with 4. lia.
Qed.

(** The stream of [split_loop_escape_run], split. *)
Lemma split_subrecords_escape (subs : list (bytes * bytes))
    (esc_size ty sz body rest : bytes) (n : Z) :
  Forall plain_subrecord subs -> len esc_size = 2 ->
  0 <= n < 2 ^ 32 -> len ty = 4 -> decode_sig ty <> "XXXX" ->
  len sz = 2 -> len body = n -> len rest < 6 ->
  split_subrecords
    (subrecords_bytes subs ++ list_byte_of_string "XXXX" ++ esc_size
     ++ pack_I n ++ ty ++ sz ++ body ++ rest)%list
  = SplitDone (decoded_subrecords subs ++ [(decode_sig ty, body)])%list.
Proof.
  intros Hsubs Hs Hn Ht Hne Hsz Hb Hrest.
  pose proof (len_subrecords_bytes subs Hsubs) as Hlen.
  pose proof (len_nonneg rest) as Hr.
  assert (len (subrecords_bytes subs ++ list_byte_of_string "XXXX"
               ++ esc_size ++ pack_I n ++ ty ++ sz ++ body ++ rest)%list
          = len (subrecords_bytes subs) + 10 + (6 + n) + len rest) as Hl.
  { rewrite !len_app, Hs, Ht, Hsz, Hb.
    change (len (list_byte_of_string "XXXX")) with 4.
    change (len (pack_I n)) with 4. lia. }
  apply (split_subrecords_from_loop (length subs + 3)); [|done|].
  - rewrite split_loop_escape_run by done.
    apply split_loop_end. unfold remaining. cbn [data pos].
    rewrite Hl. lia.
  - unfold len in *. lia.
Qed.

(** C10.  The splitter never looks at the size field of an escape entry
    ([XXXX]).  Wherever such an entry stands after a run of plain
    subrecords, and whatever its two size bytes are, the four bytes after
    them are the override, and the entry read next is the one that starts
    right after these four bytes, ten bytes after the start of the escape
    entry: it comes out with the override as its length.  The splitter
    raises [struct.error] when fewer than four bytes follow the size
    field.  In any state of the loop, whatever has been read before and
    whatever override is pending, an iteration that starts on an escape
    entry makes the four bytes after the size field the pending override
    and goes on ten bytes further, or raises.  So when the size field
    says 8 and the stream has the eight bytes it announces, the override
    and four more, before the next entry, the rest of the stream is read
    out of step: the four bytes are taken for a type, the first two bytes
    of the real type for a size field, and the payload starts four bytes
    early, with the last two bytes of the real type and the real size
    field. *)
Theorem escape_ignores_its_declared_size
    (subs : list (bytes * bytes)) (esc_size : bytes) :
  Forall plain_subrecord subs -> len esc_size = 2 ->
  (forall (n : Z) (ty sz body rest : bytes),
      0 <= n < 2 ^ 32 -> len ty = 4 -> decode_sig ty <> "XXXX" ->
      len sz = 2 -> len body = n -> len rest < 6 ->
      split_subrecords
        (subrecords_bytes subs ++ list_byte_of_string "XXXX" ++ esc_size
         ++ pack_I n ++ ty ++ sz ++ body ++ rest)%list
      = SplitDone
          (decoded_subrecords subs ++ [(decode_sig ty, body)])%list)
  /\ (forall tail : bytes,
        len tail < 4 ->
        split_subrecords
          (subrecords_bytes subs ++ list_byte_of_string "XXXX" ++ esc_size
           ++ tail)%list
        = SplitRaise StructError)
  /\ (forall (fuel : nat) (sr : BinaryReader.t) (x : option Z)
             (acc : list (string * bytes)) (pre tail : bytes),
        data sr
        = (pre ++ list_byte_of_string "XXXX" ++ esc_size ++ tail)%list ->
        pos sr = len pre ->
        (4 <= len tail ->
         split_loop (S fuel) sr x acc
         = split_loop fuel (advance sr 10)
             (Some (le_uint (firstn 4 tail))) acc)
        /\ (len tail < 4 ->
            split_loop (S fuel) sr x acc = SplitRaise StructError))
  /\ (le_uint esc_size = 8 ->
      forall (n : Z) (pad ty sz body rest : bytes),
        4 <= n < 2 ^ 32 -> len pad = 4 -> decode_sig pad <> "XXXX" ->
        len ty = 4 -> len sz = 2 -> len body = n -> len rest < 2 ->
        split_subrecords
          (subrecords_bytes subs ++ list_byte_of_string "XXXX" ++ esc_size
           ++ (pack_I n ++ pad) ++ ty ++ sz ++ body ++ rest)%list
        = SplitDone
            (decoded_subrecords subs
             ++ [(decode_sig pad,
                  skipn 2 ty ++ sz ++ firstn (Z.to_nat (n - 4)) body)])%list).
Proof.
  intros Hsubs Hs. split_and!.
  - intros n ty sz body rest Hn Ht Hne Hsz Hb Hrest.
    by apply split_subrecords_escape.
  - intros tail Htail.
    pose proof (len_subrecords_bytes subs Hsubs) as Hlen.
    pose proof (len_nonneg tail) as Ht0.
    set (rest := (list_byte_of_string "XXXX" ++ esc_size ++ tail)%list).
    assert (len rest = 6 + len tail) as Hrest.
    { subst rest. rewrite !len_app, Hs.
      change (len (list_byte_of_string "XXXX")) with 4. lia. }
    apply (split_subrecords_from_loop (length subs + 1)); [|done|].
    + rewrite split_loop_plain_run_0 by done.
      cbn [split_loop].
      unfold has_data, remaining. cbn [data pos]. rewrite len_app, Hrest.
      destruct (Z.ltb_spec (len (subrecords_bytes subs))
                  (len (subrecords_bytes subs) + (6 + len tail))); [|lia].
      destruct (Z.leb_spec 6 (len (subrecords_bytes subs) + (6 + len tail)
                              - len (subrecords_bytes subs))); [|lia].
      cbn [andb].
      by rewrite (split_step_escape_short _ _ _ (subrecords_bytes subs)
                    esc_size tail).
    + assert (len (subrecords_bytes subs ++ rest)%list
              = len (subrecords_bytes subs) + len rest) as H
        by apply len_app.
      unfold len in *. lia.
  - intros fuel sr x acc pre tail Hd Hp.
    pose proof (len_nonneg pre) as Hpre. pose proof (len_nonneg tail) as Ht0.
    assert (len (data sr) = len pre + 6 + len tail) as Hl.
    { rewrite Hd, !len_app, Hs.
      change (len (list_byte_of_string "XXXX")) with 4. lia. }
    split.
    + intros Ht. apply split_loop_step; [lia|unfold remaining; lia|].
      apply (split_step_escape _ _ _ pre esc_size (firstn 4 tail)
               (skipn 4 tail)); try done.
      * by rewrite take_drop.
      * unfold len in *. rewrite length_take. lia.
    + intros Ht. cbn [split_loop]. unfold has_data, remaining.
      destruct (Z.ltb_spec (pos sr) (len (data sr))); [|lia].
      destruct (Z.leb_spec 6 (len (data sr) - pos sr)); [|lia].
      cbn [andb].
      by rewrite (split_step_escape_short _ _ _ pre esc_size tail).
  - intros _ n pad ty sz body rest Hn Hpad Hne Ht Hsz Hb Hrest.
    pose proof (len_nonneg rest) as Hr.
    assert (length ty = 4%nat) as Ht' by (unfold len in Ht; lia).
    assert (length body = Z.to_nat n) as Hb' by (unfold len in Hb; lia).
    assert ((ty ++ sz ++ body ++ rest)%list
            = (firstn 2 ty
               ++ (skipn 2 ty ++ sz ++ firstn (Z.to_nat (n - 4)) body)
               ++ skipn (Z.to_nat (n - 4)) body ++ rest)%list) as Hsplit.
    { rewrite <- !app_assoc. rewrite (app_assoc (firstn 2 ty)), take_drop.
      do 2 f_equal. by rewrite app_assoc, take_drop. }
    rewrite <- (app_assoc (pack_I n) pad), Hsplit.
    apply (split_subrecords_escape subs esc_size pad (firstn 2 ty)
             (skipn 2 ty ++ sz ++ firstn (Z.to_nat (n - 4)) body)
             (skipn (Z.to_nat (n - 4)) body ++ rest)%list n);
      try done; try lia.
    + unfold len. rewrite length_take. lia.
    + unfold len in *. rewrite !length_app, length_drop, length_take. lia.
    + unfold len in *. rewrite length_app, length_drop. lia.
Qed.

Lemma escape_ignores_its_declared_size_witness :
  split_subrecords
    (subrecords_bytes sample_fields ++ list_byte_of_string "XXXX"
     ++ pack_H 8 ++ (pack_I 4 ++ list_byte_of_string "JUNK")
     ++ list_byte_of_string "DATA" ++ pack_H 4 ++ [x01; x02; x03; x04]
     ++ [])%list
  = SplitDone
      (decoded_subrecords sample_fields
       ++ [("JUNK", list_byte_of_string "TA" ++ pack_H 4)])%list.
Proof.
  destruct (escape_ignores_its_declared_size sample_fields (pack_H 8))
    as (_ & _ & _ & H).
  - repeat constructor; first [reflexivity | by vm_compute].
  - reflexivity.
  - apply (H eq_refl 4 (list_byte_of_string "JUNK")
             (list_byte_of_string "DATA") (pack_H 4) [x01; x02; x03; x04]
             []).
    + lia.
    + reflexivity.
    + by vm_compute.
    + reflexivity.
    + reflexivity.
    + reflexivity.
    + by vm_compute.
Defined.

(** ** Post-processing of the subrecords *)

Lemma parse_subrecord_long_count (rec : ESPRecord) (kc : Z) (d : bytes) :
  4 < len d -> parse_subrecord rec kc "KSIZ" d = inl StructError.
Proof.
  intros H. unfold parse_subrecord.
  cbn [String.eqb Ascii.eqb Bool.eqb andb].
  destruct (Z.leb_spec 4 (len d)); [|lia].
  unfold unpack_I. destruct (Z.eqb_spec (len d) 4); [lia|done].
Qed.

Lemma parse_subrecords_loop_long_count (subs : list (string * bytes)) :
  forall (rec : ESPRecord) (kc : Z),
    Exists (fun s => fst s = "KSIZ" /\ 4 < len (snd s)) subs ->
    parse_subrecords_loop subs rec kc = inl StructError.
Proof.
  induction subs as [|[ty d] subs IH]; intros rec kc Hex.
  - by apply Exists_nil in Hex.
  - cbn [parse_subrecords_loop].
    destruct (decide (ty = "KSIZ" /\ 4 < len d)) as [[-> Hlong]|Hshort].
    + by rewrite parse_subrecord_long_count.
    + destruct (parse_subrecord_keywords rec kc ty d)
        as (rec1 & kc1 & -> & _).
      { intros ->. destruct (Z.le_gt_cases (len d) 4); [done|].
        exfalso. apply Hshort. split; [done|lia]. }
      apply IH. apply Exists_cons in Hex as [Hhd|Htl]; [|done].
      by destruct Hshort.
Qed.

(** X4.  [parse_subrecords] raises exactly when some keyword-count
    subrecord ([KSIZ]) is longer than four bytes, and then it raises
    [struct.error]; every other subrecord list is post-processed to the
    end. *)
Theorem parse_subrecords_raises_on_long_count_only (rec : ESPRecord) :
  (parse_subrecords rec = inl StructError
   <-> exists d, In ("KSIZ", d) (subrecords rec) /\ 4 < len d)
  /\ (forall e, parse_subrecords rec = inl e -> e = StructError).
Proof.
  assert (Exists (fun s => fst s = "KSIZ" /\ 4 < len (snd s)) (subrecords rec)
          <-> exists d, In ("KSIZ", d) (subrecords rec) /\ 4 < len d) as Hex.
  { rewrite Exists_exists. split.
    - intros ([ty d] & Hin & Hty & Hlen). cbn [fst snd] in *. subst ty.
      exists d. split; [by apply list_elem_of_In|done].
    - intros (d & Hin & Hlen). exists ("KSIZ", d).
      split; [by apply list_elem_of_In|done]. }
  assert (~ Exists (fun s => fst s = "KSIZ" /\ 4 < len (snd s))
            (subrecords rec) ->
          exists rec', parse_subrecords rec = inr rec') as Hok.
  { intros Hno. unfold parse_subrecords.
    destruct (parse_subrecords_loop_keywords (subrecords rec) rec 0)
      as (rec' & -> & _); [|by eexists].
    intros d Hin. destruct (Z.le_gt_cases (len d) 4); [done|].
    exfalso. apply Hno, Hex. exists d. split; [done|lia]. }
  destruct (decide (Exists (fun s => fst s = "KSIZ" /\ 4 < len (snd s))
                      (subrecords rec))) as [Hyes|Hno].
  - pose proof (parse_subrecords_loop_long_count _ rec 0 Hyes) as Hraise.
    fold (parse_subrecords rec) in Hraise. rewrite Hraise. split.
    + split; [intros _; by apply Hex|done].
    + by intros e [= <-].
  - destruct (Hok Hno) as [rec' ->]. split; [|done].
    split; [done|]. intros H. by apply Hex in H.
Qed.

Lemma parse_subrecord_raw (rec rec1 : ESPRecord) (kc kc1 : Z)
    (sub_type : string) (sub_data : bytes) :
  parse_subrecord rec kc sub_type sub_data = inr (rec1, kc1) ->
  raw_data rec1 = store_raw (raw_data rec) sub_type sub_data
  /\ subrecords rec1 = subrecords rec.
Proof.
  unfold parse_subrecord.
  repeat match goal with
         | |- context [if ?c then _ else _] => destruct c
         | |- context [match unpack_I ?b with _ => _ end] =>
           destruct (unpack_I b)
         | |- context [match kwda_loop ?a ?b ?c with _ => _ end] =>
           destruct (kwda_loop a b c)
         end;
    try done; by intros [= <- <-].
Qed.

Lemma payloads_of_snoc (ty ty' : string) (d : bytes)
    (seen : list (string * bytes)) :
  payloads_of ty' (seen ++ [(ty, d)])%list
  = (payloads_of ty' seen ++ if decide (ty = ty') then [d] else [])%list.
Proof.
  unfold payloads_of. rewrite filter_app, map_app. f_equal.
  rewrite filter_cons. cbn [fst]. by destruct (decide (ty = ty')).
Qed.

Lemma store_raw_payloads (raw : gmap string raw_value)
    (seen : list (string * bytes)) (ty : string) (d : bytes) :
  (forall ty', raw !! ty' = raw_of (payloads_of ty' seen)) ->
  forall ty',
    store_raw raw ty d !! ty'
    = raw_of (payloads_of ty' (seen ++ [(ty, d)])%list).
Proof.
  intros Hraw ty'. rewrite payloads_of_snoc. unfold store_raw.
  pose proof (Hraw ty) as Hty. pose proof (Hraw ty') as Hty'.
  destruct (decide (ty = ty')) as [<-|Hne].
  - rewrite Hty. destruct (payloads_of ty seen) as [|a [|b l]]; cbn.
    + by rewrite lookup_insert_eq.
    + by rewrite lookup_insert_eq.
    + by rewrite lookup_insert_eq.
  - rewrite app_nil_r, <- Hty'.
    destruct (raw !! ty) as [[b|l]|]; by rewrite lookup_insert_ne.
Qed.

Lemma parse_subrecords_loop_raw (subs : list (string * bytes)) :
  forall (rec rec' : ESPRecord) (kc : Z) (seen : list (string * bytes)),
    parse_subrecords_loop subs rec kc = inr rec' ->
    (forall ty, raw_data rec !! ty = raw_of (payloads_of ty seen)) ->
    (forall ty,
        raw_data rec' !! ty = raw_of (payloads_of ty (seen ++ subs)%list))
    /\ subrecords rec' = subrecords rec.
Proof.
  induction subs as [|[ty d] subs IH]; intros rec rec' kc seen Hrun Hraw.
  - injection Hrun as <-. by rewrite app_nil_r.
  - cbn [parse_subrecords_loop] in Hrun.
    destruct (parse_subrecord rec kc ty d) as [e|[rec1 kc1]] eqn:E; [done|].
    apply parse_subrecord_raw in E as [Hraw1 Hsubs1].
    destruct (IH rec1 rec' kc1 (seen ++ [(ty, d)])%list Hrun) as [H1 H2].
    + rewrite Hraw1. by apply store_raw_payloads.
    + split; [|congruence].
      intros ty0. rewrite H1. by rewrite <- app_assoc.
Qed.

(** X5.  [raw_data] keeps every payload: after [parse_subrecords] on a
    record whose [raw_data] was empty, a type that no subrecord has is
    absent, a type that one subrecord has maps to its payload, and a type
    that several subrecords have maps to the list of all their payloads,
    in the order of the subrecords.  The subrecord list itself is left
    as it was. *)
Theorem raw_data_keeps_every_payload (rec rec' : ESPRecord) :
  raw_data rec = ∅ ->
  parse_subrecords rec = inr rec' ->
  (forall ty,
      raw_data rec' !! ty = raw_of (payloads_of ty (subrecords rec)))
  /\ subrecords rec' = subrecords rec.
Proof.
  intros Hempty Hrun.
  apply (parse_subrecords_loop_raw (subrecords rec) rec rec' 0 [] Hrun).
  intros ty. by rewrite Hempty, lookup_empty.
Qed.

(** ** The record decoder and the two indexes *)

Lemma stored_count_store (st : ESPParser) (sig : string) (fid : Z)
    (rec : ESPRecord) :
  stored_count (store_record st sig fid rec) = stored_count st + 1.
Proof.
  unfold stored_count. cbn [store_record records].
  assert (forall (m : gmap string (list ESPRecord)) (j1 j2 : string)
                 (z1 z2 : list ESPRecord) (y : Z),
             len z1 + (len z2 + y) = len z2 + (len z1 + y)) as Hcomm
    by (intros; lia).
  destruct (records st !! sig) as [l|] eqn:E; cbn [default].
  - rewrite <- insert_delete_eq.
    rewrite map_fold_insert_L
      by (first [by intros; apply (Hcomm ∅) | apply lookup_delete_eq]).
    rewrite (map_fold_delete_L _ _ sig l (records st))
      by (first [by intros; apply (Hcomm ∅) | done]).
    rewrite len_app. change (len [rec]) with 1. unfold id. lia.
  - rewrite map_fold_insert_L
      by (first [by intros; apply (Hcomm ∅) | done]).
    cbn [app]. change (len [rec]) with 1. lia.
Qed.

Lemma parse_subrecord_fields (rec rec1 : ESPRecord) (kc kc1 : Z)
    (sub_type : string) (sub_data : bytes) :
  parse_subrecord rec kc sub_type sub_data = inr (rec1, kc1) ->
  type rec1 = type rec /\ form_id rec1 = form_id rec
  /\ flags rec1 = flags rec /\ is_compressed rec1 = is_compressed rec.
Proof.
  unfold parse_subrecord.
  repeat match goal with
         | |- context [if ?c then _ else _] => destruct c
         | |- context [match unpack_I ?b with _ => _ end] =>
           destruct (unpack_I b)
         | |- context [match kwda_loop ?a ?b ?c with _ => _ end] =>
           destruct (kwda_loop a b c)
         end;
    try done; by intros [= <- <-].
Qed.

Lemma parse_subrecords_fields (rec rec' : ESPRecord) :
  parse_subrecords rec = inr rec' ->
  type rec' = type rec /\ form_id rec' = form_id rec
  /\ flags rec' = flags rec /\ is_compressed rec' = is_compressed rec.
Proof.
  unfold parse_subrecords. generalize 0 as kc. generalize (subrecords rec).
  intros subs. revert rec.
  induction subs as [|[ty d] subs IH]; intros rec kc Hrun.
  - by injection Hrun as <-.
  - cbn [parse_subrecords_loop] in Hrun.
    destruct (parse_subrecord rec kc ty d) as [e|[rec1 kc1]] eqn:E; [done|].
    apply parse_subrecord_fields in E as (H1 & H2 & H3 & H4).
    destruct (IH rec1 kc1 Hrun) as (H1' & H2' & H3' & H4').
    split_and!; congruence.
Qed.

(** What a parser looks like once a record has been stored in it. *)
Lemma store_record_indexes (st : ESPParser) (sig : string) (fid : Z)
    (rec : ESPRecord) :
  let st' := store_record st sig fid rec in
  records st' !! sig = Some (default [] (records st !! sig) ++ [rec])%list
  /\ (forall ty, ty <> sig -> records st' !! ty = records st !! ty)
  /\ records_by_formid st' !! fid = Some rec
  /\ (forall f, f <> fid ->
      records_by_formid st' !! f = records_by_formid st !! f)
  /\ stored_count st' = stored_count st + 1.
Proof.
  cbv zeta. split_and!.
  - cbn [store_record records]. by rewrite lookup_insert_eq.
  - intros ty Hne. cbn [store_record records]. by rewrite lookup_insert_ne.
  - cbn [store_record records_by_formid]. by rewrite lookup_insert_eq.
  - intros f Hne. cbn [store_record records_by_formid].
    by rewrite lookup_insert_ne.
  - apply stored_count_store.
Qed.

Section RecordIndexes.

Variable zlib : bytes -> Z -> option bytes.

(** The outcome of the tail of [_parse_record] when it returns. *)
Lemma finish_record_ok st r sig fid rec0 record_data v st' r' :
  finish_record st r sig fid rec0 record_data = Ok v st' r' ->
  exists rec,
    v = Some rec /\ st' = store_record st sig fid rec /\ r' = r
    /\ type rec = type rec0 /\ form_id rec = form_id rec0.
Proof.
  unfold finish_record.
  destruct (split_subrecords record_data) as [subs|e|]; [|done..].
  destruct (parse_subrecords _) as [e|rec] eqn:E; [done|].
  intros [= <- <- <-]. exists rec.
  apply parse_subrecords_fields in E as (H1 & H2 & _).
  split_and!; done.
Qed.

Lemma print_indexes st m :
  records (print st m) = records st
  /\ records_by_formid (print st m) = records_by_formid st.
Proof. unfold print. by destruct (verbose st). Qed.

Lemma record_payload_indexes st r sig data_size flags fid ts vi v st' r' :
  record_payload zlib st r sig data_size flags fid ts vi = Ok v st' r' ->
  match v with
  | None =>
    records st' = records st
    /\ records_by_formid st' = records_by_formid st
  | Some rec =>
    type rec = sig /\ form_id rec = fid
    /\ ((records st' = records st
         /\ records_by_formid st' = records_by_formid st
         /\ subrecords rec = [] /\ is_compressed rec = true)
        \/ (records st' !! sig
            = Some (default [] (records st !! sig) ++ [rec])%list
            /\ (forall ty, ty <> sig -> records st' !! ty = records st !! ty)
            /\ records_by_formid st' !! fid = Some rec
            /\ (forall f, f <> fid ->
                records_by_formid st' !! f = records_by_formid st !! f)
            /\ stored_count st' = stored_count st + 1))
  end.
Proof.
  assert (forall st0 r0 record_data,
            records st0 = records st ->
            records_by_formid st0 = records_by_formid st ->
            stored_count st0 = stored_count st ->
            finish_record st0 r0 sig fid
              (new_record sig data_size flags fid ts vi) record_data
            = Ok v st' r' ->
            match v with
            | None => False
            | Some rec =>
              type rec = sig /\ form_id rec = fid
              /\ records st' !! sig
                 = Some (default [] (records st !! sig) ++ [rec])%list
              /\ (forall ty, ty <> sig ->
                  records st' !! ty = records st !! ty)
              /\ records_by_formid st' !! fid = Some rec
              /\ (forall f, f <> fid ->
                  records_by_formid st' !! f = records_by_formid st !! f)
              /\ stored_count st' = stored_count st + 1
            end) as Hfin.
  { intros st0 r0 record_data H1 H2 H3 Hrun.
    apply finish_record_ok in Hrun as (rec & -> & -> & _ & Hty & Hfid).
    destruct (store_record_indexes st0 sig fid rec) as (Ha & Hb & Hc & Hd & He).
    rewrite H1 in Ha. rewrite H3 in He.
    split_and!; try done.
    - intros ty Hne. by rewrite Hb, H1.
    - intros f Hne. by rewrite Hd, H2. }
  unfold record_payload.
  destruct (remaining r <? data_size).
  { by intros [= <- <- <-]. }
  cbn [read].
  destruct (is_compressed _ && _) eqn:C.
  - destruct (unpack_I _); [done|].
    destruct (zlib _ _).
    + intros Hrun. apply Hfin in Hrun; try done.
      destruct v as [rec|]; [|done]. destruct Hrun as (H1 & H2 & H3).
      split_and!; try done. by right.
    + intros [= <- <- <-]. split_and!; try done. left.
      destruct (print_indexes (count_compressed (count_record st sig))
                  (MsgDecompressWarning sig fid)) as [-> ->].
      apply andb_true_iff in C as [C _]. done.
  - intros Hrun. apply Hfin in Hrun; try done.
    destruct v as [rec|]; [|done]. destruct Hrun as (H1 & H2 & H3).
    split_and!; try done. by right.
Qed.

End RecordIndexes.

(** X6.  Whenever the record decoder returns, the two indexes have either
    been left as they were (no record returned, or a record whose
    decompression failed), or the returned record has been added: it is
    the last element of the list of its type, the earlier elements of
    that list and all other types are untouched, its identity maps to it
    (taking the place of any earlier record with that identity) and all
    other identities are untouched, and the by-type index holds one
    record more. *)
Theorem record_decoder_index_discipline
    (zlib : bytes -> Z -> option bytes) (st st' : ESPParser)
    (r r' : BinaryReader.t) (v : option ESPRecord) :
  0 <= pos r ->
  _parse_record zlib st r = Ok v st' r' ->
  match v with
  | None =>
    records st' = records st
    /\ records_by_formid st' = records_by_formid st
  | Some rec =>
    type rec = sig_at (data r) (pos r)
    /\ form_id rec = u32_at (data r) (pos r + 12)
    /\ ((records st' = records st
         /\ records_by_formid st' = records_by_formid st
         /\ subrecords rec = [] /\ is_compressed rec = true)
        \/ (records st' !! type rec
            = Some (default [] (records st !! type rec) ++ [rec])%list
            /\ (forall ty, ty <> type rec ->
                records st' !! ty = records st !! ty)
            /\ records_by_formid st' !! form_id rec = Some rec
            /\ (forall f, f <> form_id rec ->
                records_by_formid st' !! f = records_by_formid st !! f)
            /\ stored_count st' = stored_count st + 1))
  end.
Proof.
  intros Hp Hrun.
  destruct (Z.lt_ge_cases (remaining r) 24) as [Hshort|Hlong].
  - rewrite parse_record_short in Hrun by done. by injection Hrun as <- <- <-.
  - rewrite parse_record_envelope in Hrun by done.
    apply record_payload_indexes in Hrun.
    destruct v as [rec|]; [|done].
    destruct Hrun as (Hty & Hfid & Hcases). rewrite Hty, Hfid. done.
Qed.

(** ** Termination of the walker *)

Section WalkerTermination.

Variable zlib : bytes -> Z -> option bytes.

Lemma read_int32_inr (r r' : BinaryReader.t) (v : Z) :
  read_int32 r = inr (v, r') -> r' = advance r 4.
Proof.
  unfold read_int32.
  destruct (read_fixed 4 r) as [e|[w r1]] eqn:E; [done|].
  intros [= _ <-]. by apply read_fixed_inr in E.
Qed.

(** The record decoder always ends, and an entry of four bytes or more
    moves the cursor. *)
Lemma parse_record_advances (st : ESPParser) (r : BinaryReader.t) :
  0 <= pos r -> 4 <= remaining r ->
  advances_by 1 r (_parse_record zlib st r).
Proof.
  intros Hp Hr.
  destruct (Z.lt_ge_cases (remaining r) 24) as [Hshort|Hlong].
  - rewrite parse_record_short by done. cbn [advances_by data pos].
    unfold remaining in *. split; [done|lia].
  - pose proof (parse_record_reader zlib st r Hp Hlong) as Hrd.
    pose proof (u32_at_nonneg (data r) (pos r + 4)).
    unfold remaining in *.
    destruct (_parse_record zlib st r) as [v st1 r1|e st1 r1|];
      cbn [final_reader advances_by] in *; [|done..].
    injection Hrd as ->.
    destruct (_ <? _); cbn [data pos advance]; split; try done; lia.
Qed.

(** Without an interest set, [_parse_group] raises or hands the rest of
    the buffer, 24 bytes further, to its loop. *)
Lemma parse_group_unfiltered (fuel : nat) (st : ESPParser)
    (r : BinaryReader.t) :
  (exists e st' r', _parse_group zlib (S fuel) None st r = Raise e st' r')
  \/ (exists end_pos st',
         _parse_group zlib (S fuel) None st r
         = group_content zlib fuel None end_pos st' (advance r 24)).
Proof.
  cbn [_parse_group]. rewrite read_sig_eq.
  destruct (negb _); [left; by eexists _, _, _|].
  unfold on_read.
  destruct (read_uint32 (advance r 4)) as [e|[group_size r1]] eqn:E1;
    [left; by eexists _, _, _|].
  apply read_fixed_inr in E1 as ->. cbn [read].
  destruct (read_int32 _) as [e|[group_type r2]] eqn:E2;
    [left; by eexists _, _, _|].
  apply read_int32_inr in E2 as ->.
  destruct (read_uint32 _) as [e|[ts r3]] eqn:E3;
    [left; by eexists _, _, _|].
  apply read_fixed_inr in E3 as ->.
  destruct (read_uint32 _) as [e|[vi r4]] eqn:E4;
    [left; by eexists _, _, _|].
  apply read_fixed_inr in E4 as ->.
  rewrite !advance_advance. change (4 + 4 + 4 + 4 + 4 + 4) with 24.
  right. cbn [filtered_out].
  destruct (group_type =? 0); by eexists _, _.
Qed.

Lemma advances_by_and_then {A B} (d1 d2 : Z) (r : BinaryReader.t)
    (c : result A) (k : A -> ESPParser -> BinaryReader.t -> result B) :
  advances_by d1 r c ->
  (forall a st r', data r' = data r -> pos r + d1 <= pos r' ->
                   advances_by d2 r' (k a st r')) ->
  advances_by (d1 + d2) r (and_then c k).
Proof.
  intros Hc Hk. destruct c as [a st1 r1|e st1 r1|]; cbn [and_then]; try done.
  destruct Hc as [Hd Hp]. specialize (Hk a st1 r1 Hd Hp).
  destruct (k a st1 r1) as [b st2 r2|e st2 r2|]; cbn [advances_by] in *;
    try done.
  destruct Hk as [Hd' Hp']. split; [congruence|lia].
Qed.

Lemma advances_by_weaken {A} (d d' : Z) (r : BinaryReader.t)
    (res : result A) :
  d' <= d -> advances_by d r res -> advances_by d' r res.
Proof.
  intros Hd. destruct res as [a st1 r1|e st1 r1|]; cbn; try done.
  intros [H1 H2]. split; [done|lia].
Qed.

(** A container ends when its loop does on what follows the envelope. *)
Lemma parse_group_terminates_from (k : nat) :
  (forall (r : BinaryReader.t) (st : ESPParser) (fuel : nat) (end_pos : Z),
      0 <= pos r -> remaining r <= Z.of_nat k -> (2 * k + 1 <= fuel)%nat ->
      advances_by 0 r (group_content zlib fuel None end_pos st r)) ->
  forall (r : BinaryReader.t) (st : ESPParser) (fuel : nat),
    0 <= pos r -> remaining r <= Z.of_nat k + 24 -> (2 * k + 2 <= fuel)%nat ->
    advances_by 24 r (_parse_group zlib fuel None st r).
Proof.
  intros Hcontent r st fuel Hp Hr Hf.
  destruct fuel as [|fuel]; [lia|].
  destruct (parse_group_unfiltered fuel st r)
    as [(e & st1 & r1 & ->)|(end1 & st1 & ->)]; [done|].
  pose proof (Hcontent (advance r 24) st1 fuel end1) as Hin.
  rewrite remaining_advance in Hin. cbn [advance pos] in Hin.
  specialize (Hin ltac:(lia) ltac:(lia) ltac:(lia)).
  destruct (group_content zlib fuel None end1 st1 (advance r 24))
    as [a st2 r2|e st2 r2|]; cbn [advances_by advance data pos] in *;
    try done.
  destruct Hin as [Hd Hp2]. split; [done|lia].
Qed.

(** The loop of a container ends when it has fuel for twice the bytes
    left. *)
Lemma group_content_terminates (k : nat) :
  forall (r : BinaryReader.t) (st : ESPParser) (fuel : nat) (end_pos : Z),
    0 <= pos r -> remaining r <= Z.of_nat k -> (2 * k + 1 <= fuel)%nat ->
    advances_by 0 r (group_content zlib fuel None end_pos st r).
Proof.
  induction k as [|k IH]; intros r st fuel end_pos Hp Hr Hf.
  - destruct fuel as [|fuel]; [lia|]. rewrite group_content_unfold.
    destruct (pos r <? end_pos); [|cbn; split; [done|lia]].
    destruct (Z.ltb_spec (remaining r) 4); [|lia].
    cbn. split; [done|lia].
  - destruct fuel as [|fuel]; [lia|]. rewrite group_content_unfold.
    destruct (pos r <? end_pos); [|cbn; split; [done|lia]].
    destruct (Z.ltb_spec (remaining r) 4); [cbn; split; [done|lia]|].
    assert (forall st1 r1,
               data r1 = data r -> pos r + 1 <= pos r1 ->
               advances_by 0 r1 (group_content zlib fuel None end_pos st1 r1))
      as Hnext.
    { intros st1 r1 Hd Hp1. apply IH; [lia| |lia].
      unfold remaining in *. rewrite Hd. lia. }
    destruct (sig_is (peek_sig r) "GRUP").
    + apply (advances_by_weaken (24 + 0)); [lia|].
      apply (advances_by_and_then 24 0 r
               (_parse_group zlib fuel None st r)
               (fun _ => group_content zlib fuel None end_pos)).
      * apply (parse_group_terminates_from k IH); [done|lia|lia].
      * intros a st1 r1 Hd Hp1. apply Hnext; [done|lia].
    + apply (advances_by_weaken (1 + 0)); [lia|].
      apply (advances_by_and_then 1 0 r (_parse_record zlib st r)
               (fun _ => group_content zlib fuel None end_pos)).
      * by apply parse_record_advances.
      * intros a st1 r1 Hd Hp1. by apply Hnext.
Qed.

Lemma parse_groups_terminates (k : nat) :
  forall (r : BinaryReader.t) (st : ESPParser) (fuel : nat),
    0 <= pos r -> remaining r <= Z.of_nat k -> (2 * k + 1 <= fuel)%nat ->
    advances_by 0 r (parse_groups zlib fuel None st r).
Proof.
  induction k as [|k IH]; intros r st fuel Hp Hr Hf.
  - destruct fuel as [|fuel]; [lia|]. rewrite parse_groups_unfold.
    destruct (Z.leb_spec 4 (remaining r)); [lia|].
    rewrite andb_false_r. cbn. split; [done|lia].
  - destruct fuel as [|fuel]; [lia|]. rewrite parse_groups_unfold.
    destruct (Z.leb_spec 4 (remaining r));
      [|rewrite andb_false_r; cbn; split; [done|lia]].
    destruct (has_data r); [|cbn; split; [done|lia]]. cbn [andb].
    assert (forall st1 r1,
               data r1 = data r -> pos r + 1 <= pos r1 ->
               advances_by 0 r1 (parse_groups zlib fuel None st1 r1))
      as Hnext.
    { intros st1 r1 Hd Hp1. apply IH; [lia| |lia].
      unfold remaining in *. rewrite Hd. lia. }
    destruct (sig_is (peek_sig r) "GRUP").
    + apply (advances_by_weaken (24 + 0)); [lia|].
      apply (advances_by_and_then 24 0 r
               (_parse_group zlib fuel None st r)
               (fun _ => parse_groups zlib fuel None)).
      * apply (parse_group_terminates_from k); [|done|lia|lia].
        intros. by apply (group_content_terminates k).
      * intros a st1 r1 Hd Hp1. apply Hnext; [done|lia].
    + apply (advances_by_weaken (1 + 0)); [lia|].
      apply (advances_by_and_then 1 0 r (_parse_record zlib st r)
               (fun _ => parse_groups zlib fuel None)).
      * by apply parse_record_advances.
      * intros a st1 r1 Hd Hp1. by apply Hnext.
Qed.

End WalkerTermination.

(** X7.  Without an interest set the decode loop ends on every buffer,
    whatever it holds: from any cursor position, fuel for twice the
    length of the buffer (plus one) is enough for it to return or raise;
    when it returns the buffer is the same and the cursor has not moved
    back. *)
Theorem unfiltered_decode_terminates
    (zlib : bytes -> Z -> option bytes) (b : bytes) (p : Z)
    (st : ESPParser) (fuel : nat) :
  0 <= p -> (2 * length b + 1 <= fuel)%nat ->
  advances_by 0 (BinaryReader.mk b p)
    (parse_groups zlib fuel None st (BinaryReader.mk b p)).
Proof.
  intros Hp Hf. apply (parse_groups_terminates zlib (length b)); try done.
  unfold remaining, len. cbn [data pos]. lia.
Qed.

(** X8.  The interest set can make the decode loop run for ever: at a
    container envelope of type 0 that declares the total size zero and
    whose label is filtered out, skipping sends the cursor back to the
    start of that envelope, and the loop never ends, whatever the fuel. *)
Theorem skipped_zero_sized_container_never_ends
    (zlib : bytes -> Z -> option bytes)
    (filter_types : option (gset string)) (r : BinaryReader.t)
    (st : ESPParser) (fuel : nat) :
  0 <= pos r -> 24 <= remaining r -> peek_sig r = Some "GRUP" ->
  u32_at (data r) (pos r + 4) = 0 ->
  u32_at (data r) (pos r + 12) = 0 ->
  filtered_out filter_types (sig_at (data r) (pos r + 8)) = true ->
  parse_groups zlib fuel filter_types st r = OutOfFuel.
Proof.
  intros Hp Hr Hpeek Hsize Hty Hout. revert st.
  apply peek_sig_some in Hpeek as Hsig. destruct Hsig as [Hsig _].
  induction fuel as [|fuel IH]; intros st; [done|].
  rewrite parse_groups_unfold. unfold has_data.
  destruct (Z.ltb_spec (pos r) (len (data r)));
    [|unfold remaining in *; lia].
  destruct (Z.leb_spec 4 (remaining r)); [|lia].
  cbn [andb]. rewrite Hpeek. cbn [sig_is String.eqb Ascii.eqb Bool.eqb andb].
  destruct fuel as [|fuel]; [done|].
  rewrite parse_group_envelope by done. cbv zeta.
  rewrite Hty, Hout, Hsize. cbn [Z.eqb to_int32 Z.leb Z.compare and_then].
  replace (BinaryReader.mk (data r) (pos r + 24 + (0 - 24))) with r
    by (destruct r; cbn [data pos]; f_equal; lia).
  apply IH.
Qed.
(** ** The derived properties of a record *)

Lemma string_append_assoc (a b c : string) :
  String.append (String.append a b) c = String.append a (String.append b c).
Proof.
  induction a as [|x a IH]; [done|].
  cbv [String.append]. fold String.append. by f_equal.
Qed.

Lemma string_append_empty (a : string) : String.append a "" = a.
Proof.
  induction a as [|x a IH]; [done|].
  cbv [String.append]. fold String.append. by f_equal.
Qed.

(** The digits of [hex_fixed]: the high ones, then the low ones. *)
Lemma hex_fixed_split (a b : nat) (n : Z) :
  hex_fixed (b + a) n
  = String.append (hex_fixed a (n / 16 ^ Z.of_nat b)) (hex_fixed b n).
Proof.
  revert n. induction b as [|b IH]; intros n.
  - cbn [Nat.add hex_fixed]. change (16 ^ Z.of_nat 0) with 1.
    by rewrite Z.div_1_r, string_append_empty.
  - cbn [Nat.add hex_fixed]. rewrite IH, string_append_assoc.
    rewrite Z.div_div by lia.
    replace (16 * 16 ^ Z.of_nat b) with (16 ^ Z.of_nat (S b)); [done|].
    rewrite Nat2Z.inj_succ, Z.pow_succ_r by lia. done.
Qed.

Lemma hex_fixed_mod (w : nat) (n : Z) :
  hex_fixed w (n mod 16 ^ Z.of_nat w) = hex_fixed w n.
Proof.
  revert n. induction w as [|w IH]; intros n; [done|].
  cbn [hex_fixed].
  assert (0 < 16 ^ Z.of_nat w) as Hpos by (apply Z.pow_pos_nonneg; lia).
  replace (16 ^ Z.of_nat (S w)) with (16 * 16 ^ Z.of_nat w)
    by (rewrite Nat2Z.inj_succ, Z.pow_succ_r by lia; done).
  rewrite Z.rem_mul_r by lia.
  replace ((n mod 16 + 16 * ((n / 16) mod 16 ^ Z.of_nat w)) / 16)
    with ((n / 16) mod 16 ^ Z.of_nat w).
  2:{ rewrite Z.add_comm, Z.mul_comm, Z.div_add_l by lia.
      rewrite (Z.div_small (n mod 16)) by (apply Z.mod_pos_bound; lia). lia. }
  rewrite IH. do 2 f_equal.
  replace (n mod 16 + 16 * ((n / 16) mod 16 ^ Z.of_nat w))
    with (n mod 16 + (n / 16) mod 16 ^ Z.of_nat w * 16) by lia.
  rewrite Z.mod_add by lia. by rewrite Z.mod_mod by lia.
Qed.

(** X9.  The derived properties of a record split its 32-bit identity:
    [master_index] is the high byte and [local_id] the low 24 bits, the
    identity is put back together from the two, [form_id_hex] is exactly
    eight upper-case hexadecimal digits that read back to the identity,
    and these digits are the two digits of the master index followed by
    the six digits that [resolve_formid] returns as the local part. *)
Theorem record_identity_splits (st : ESPParser) (rec : ESPRecord) :
  0 <= form_id rec < 2 ^ 32 ->
  0 <= master_index rec < 256
  /\ 0 <= local_id rec < 2 ^ 24
  /\ form_id rec = master_index rec * 2 ^ 24 + local_id rec
  /\ String.length (form_id_hex rec) = 8%nat
  /\ hex_value (form_id_hex rec) = Some (form_id rec)
  /\ form_id_hex rec
     = String.append (format_X 2 (master_index rec))
         (snd (resolve_formid st (form_id rec))).
Proof.
  intros Hf. unfold master_index, local_id, form_id_hex.
  set (f := form_id rec) in *.
  assert (Z.land (Z.shiftr f 24) 255 = f / 2 ^ 24) as Hm.
  { change 255 with (Z.ones 8). rewrite Z.land_ones by lia.
    rewrite Z.shiftr_div_pow2 by lia. apply Z.mod_small.
    split; [apply Z.div_pos; lia|].
    apply Z.div_lt_upper_bound; lia. }
  assert (Z.land f 16777215 = f mod 2 ^ 24) as Hl.
  { change 16777215 with (Z.ones 24). by rewrite Z.land_ones by lia. }
  assert (snd (resolve_formid st f) = format_X 6 (f mod 2 ^ 24)) as Hres.
  { unfold resolve_formid. rewrite Hl.
    destruct (_ <? _); [reflexivity|]. by destruct (_ =? _). }
  rewrite Hm, Hl, Hres.
  assert (0 <= f / 2 ^ 24 < 256) as Hm_range.
  { split; [apply Z.div_pos; lia|]. apply Z.div_lt_upper_bound; lia. }
  assert (0 <= f mod 2 ^ 24 < 2 ^ 24) as Hl_range
    by (apply Z.mod_pos_bound; lia).
  rewrite (format_X_small 8)
    by (change (16 ^ Z.of_nat 8) with (2 ^ 32); lia).
  rewrite (format_X_small 2)
    by (change (16 ^ Z.of_nat 2) with 256; lia).
  rewrite (format_X_small 6)
    by (change (16 ^ Z.of_nat 6) with (2 ^ 24); lia).
  split_and!; try lia.
  - pose proof (Z.div_mod f (2 ^ 24)). lia.
  - apply hex_fixed_length.
  - unfold hex_value. rewrite hex_fixed_value by lia.
    change (16 ^ Z.of_nat 8) with (2 ^ 32).
    rewrite Z.mod_small by lia. f_equal; lia.
  - change 8%nat with (6 + 2)%nat. rewrite hex_fixed_split.
    change (16 ^ Z.of_nat 6) with (2 ^ 24).
    f_equal. symmetry. apply (hex_fixed_mod 6).
Qed.
(** ** The override analysis *)

Lemma default_bucket {A} (l : list A) : default [] (bucket l) = l.
Proof. by destruct l. Qed.

Lemma bucket_snoc {A} (l : list A) (x : A) :
  bucket (l ++ [x])%list = Some (l ++ [x])%list.
Proof. by destruct l. Qed.

Lemma append_to_bucket {A} (d : gmap string (list A)) (l : list A)
    (key : string) (x : A) :
  d !! key = bucket l ->
  append_to d key x !! key = bucket (l ++ [x])%list
  /\ (forall k, k <> key -> append_to d key x !! k = d !! k).
Proof.
  intros Hd. unfold append_to. split.
  - by rewrite lookup_insert_eq, Hd, default_bucket, bucket_snoc.
  - intros k Hk. by rewrite lookup_insert_ne.
Qed.

Section Overrides.

Variable st : ESPParser.

Lemma analyze_record_partitioned seen acc rec :
  partitioned st seen acc ->
  partitioned st (seen ++ [rec])%list (analyze_record st acc rec).
Proof.
  destruct acc as [overrides new_records]. intros [Ho Hn].
  unfold partitioned, analyze_record.
  change (master_index rec <? len (masters st)) with (is_override st rec).
  change (default "" (masters st !! Z.to_nat (master_index rec)))
    with (master_of st rec).
  cbn [fst snd] in *.
  destruct (is_override st rec) eqn:E; cbn [fst snd]; split.
  - intros m. rewrite List.filter_app, map_app. cbn [List.filter].
    rewrite E. cbn [andb].
    destruct (append_to_bucket overrides _ (master_of st rec)
                (override_of st rec) (Ho (master_of st rec))) as [Heq Hne].
    destruct (String.eqb_spec (master_of st rec) m) as [<-|Hm].
    + exact Heq.
    + rewrite Hne by done. cbn [map]. by rewrite app_nil_r.
  - intros ty. rewrite List.filter_app, map_app. cbn [List.filter].
    rewrite E. cbn [negb andb map]. by rewrite app_nil_r.
  - intros m. rewrite List.filter_app, map_app. cbn [List.filter].
    rewrite E. cbn [andb map]. by rewrite app_nil_r.
  - intros ty. rewrite List.filter_app, map_app. cbn [List.filter].
    rewrite E. cbn [negb andb].
    destruct (append_to_bucket new_records _ (type rec)
                (new_of st rec) (Hn (type rec))) as [Heq Hne].
    destruct (String.eqb_spec (type rec) ty) as [<-|Hty].
    + exact Heq.
    + rewrite Hne by done. cbn [map]. by rewrite app_nil_r.
Qed.

Lemma analyze_records_partitioned recs seen acc :
  partitioned st seen acc ->
  partitioned st (seen ++ recs)%list (fold_left (analyze_record st) recs acc).
Proof.
  revert seen acc. induction recs as [|rec recs IH]; intros seen acc H.
  - by rewrite app_nil_r.
  - cbn [fold_left].
    replace (seen ++ rec :: recs)%list with ((seen ++ [rec]) ++ recs)%list
      by (by rewrite <- app_assoc).
    apply IH. by apply analyze_record_partitioned.
Qed.

Lemma analyze_items_partitioned items seen acc :
  partitioned st seen acc ->
  partitioned st (seen ++ visited items)%list
    (fold_left (fun acc item => fold_left (analyze_record st) (snd item) acc)
       items acc).
Proof.
  revert seen acc. induction items as [|item items IH]; intros seen acc H.
  - unfold visited. cbn. by rewrite app_nil_r.
  - cbn [fold_left]. unfold visited. cbn [map concat].
    rewrite app_assoc. apply IH. by apply analyze_records_partitioned.
Qed.

End Overrides.

(** X11.  [analyze_overrides] sorts every visited record into exactly one
    list and loses none: the entry list of a master name holds the
    entries of the records whose master index is below the number of
    masters and selects that name, the entry list of a record type holds
    the entries of the records of that type whose master index is not
    below the number of masters, both in the order of the visit; a key
    with no such record is absent, and every key of the override
    dictionary is one of the masters. *)
Theorem overrides_partition_the_records (st : ESPParser)
    (items : list (string * list ESPRecord)) :
  (forall m,
      fst (analyze_overrides st items) !! m
      = bucket (map (override_of st)
                  (List.filter (fun rec => is_override st rec
                                           && String.eqb (master_of st rec) m)
                     (visited items))))
  /\ (forall ty,
         snd (analyze_overrides st items) !! ty
         = bucket (map (new_of st)
                     (List.filter (fun rec => negb (is_override st rec)
                                              && String.eqb (type rec) ty)
                        (visited items))))
  /\ (forall m, is_Some (fst (analyze_overrides st items) !! m) ->
                In m (masters st)).
Proof.
  destruct (analyze_items_partitioned st items [] (∅, ∅)) as [Ho Hn].
  { split; intros k; cbn; by rewrite lookup_empty. }
  cbn [app] in Ho, Hn. fold (analyze_overrides st items) in Ho, Hn.
  split_and!; [exact Ho|exact Hn|].
  intros m [l Hl]. rewrite Ho in Hl.
  destruct (List.filter _ _) as [|rec recs] eqn:E; [done|].
  assert (In rec (List.filter
                    (fun rec => is_override st rec
                                && String.eqb (master_of st rec) m)
                    (visited items))) as Hin by (rewrite E; by left).
  apply List.filter_In in Hin as [_ Hrec].
  apply andb_true_iff in Hrec as [Hlt Hm].
  apply String.eqb_eq in Hm. unfold is_override in Hlt.
  apply Z.ltb_lt in Hlt. unfold master_of in Hm.
  pose proof (Z.land_nonneg (Z.shiftr (form_id rec) 24) 255) as Hnn.
  assert (0 <= master_index rec) as H0
    by (unfold master_index; apply Z.land_nonneg; lia).
  destruct (masters st !! Z.to_nat (master_index rec)) as [x|] eqn:Ex.
  - simpl in Hm. subst m.
    apply list_elem_of_In. by eapply list_elem_of_lookup_2.
  - apply lookup_ge_None in Ex. unfold len in Hlt. lia.
Qed.
(** ** The field decoders of the analyses *)

Lemma len_slice_inside {A} (b : list A) (lo hi : Z) :
  0 <= lo -> lo <= hi -> hi <= len b -> len (slice b lo hi) = hi - lo.
Proof.
  intros Hlo Hhi Hlen. replace hi with (lo + (hi - lo)) at 1 by lia.
  rewrite len_slice by lia. lia.
Qed.

(** One guarded assignment: it cannot raise when the slice lies within
    the guarded length and has the width of the format. *)
Lemma field_spec (need lo hi : Z) (unpack : bytes -> exn + Z)
    (make : Z -> field_value) (key : string) (data : bytes)
    (d : gmap string field_value) :
  0 <= lo -> lo <= hi -> hi <= need ->
  (forall b, len b = hi - lo -> exists v, unpack b = inr v) ->
  exists d',
    field need lo hi unpack make key data (inr d) = inr d'
    /\ forall k, is_Some (d' !! k)
                 <-> (k = key /\ need <= len data) \/ is_Some (d !! k).
Proof.
  intros Hlo Hhi Hneed Hunpack. unfold field.
  destruct (Z.leb_spec need (len data)) as [Hlen|Hlen].
  - destruct (Hunpack (slice data lo hi)) as [v ->];
      [apply len_slice_inside; lia|].
    eexists. split; [done|]. intros k.
    rewrite lookup_insert_is_Some. split.
    + intros [<-|[_ H]]; [by left|by right].
    + intros [[-> _]|H]; [by left|].
      destruct (decide (key = k)); [by left|by right].
  - exists d. split; [done|]. intros k. split; [by right|].
    intros [[_ H]|H]; [lia|done].
Qed.

Lemma unpack_I_4 (b : bytes) : len b = 4 -> exists v, unpack_I b = inr v.
Proof. intros H. unfold unpack_I. rewrite H. by eexists. Qed.

Lemma unpack_H_2 (b : bytes) : len b = 2 -> exists v, unpack_H b = inr v.
Proof. intros H. unfold unpack_H. rewrite H. by eexists. Qed.

Ltac field_step H :=
  match goal with
  | |- context [field ?need ?lo ?hi ?unpack ?make ?key ?data (inr ?d)] =>
    let d' := fresh "d" in
    let E := fresh "E" in
    destruct (field_spec need lo hi unpack make key data d)
      as (d' & E & H);
    [lia | lia | lia
     | first [exact unpack_I_4 | exact unpack_H_2]
     | rewrite E; clear E]
  end.

Ltac in_layout := repeat first [by left | right].

(** X12.  The three field decoders never raise, whatever the payload:
    each returns a dictionary, and a key is in it exactly when the payload
    is at least as long as the guard of that key asks for (sixteen bytes
    for the two-byte weapon flags at offset 12, for instance). *)
Theorem field_decoders_never_raise (data : bytes) :
  (exists d,
      parse_weap_dnam data = inr d
      /\ forall key,
        is_Some (d !! key)
        <-> present [("animation_type", 4); ("speed", 8); ("reach", 12);
                     ("flags", 16); ("sight_fov", 28);
                     ("vats_hit_chance", 36); ("min_range", 48);
                     ("max_range", 52); ("stagger", 60)] data key)
  /\ (exists d,
         parse_weap_data data = inr d
         /\ forall key,
           is_Some (d !! key)
           <-> present [("value", 4); ("weight", 8)] data key)
  /\ (exists d,
         parse_ammo_data data = inr d
         /\ forall key,
           is_Some (d !! key)
           <-> present [("projectile", 4); ("flags", 8); ("damage", 12);
                        ("value", 16); ("weight", 20)] data key).
Proof.
  split_and!.
  - unfold parse_weap_dnam.
    field_step H1. field_step H2. field_step H3. field_step H4.
    field_step H5. field_step H6. field_step H7. field_step H8.
    field_step H9.
    eexists. split; [done|]. intros key.
    rewrite H9, H8, H7, H6, H5, H4, H3, H2, H1, lookup_empty.
    unfold present. cbn [In]. split.
    + intros H. destruct_or!; try (by destruct H as [? ?]);
        (destruct H as [-> H]; eexists; (split; [|exact H]); in_layout).
    + intros (need & H & Hlen). destruct_or!; try done;
        (injection H as <- <-; in_layout).
  - unfold parse_weap_data. field_step H1. field_step H2.
    eexists. split; [done|]. intros key.
    rewrite H2, H1, lookup_empty.
    unfold present. cbn [In]. split.
    + intros H. destruct_or!; try (by destruct H as [? ?]);
        (destruct H as [-> H]; eexists; (split; [|exact H]); in_layout).
    + intros (need & H & Hlen). destruct_or!; try done;
        (injection H as <- <-; in_layout).
  - unfold parse_ammo_data.
    field_step H1. field_step H2. field_step H3. field_step H4.
    field_step H5.
    eexists. split; [done|]. intros key.
    rewrite H5, H4, H3, H2, H1, lookup_empty.
    unfold present. cbn [In]. split.
    + intros H. destruct_or!; try (by destruct H as [? ?]);
        (destruct H as [-> H]; eexists; (split; [|exact H]); in_layout).
    + intros (need & H & Hlen). destruct_or!; try done;
        (injection H as <- <-; in_layout).
Qed.
(** ** Invariants of the decoder *)

Section RecordEffect.

Variable zlib : bytes -> Z -> option bytes.

Lemma finish_record_effect st0 st r sig fid rec0 record_data st' :
  type rec0 = sig -> form_id rec0 = fid ->
  st0 = count_record st sig \/ st0 = count_compressed (count_record st sig) ->
  final_parser (finish_record st0 r sig fid rec0 record_data) = Some st' ->
  record_effect st st'.
Proof.
  intros Hty Hfid Hst0. unfold finish_record.
  destruct (split_subrecords record_data) as [subs|e|]; [| |done].
  - destruct (parse_subrecords _) as [e|rec] eqn:E.
    + intros [= <-]. right. exists sig. destruct Hst0 as [->| ->]; auto.
    + intros [= <-]. right. exists sig. do 3 right. exists fid, rec.
      apply parse_subrecords_fields in E as (H1 & H2 & _).
      cbn in H1, H2. split_and!; [congruence|congruence|].
      destruct Hst0 as [->| ->]; auto.
  - intros [= <-]. right. exists sig. destruct Hst0 as [->| ->]; auto.
Qed.

Lemma record_payload_effect st r sig data_size flags fid ts vi st' :
  final_parser (record_payload zlib st r sig data_size flags fid ts vi)
  = Some st' ->
  record_effect st st'.
Proof.
  unfold record_payload.
  destruct (remaining r <? data_size).
  { intros [= <-]. right. exists sig. auto. }
  cbn [read].
  destruct (is_compressed _ && _).
  - destruct (unpack_I _).
    { intros [= <-]. right. exists sig. auto. }
    destruct (zlib _ _).
    + apply finish_record_effect; auto.
    + intros [= <-]. right. exists sig. do 2 right. left. by exists fid.
  - apply finish_record_effect; auto.
Qed.

(** The states in which [_parse_record] can leave the parser. *)
Lemma parse_record_effect st r st' :
  final_parser (_parse_record zlib st r) = Some st' -> record_effect st st'.
Proof.
  unfold _parse_record.
  destruct (remaining r <? 24); [intros [= <-]; by left|].
  rewrite read_sig_eq. unfold on_read.
  repeat match goal with
         | |- context [match read_uint32 ?x with _ => _ end] =>
           destruct (read_uint32 x) as [?|[? ?]];
             [intros [= <-]; by left|]
         end.
  apply record_payload_effect.
Qed.

End RecordEffect.

(** A relation between parser states that every step of the walker
    respects holds between the state before and the state after a run of
    the walker, however it ends. *)
Section WalkerInvariant.

Variable zlib : bytes -> Z -> option bytes.
Variable R : ESPParser -> ESPParser -> Prop.
Hypothesis R_refl : forall st, R st st.
Hypothesis R_trans : forall st1 st2 st3, R st1 st2 -> R st2 st3 -> R st1 st3.
Hypothesis R_group : forall st, R st (count_group st).
Hypothesis R_print : forall st m, R st (print st m).
Hypothesis R_record : forall st st', record_effect st st' -> R st st'.

Lemma and_then_invariant {A B} (st : ESPParser) (c : result A)
    (k : A -> ESPParser -> BinaryReader.t -> result B) (st' : ESPParser) :
  (forall st1, final_parser c = Some st1 -> R st st1) ->
  (forall a st1 r1 st2, final_parser (k a st1 r1) = Some st2 -> R st1 st2) ->
  final_parser (and_then c k) = Some st' -> R st st'.
Proof.
  intros Hc Hk. destruct c as [a st1 r1|e st1 r1|]; cbn [and_then].
  - intros H. apply (R_trans _ st1); [by apply Hc|by eapply Hk].
  - intros [= <-]. by apply Hc.
  - done.
Qed.

Lemma walker_invariant (fuel : nat) :
  (forall filter_types st r st',
      final_parser (_parse_group zlib fuel filter_types st r) = Some st' ->
      R st st')
  /\ (forall filter_types end_pos st r st',
         final_parser (group_content zlib fuel filter_types end_pos st r)
         = Some st' ->
         R st st').
Proof.
  induction fuel as [|fuel [IHg IHc]]; [by split|]. split.
  - intros filter_types st r st'. cbn [_parse_group].
    rewrite read_sig_eq.
    destruct (negb _); [intros [= <-]; apply R_refl|].
    unfold on_read.
    destruct (read_uint32 _) as [e|[group_size r1]];
      [intros [= <-]; apply R_refl|].
    cbn [read].
    destruct (read_int32 _) as [e|[group_type r2]];
      [intros [= <-]; apply R_refl|].
    destruct (read_uint32 _) as [e|[ts r3]];
      [intros [= <-]; apply R_refl|].
    destruct (read_uint32 _) as [e|[vi r4]];
      [intros [= <-]; apply R_refl|].
    destruct (group_type =? 0).
    + destruct (filtered_out _ _).
      * intros [= <-]. apply (R_trans _ (count_group st)); auto.
      * intros H. apply IHc in H.
        apply (R_trans _ (count_group st)); [auto|].
        eapply R_trans; [apply R_print|exact H].
    + intros H. apply IHc in H.
      apply (R_trans _ (count_group st)); auto.
  - intros filter_types end_pos st r st'. rewrite group_content_unfold.
    destruct (pos r <? end_pos); [|intros [= <-]; apply R_refl].
    destruct (remaining r <? 4); [intros [= <-]; apply R_refl|].
    destruct (sig_is _ _).
    + apply and_then_invariant; [apply IHg|]. intros _. apply IHc.
    + apply and_then_invariant; [|intros _; apply IHc].
      intros st1 H. apply R_record. by eapply parse_record_effect.
Qed.

Lemma parse_groups_invariant (fuel : nat) filter_types st r st' :
  final_parser (parse_groups zlib fuel filter_types st r) = Some st' ->
  R st st'.
Proof.
  revert st r st'. induction fuel as [|fuel IH]; intros st r st'; [done|].
  rewrite parse_groups_unfold.
  destruct (has_data r && _); [|intros [= <-]; apply R_refl].
  destruct (sig_is _ _).
  - apply and_then_invariant; [|intros _; apply IH].
    apply (proj1 (walker_invariant fuel)).
  - apply and_then_invariant; [|intros _; apply IH].
    intros st1 H. apply R_record. by eapply parse_record_effect.
Qed.

End WalkerInvariant.

(** *** The settings and the output *)

Lemma same_settings_refl st : same_settings st st.
Proof. by unfold same_settings. Qed.

Lemma same_settings_trans st1 st2 st3 :
  same_settings st1 st2 -> same_settings st2 st3 -> same_settings st1 st3.
Proof.
  intros (F1 & V1 & M1 & P1 & Q1) (F2 & V2 & M2 & P2 & Q2).
  unfold same_settings. split_and!; try congruence.
  - by transitivity (stdout st2).
  - intros Hv. rewrite Q2 by congruence. by apply Q1.
Qed.

Lemma same_settings_print st m : same_settings st (print st m).
Proof.
  unfold same_settings, print.
  destruct (verbose st) eqn:E; cbn; rewrite ?E; split_and!; try done.
  by exists [m].
Qed.

Lemma same_settings_group st : same_settings st (count_group st).
Proof. by unfold same_settings. Qed.

Lemma same_settings_record st st' :
  record_effect st st' -> same_settings st st'.
Proof.
  intros [->|(sig & [->|[->|[(fid & ->)|(fid & rec & _ & _ & [->| ->])]]])].
  - apply same_settings_refl.
  - by unfold same_settings.
  - by unfold same_settings.
  - apply (same_settings_trans _ (count_compressed (count_record st sig)));
      [by unfold same_settings|apply same_settings_print].
  - by unfold same_settings.
  - by unfold same_settings.
Qed.

(** *** The counters *)

Lemma total_counts_count_record st sig :
  total_counts (count_record st sig) = total_counts st + 1.
Proof.
  unfold total_counts. cbn [count_record type_counts].
  assert (forall (j1 j2 : string) (z1 z2 y : Z),
             z1 + (z2 + y) = z2 + (z1 + y)) as Hcomm by (intros; lia).
  destruct (type_counts st !! sig) as [v|] eqn:E; cbn [default].
  - rewrite <- insert_delete_eq.
    rewrite map_fold_insert_L
      by (first [by intros; apply Hcomm | apply lookup_delete_eq]).
    rewrite (map_fold_delete_L _ _ sig v (type_counts st))
      by (first [by intros; apply Hcomm | done]).
    unfold id. lia.
  - rewrite map_fold_insert_L by (first [by intros; apply Hcomm | done]).
    lia.
Qed.

Lemma counters_consistent_refl st : counters_consistent st st.
Proof. unfold counters_consistent. lia. Qed.

Lemma counters_consistent_trans st1 st2 st3 :
  counters_consistent st1 st2 -> counters_consistent st2 st3 ->
  counters_consistent st1 st3.
Proof. unfold counters_consistent. lia. Qed.

Lemma counters_consistent_group st : counters_consistent st (count_group st).
Proof.
  unfold counters_consistent, stored_count, total_counts. cbn. lia.
Qed.

Lemma counters_consistent_print st m : counters_consistent st (print st m).
Proof.
  unfold counters_consistent, stored_count, total_counts, print.
  destruct (verbose st); cbn; lia.
Qed.

Lemma counters_consistent_record st st' :
  record_effect st st' -> counters_consistent st st'.
Proof.
  intros [->|(sig & Heff)]; [apply counters_consistent_refl|].
  pose proof (total_counts_count_record st sig) as Ht.
  assert (stored_count (count_record st sig) = stored_count st) as Hs
    by reflexivity.
  assert (stored_count (count_compressed (count_record st sig))
          = stored_count st) as Hs' by reflexivity.
  assert (total_counts (count_compressed (count_record st sig))
          = total_counts st + 1) as Ht' by exact Ht.
  assert (forall st0 fid rec,
             total_counts (store_record st0 sig fid rec) = total_counts st0)
    as Hstore by reflexivity.
  assert (counters_consistent st (count_compressed (count_record st sig)))
    as H2.
  { unfold counters_consistent. rewrite Ht', Hs'. cbn. lia. }
  destruct Heff as [->|[->|[(fid & ->)|(fid & rec & _ & _ & [->| ->])]]];
    try done.
  - unfold counters_consistent. rewrite Ht, Hs. cbn. lia.
  - apply (counters_consistent_trans _ _ _ H2), counters_consistent_print.
  - unfold counters_consistent.
    rewrite stored_count_store, Hstore, Ht, Hs. cbn. lia.
  - unfold counters_consistent.
    rewrite stored_count_store, Hstore, Ht', Hs'. cbn. lia.
Qed.

(** *** The two indexes *)

Lemma indexes_grow_refl st : indexes_grow st st.
Proof. by unfold indexes_grow. Qed.

Lemma indexes_grow_trans st1 st2 st3 :
  indexes_grow st1 st2 -> indexes_grow st2 st3 -> indexes_grow st1 st3.
Proof.
  intros (P1 & K1 & A1) (P2 & K2 & A2). unfold indexes_grow. split_and!.
  - intros ty. by transitivity (default [] (records st2 !! ty)).
  - auto.
  - auto.
Qed.

Lemma indexes_grow_same st st' :
  records st' = records st -> records_by_formid st' = records_by_formid st ->
  indexes_grow st st'.
Proof.
  intros Hr Hf. unfold indexes_grow, indexes_agree. rewrite Hr, Hf. done.
Qed.

Lemma indexes_grow_store st sig fid rec :
  type rec = sig -> form_id rec = fid ->
  indexes_grow st (store_record st sig fid rec).
Proof.
  intros Hty Hfid. unfold indexes_grow. cbn [store_record records
    records_by_formid]. split_and!.
  - intros ty. destruct (decide (ty = sig)) as [->|Hne].
    + rewrite lookup_insert_eq. cbn [default]. by apply prefix_app_r.
    + by rewrite lookup_insert_ne.
  - intros f Hf. rewrite lookup_insert_is_Some.
    destruct (decide (fid = f)); [by left|by right].
  - intros Hagree f rec'. cbn [store_record records records_by_formid].
    destruct (decide (f = fid)) as [->|Hne].
    + rewrite lookup_insert_eq. intros [= <-]. split; [done|].
      rewrite Hty, lookup_insert_eq. cbn [default].
      apply elem_of_app. right. by apply list_elem_of_singleton.
    + rewrite lookup_insert_ne by done. intros Hrec'.
      destruct (Hagree f rec' Hrec') as [Hid Hin]. split; [done|].
      destruct (decide (type rec' = sig)) as [Hs|Hs].
      * rewrite Hs in *. rewrite lookup_insert_eq. cbn [default].
        apply elem_of_app. by left.
      * by rewrite lookup_insert_ne.
Qed.

Lemma indexes_grow_group st : indexes_grow st (count_group st).
Proof. by apply indexes_grow_same. Qed.

Lemma indexes_grow_print st m : indexes_grow st (print st m).
Proof. destruct (print_indexes st m). by apply indexes_grow_same. Qed.

Lemma indexes_grow_record st st' :
  record_effect st st' -> indexes_grow st st'.
Proof.
  intros [->|(sig & [->|[->|[(fid & ->)|(fid & rec & Hty & Hfid & Hst)]]])];
    [| | | |destruct Hst as [->| ->]].
  - apply indexes_grow_refl.
  - by apply indexes_grow_same.
  - by apply indexes_grow_same.
  - destruct (print_indexes (count_compressed (count_record st sig))
                (MsgDecompressWarning sig fid)) as [H1 H2].
    by apply indexes_grow_same.
  - apply (indexes_grow_trans _ (count_record st sig));
      [by apply indexes_grow_same|by apply indexes_grow_store].
  - apply (indexes_grow_trans _ (count_compressed (count_record st sig)));
      [by apply indexes_grow_same|by apply indexes_grow_store].
Qed.

(** X13.  The decoder never touches the settings of the parser: after
    the decode loop, a container walk or a record decode, ended by return
    or by exception, the file name, the verbose flag and the master list
    are what they were; lines have only been added at the end of the
    output, and none when [verbose] is off. *)
Theorem decoder_keeps_the_settings
    (zlib : bytes -> Z -> option bytes) (fuel : nat)
    (filter_types : option (gset string)) (st st' : ESPParser)
    (r : BinaryReader.t) :
  final_parser (parse_groups zlib fuel filter_types st r) = Some st'
  \/ final_parser (_parse_group zlib fuel filter_types st r) = Some st'
  \/ final_parser (_parse_record zlib st r) = Some st' ->
  same_settings st st'.
Proof.
  intros [H|[H|H]].
  - exact (parse_groups_invariant zlib same_settings
             same_settings_refl same_settings_trans same_settings_group
             same_settings_print same_settings_record
             fuel filter_types st r st' H).
  - exact (proj1 (walker_invariant zlib same_settings
                    same_settings_refl same_settings_trans
                    same_settings_group same_settings_print
                    same_settings_record fuel)
             filter_types st r st' H).
  - by apply same_settings_record, (parse_record_effect zlib st r).
Qed.

(** X14.  The counters stay consistent over the decode loop, a container
    walk or a record decode, ended by return or by exception: no counter
    goes down, the by-type index gains at most as many records as
    [record_count] has counted, [compressed_count] rises by at most that
    number, and the counts by type rise by exactly that number in
    total. *)
Theorem decoder_keeps_the_counters_consistent
    (zlib : bytes -> Z -> option bytes) (fuel : nat)
    (filter_types : option (gset string)) (st st' : ESPParser)
    (r : BinaryReader.t) :
  final_parser (parse_groups zlib fuel filter_types st r) = Some st'
  \/ final_parser (_parse_group zlib fuel filter_types st r) = Some st'
  \/ final_parser (_parse_record zlib st r) = Some st' ->
  counters_consistent st st'.
Proof.
  intros [H|[H|H]].
  - exact (parse_groups_invariant zlib counters_consistent
             counters_consistent_refl counters_consistent_trans
             counters_consistent_group counters_consistent_print
             counters_consistent_record
             fuel filter_types st r st' H).
  - exact (proj1 (walker_invariant zlib counters_consistent
                    counters_consistent_refl counters_consistent_trans
                    counters_consistent_group counters_consistent_print
                    counters_consistent_record fuel)
             filter_types st r st' H).
  - by apply counters_consistent_record, (parse_record_effect zlib st r).
Qed.

(** X15.  The decoder only adds to the two indexes, over the decode loop,
    a container walk or a record decode, ended by return or by
    exception: every list of the by-type index is extended at its end
    and keeps what it held, in order; an identity that was indexed stays
    indexed; and if every record of the by-identity index carried its
    identity and stood in the list of its own type, this is still so. *)
Theorem decoder_only_adds_to_the_indexes
    (zlib : bytes -> Z -> option bytes) (fuel : nat)
    (filter_types : option (gset string)) (st st' : ESPParser)
    (r : BinaryReader.t) :
  final_parser (parse_groups zlib fuel filter_types st r) = Some st'
  \/ final_parser (_parse_group zlib fuel filter_types st r) = Some st'
  \/ final_parser (_parse_record zlib st r) = Some st' ->
  indexes_grow st st'.
Proof.
  intros [H|[H|H]].
  - exact (parse_groups_invariant zlib indexes_grow
             indexes_grow_refl indexes_grow_trans indexes_grow_group
             indexes_grow_print indexes_grow_record
             fuel filter_types st r st' H).
  - exact (proj1 (walker_invariant zlib indexes_grow
                    indexes_grow_refl indexes_grow_trans
                    indexes_grow_group indexes_grow_print
                    indexes_grow_record fuel)
             filter_types st r st' H).
  - by apply indexes_grow_record, (parse_record_effect zlib st r).
Qed.
(** ** The named fields of a record *)

Lemma parse_subrecord_names (rec rec1 : ESPRecord) (kc kc1 : Z)
    (ty : string) (d : bytes) :
  parse_subrecord rec kc ty d = inr (rec1, kc1) ->
  editor_id rec1 = (if String.eqb ty "EDID" then decode_field d
                    else editor_id rec)
  /\ full_name rec1 = (if String.eqb ty "FULL" then full_name_of d
                       else full_name rec).
Proof.
  unfold parse_subrecord.
  destruct (String.eqb ty "EDID") eqn:E1.
  { apply String.eqb_eq in E1 as ->. by intros [= <- <-]. }
  destruct (String.eqb ty "FULL") eqn:E2.
  { unfold full_name_of, unpack_I.
    destruct (len d =? 4); by intros [= <- <-]. }
  repeat match goal with
         | |- context [if ?c then _ else _] => destruct c
         | |- context [match unpack_I ?b with _ => _ end] =>
           destruct (unpack_I b)
         | |- context [match kwda_loop ?a ?b ?c with _ => _ end] =>
           destruct (kwda_loop a b c)
         end;
    try done; by intros [= <- <-].
Qed.

Lemma parse_subrecords_loop_names (subs : list (string * bytes)) :
  forall (rec rec' : ESPRecord) (kc : Z),
    parse_subrecords_loop subs rec kc = inr rec' ->
    editor_id rec' = match last_payload "EDID" subs with
                     | Some d => decode_field d
                     | None => editor_id rec
                     end
    /\ full_name rec' = match last_payload "FULL" subs with
                        | Some d => full_name_of d
                        | None => full_name rec
                        end.
Proof.
  induction subs as [|[ty d] subs IH]; intros rec rec' kc Hrun.
  - by injection Hrun as <-.
  - cbn [parse_subrecords_loop] in Hrun.
    destruct (parse_subrecord rec kc ty d) as [e|[rec1 kc1]] eqn:E; [done|].
    apply parse_subrecord_names in E as [He Hf].
    destruct (IH rec1 rec' kc1 Hrun) as [He' Hf'].
    cbn [last_payload]. rewrite He', Hf', He, Hf.
    split.
    + by destruct (last_payload "EDID" subs), (String.eqb ty "EDID").
    + by destruct (last_payload "FULL" subs), (String.eqb ty "FULL").
Qed.

(** X16.  The named fields follow the last subrecord of their type:
    after [parse_subrecords], [editor_id] is the text of the last [EDID]
    payload and [full_name] is made from the last [FULL] payload (a
    payload of exactly four bytes is rendered as a string-table index,
    whatever its bytes, any other is decoded as text); without such a
    subrecord the field keeps its value. *)
Theorem names_follow_the_last_subrecord (rec rec' : ESPRecord) :
  parse_subrecords rec = inr rec' ->
  editor_id rec' = match last_payload "EDID" (subrecords rec) with
                   | Some d => decode_field d
                   | None => editor_id rec
                   end
  /\ full_name rec' = match last_payload "FULL" (subrecords rec) with
                      | Some d =>
                        if len d =? 4 then
                          String.append "[LSTRING:"
                            (String.append (format_X 8 (le_uint d)) "]")
                        else decode_field d
                      | None => full_name rec
                      end.
Proof.
  intros Hrun. unfold parse_subrecords in Hrun.
  destruct (parse_subrecords_loop_names _ _ _ _ Hrun) as [He Hf].
  split; [exact He|].
  rewrite Hf. by destruct (last_payload "FULL" (subrecords rec)).
Qed.

(** ** Round trip of a record *)

(** The envelope fields of a record written by [record_bytes], found
    anywhere in a buffer. *)
Lemma record_bytes_at (pre post payload : bytes) (sig : string)
    (size flags fid : Z) :
  len (list_byte_of_string sig) = 4 ->
  0 <= size < 2 ^ 32 -> 0 <= flags < 2 ^ 32 -> 0 <= fid < 2 ^ 32 ->
  let d := (pre ++ record_bytes sig size flags fid payload ++ post)%list in
  len d = len pre + 24 + len payload + len post
  /\ sig_at d (len pre) = decode_sig (list_byte_of_string sig)
  /\ u32_at d (len pre + 4) = size
  /\ u32_at d (len pre + 8) = flags
  /\ u32_at d (len pre + 12) = fid
  /\ u32_at d (len pre + 16) = 0
  /\ u32_at d (len pre + 20) = 0
  /\ slice d (len pre + 24) (len pre + 24 + len payload) = payload.
Proof.
  intros Hl Hs Hf Hi d. subst d. unfold record_bytes.
  assert (forall v, len (pack_I v) = 4) as Hp by done.
  split_and!.
  - rewrite !len_app, Hl, !Hp. lia.
  - unfold sig_at. f_equal. eapply slice_at; [|reflexivity|by rewrite Hl].
    by rewrite <- !app_assoc.
  - unfold u32_at. rewrite <- (le_uint_pack_I size) at 2 by done. f_equal.
    eapply (slice_at _ (pre ++ list_byte_of_string sig)%list).
    + by rewrite <- !app_assoc.
    + rewrite !len_app, Hl. lia.
    + done.
  - unfold u32_at. rewrite <- (le_uint_pack_I flags) at 2 by done. f_equal.
    eapply (slice_at _ (pre ++ list_byte_of_string sig
                        ++ pack_I size)%list).
    + by rewrite <- !app_assoc.
    + rewrite !len_app, Hl, !Hp. lia.
    + done.
  - unfold u32_at. rewrite <- (le_uint_pack_I fid) at 2 by done. f_equal.
    eapply (slice_at _ (pre ++ list_byte_of_string sig
                        ++ pack_I size ++ pack_I flags)%list).
    + by rewrite <- !app_assoc.
    + rewrite !len_app, Hl, !Hp. lia.
    + done.
  - unfold u32_at. transitivity (le_uint (pack_I 0)); [|reflexivity]. f_equal.
    eapply (slice_at _ (pre ++ list_byte_of_string sig
                        ++ pack_I size ++ pack_I flags
                        ++ pack_I fid)%list).
    + by rewrite <- !app_assoc.
    + rewrite !len_app, Hl, !Hp. lia.
    + done.
  - unfold u32_at. transitivity (le_uint (pack_I 0)); [|reflexivity]. f_equal.
    eapply (slice_at _ (pre ++ list_byte_of_string sig
                        ++ pack_I size ++ pack_I flags
                        ++ pack_I fid ++ pack_I 0)%list).
    + by rewrite <- !app_assoc.
    + rewrite !len_app, Hl, !Hp. lia.
    + done.
  - eapply (slice_at _ (pre ++ list_byte_of_string sig
                        ++ pack_I size ++ pack_I flags
                        ++ pack_I fid ++ pack_I 0 ++ pack_I 0)%list).
    + by rewrite <- !app_assoc.
    + rewrite !len_app, Hl, !Hp. lia.
    + done.
Qed.

Section RoundTrip.

Variable zlib : bytes -> Z -> option bytes.

(** A writable record is decoded in full: the decoder returns the record
    post-processed from the written subrecords, stores it and leaves the
    cursor at its end. *)
Lemma parse_record_plain (st : ESPParser) (pre post : bytes) (sig : string)
    (flags fid : Z) (fields : list (bytes * bytes)) :
  writable sig flags fid fields ->
  let d := (pre ++ plain_record_bytes sig flags fid fields ++ post)%list in
  let ty := decode_sig (list_byte_of_string sig) in
  exists rec,
    parse_subrecords (plain_record sig flags fid fields) = inr rec
    /\ _parse_record zlib st (BinaryReader.mk d (len pre))
       = Ok (Some rec) (store_record (count_record st ty) ty fid rec)
           (BinaryReader.mk d
              (len pre + 24 + len (subrecords_bytes fields))).
Proof.
  intros (Hl & Hf & Hc & Hi & Hs & Hplain & Hk) d ty.
  pose proof (len_nonneg (subrecords_bytes fields)) as Hs0.
  pose proof (len_nonneg pre) as Hpre. pose proof (len_nonneg post) as Hpost.
  destruct (record_bytes_at pre post (subrecords_bytes fields) sig
              (len (subrecords_bytes fields)) flags fid)
    as (Hlen & Hsig & Hsize & Hflags & Hfid & Hts & Hvi & Hpay);
    [done|lia|done|done|].
  fold (plain_record_bytes sig flags fid fields) in Hlen, Hsig, Hsize,
    Hflags, Hfid, Hts, Hvi, Hpay.
  fold d in Hlen, Hsig, Hsize, Hflags, Hfid, Hts, Hvi, Hpay.
  destruct (parse_subrecords_loop_keywords (decoded_subrecords fields)
              (plain_record sig flags fid fields) 0 Hk) as (rec & Hrec & _).
  exists rec. split; [exact Hrec|].
  rewrite parse_record_envelope
    by (unfold remaining; cbn [data pos]; lia).
  cbn [data pos]. rewrite Hsig, Hsize, Hflags, Hfid, Hts, Hvi.
  fold ty. unfold record_payload.
  rewrite remaining_advance. unfold remaining. cbn [data pos].
  destruct (Z.ltb_spec (len d - len pre - 24) (len (subrecords_bytes fields)));
    [lia|].
  cbn [read advance data pos]. rewrite Hpay.
  unfold new_record. rewrite Hc. cbn [Z.eqb negb is_compressed andb].
  unfold finish_record.
  rewrite <- (app_nil_r (subrecords_bytes fields)) at 1.
  rewrite split_subrecords_plain by done.
  change (set_subrecords _ (decoded_subrecords fields))
    with (plain_record sig flags fid fields).
  unfold parse_subrecords. cbn [plain_record set_subrecords subrecords].
  unfold parse_subrecords in Hrec.
  cbn [plain_record set_subrecords subrecords] in Hrec.
  rewrite Hrec. reflexivity.
Qed.

End RoundTrip.

(** X17.  Round trip of the record decoder: an uncompressed record
    written with its true payload size and plain subrecords, none of them
    a keyword count longer than four bytes, is read back wherever it
    stands in the buffer.  The decoder returns it, stores it in both
    indexes after counting it, and leaves the cursor at its end; the
    record has the written type, identity and flags, the written
    subrecords in order, the editor id of its last [EDID] subrecord, the
    keywords of its last [KWDA] subrecord, and every payload in
    [raw_data]. *)
Theorem record_decoder_reads_back_plain_record
    (zlib : bytes -> Z -> option bytes) (st : ESPParser) (pre post : bytes)
    (sig : string) (fl fid : Z) (fields : list (bytes * bytes)) :
  writable sig fl fid fields ->
  let d := (pre ++ plain_record_bytes sig fl fid fields ++ post)%list in
  let ty := decode_sig (list_byte_of_string sig) in
  exists rec,
    _parse_record zlib st (BinaryReader.mk d (len pre))
    = Ok (Some rec) (store_record (count_record st ty) ty fid rec)
        (BinaryReader.mk d (len pre + 24 + len (subrecords_bytes fields)))
    /\ type rec = ty /\ form_id rec = fid
    /\ flags rec = fl /\ is_compressed rec = false
    /\ subrecords rec = decoded_subrecords fields
    /\ editor_id rec
       = match last_payload "EDID" (decoded_subrecords fields) with
         | Some name => decode_field name
         | None => ""
         end
    /\ keywords rec
       = match last_payload "KWDA" (decoded_subrecords fields) with
         | Some arr => keywords_of_array arr
         | None => []
         end
    /\ forall ty',
        raw_data rec !! ty'
        = raw_of (payloads_of ty' (decoded_subrecords fields)).
Proof.
  intros Hw d ty.
  destruct (parse_record_plain zlib st pre post sig fl fid fields Hw)
    as (rec & Hrec & Hrun).
  exists rec. split; [exact Hrun|].
  destruct Hw as (_ & _ & _ & _ & _ & _ & Hk).
  pose proof (parse_subrecords_fields _ _ Hrec) as (H1 & H2 & H3 & H4).
  pose proof (parse_subrecords_loop_names _ _ _ _ Hrec) as [He _].
  pose proof (parse_subrecords_loop_raw _ _ _ _ [] Hrec) as [Hraw Hsubs];
    [intros ty'; apply lookup_empty|].
  destruct (parse_subrecords_loop_keywords (decoded_subrecords fields)
              (plain_record sig fl fid fields) 0 Hk) as (rec' & Hrec' & Hkw).
  unfold parse_subrecords in Hrec.
  cbn [plain_record set_subrecords subrecords] in Hrec.
  cbn [plain_record set_subrecords subrecords] in Hrec'.
  rewrite Hrec' in Hrec. injection Hrec as ->.
  split_and!; done.
Qed.

(** X10.  A decoded record names its identity: once such a record has
    been decoded, [get_keyword_name] answers for its identity with the
    text of its last [EDID] subrecord; when the record has none, or an
    empty one, the answer is the vanilla keyword of that identity or else
    the resolved [master|local] string, even if an earlier record had
    named the identity.  The names of all other identities are what they
    were. *)
Theorem decoded_record_names_its_identity
    (zlib : bytes -> Z -> option bytes) (st : ESPParser) (pre post : bytes)
    (sig : string) (flags fid : Z) (fields : list (bytes * bytes)) :
  writable sig flags fid fields ->
  let d := (pre ++ plain_record_bytes sig flags fid fields ++ post)%list in
  exists v st' r',
    _parse_record zlib st (BinaryReader.mk d (len pre)) = Ok v st' r'
    /\ get_keyword_name st' fid
       = match last_payload "EDID" (decoded_subrecords fields) with
         | Some name =>
           if nonempty (decode_field name) then decode_field name
           else match VANILLA_WEAPON_KEYWORDS !! fid with
                | Some known => known
                | None => resolve_formid_str st fid
                end
         | None =>
           match VANILLA_WEAPON_KEYWORDS !! fid with
           | Some known => known
           | None => resolve_formid_str st fid
           end
         end
    /\ forall other, other <> fid ->
                     get_keyword_name st' other = get_keyword_name st other.
Proof.
  intros Hw d.
  destruct (parse_record_plain zlib st pre post sig flags fid fields Hw)
    as (rec & Hrec & Hrun).
  eexists _, _, _. split; [exact Hrun|].
  pose proof (parse_subrecords_loop_names _ _ _ _ Hrec) as [He _].
  cbn [plain_record set_subrecords subrecords editor_id] in He.
  split.
  - unfold get_keyword_name. cbn [store_record records_by_formid].
    rewrite lookup_insert_eq, He.
    by destruct (last_payload "EDID" (decoded_subrecords fields)).
  - intros other Hne. unfold get_keyword_name.
    cbn [store_record records_by_formid count_record].
    by rewrite lookup_insert_ne.
Qed.
(** ** The file header *)

Section HeaderProofs.

Variable decode_utf8_replace : bytes -> string.

Lemma parse_hedr_ok (h : HeaderInfo) (d : bytes) :
  12 <= len d ->
  exists h', parse_hedr h d = inr h'
             /\ is_esm h' = is_esm h /\ is_esl h' = is_esl h
             /\ is_localized h' = is_localized h
             /\ header_out h' = header_out h.
Proof.
  intros Hd. unfold parse_hedr.
  destruct (unpack_I_4 (slice d 0 4)) as [v ->];
    [apply len_slice_inside; lia|].
  destruct (unpack_I_4 (slice d 4 8)) as [n ->];
    [apply len_slice_inside; lia|].
  destruct (unpack_I_4 (slice d 8 12)) as [o ->];
    [apply len_slice_inside; lia|].
  by eexists.
Qed.

(** A field that can be read back changes the master list only, and only
    when it is a [MAST] field. *)
Lemma tes4_field_ok (h : HeaderInfo) (st : ESPParser) (ty : string)
    (d : bytes) :
  (ty = "HEDR" -> 12 <= len d) ->
  exists h',
    tes4_field decode_utf8_replace h st ty d
    = inr (h', if String.eqb ty "MAST"
               then add_master st (decode_utf8_replace (rstrip_nul d))
               else st)
    /\ is_esm h' = is_esm h /\ is_esl h' = is_esl h
    /\ is_localized h' = is_localized h
    /\ header_out h' = header_out h.
Proof.
  intros Hd. unfold tes4_field.
  destruct (String.eqb_spec ty "HEDR") as [->|_].
  { destruct (parse_hedr_ok h d) as (h' & -> & H); [by apply Hd|].
    by exists h'. }
  destruct (String.eqb_spec ty "CNAM") as [->|_]; [by eexists|].
  destruct (String.eqb_spec ty "SNAM") as [->|_]; [by eexists|].
  destruct (String.eqb ty "MAST"); by eexists.
Qed.

(** One iteration of the loop on a field that lies in the buffer. *)
Lemma tes4_loop_step (fuel : nat) (end_pos : Z) (h : HeaderInfo)
    (st : ESPParser) (r : BinaryReader.t) (pre ty sz payload post : bytes) :
  data r = (pre ++ ty ++ sz ++ payload ++ post)%list ->
  pos r = len pre -> len ty = 4 -> len sz = 2 -> len payload = le_uint sz ->
  pos r < end_pos ->
  tes4_loop decode_utf8_replace (S fuel) end_pos h st r
  = match tes4_field decode_utf8_replace h st (decode_sig ty) payload with
    | inl (e, h') => HeaderRaise e h' st (advance r (6 + len payload))
    | inr (h', st') =>
      tes4_loop decode_utf8_replace fuel end_pos h' st'
        (advance r (6 + len payload))
    end.
Proof.
  intros Hd Hp Ht Hs Hn Hend. cbn [tes4_loop].
  destruct (Z.ltb_spec (pos r) end_pos); [|lia].
  rewrite read_sig_eq.
  assert (sig_at (data r) (pos r) = decode_sig ty) as ->.
  { unfold sig_at.
    rewrite (slice_at _ pre ty (sz ++ payload ++ post)%list); done. }
  assert (0 <= pos r) by (rewrite Hp; apply len_nonneg).
  assert (len (data r) = len pre + 6 + len payload + len post) as Hl.
  { rewrite Hd, !len_app, Hs, Ht. lia. }
  pose proof (len_nonneg post). pose proof (len_nonneg payload).
  rewrite read_uint16_ok
    by (rewrite ?remaining_advance; unfold remaining; cbn [pos advance]; lia).
  cbn [pos data advance].
  assert (u16_at (data r) (pos r + 4) = le_uint sz) as ->.
  { unfold u16_at.
    rewrite (slice_at _ (pre ++ ty)%list sz (payload ++ post)%list); try done.
    - rewrite Hd. by rewrite <- !app_assoc.
    - rewrite len_app. lia. }
  rewrite <- Hn. cbn [read]. rewrite !advance_advance. cbn [pos data advance].
  rewrite (slice_at (data r) (pre ++ ty ++ sz)%list payload post).
  - by replace (4 + (2 + len payload)) with (6 + len payload) by lia.
  - rewrite Hd. by rewrite <- !app_assoc.
  - rewrite !len_app. lia.
  - done.
Qed.

Lemma len_header_fields (fields : list (bytes * bytes)) :
  Forall header_field fields -> 0 <= len (subrecords_bytes fields).
Proof. intros _. apply len_nonneg. Qed.

(** The loop walks through a run of header fields, one iteration for
    each, whatever follows the run. *)
Lemma tes4_loop_run (fields : list (bytes * bytes)) :
  Forall header_field fields ->
  forall (d pre rest : bytes) (fuel : nat) (end_pos : Z) (h : HeaderInfo)
         (st : ESPParser),
    d = (pre ++ subrecords_bytes fields ++ rest)%list ->
    len pre + len (subrecords_bytes fields) <= end_pos ->
    exists h',
      tes4_loop decode_utf8_replace (length fields + fuel) end_pos h st
        (BinaryReader.mk d (len pre))
      = tes4_loop decode_utf8_replace fuel end_pos h'
          (with_masters st
             (masters st ++ master_names decode_utf8_replace fields))
          (BinaryReader.mk d (len pre + len (subrecords_bytes fields)))
      /\ is_esm h' = is_esm h /\ is_esl h' = is_esl h
      /\ is_localized h' = is_localized h
      /\ header_out h' = header_out h.
Proof.
  induction 1 as [|s fields (Hty & Hsz & Hhedr) _ IH];
    intros d pre rest fuel end_pos h st Hd Hend.
  - exists h. split; [|done].
    cbn [length Nat.add subrecords_bytes map concat].
    unfold master_names. cbn. rewrite app_nil_r, Z.add_0_r.
    by destruct st.
  - pose proof (len_nonneg (snd s)) as Hp.
    pose proof (len_nonneg pre) as Hpre.
    pose proof (len_nonneg (subrecords_bytes fields)) as Hrest.
    rewrite subrecords_bytes_cons in Hd, Hend.
    rewrite len_app, len_subrecord_bytes in Hend by done.
    cbn [length Nat.add].
    assert (d = (pre ++ fst s ++ pack_H (len (snd s)) ++ snd s
                 ++ subrecords_bytes fields ++ rest)%list) as Hd1.
    { rewrite Hd. unfold subrecord_bytes. by rewrite <- !app_assoc. }
    assert (d = ((pre ++ subrecord_bytes s) ++ subrecords_bytes fields
                 ++ rest)%list) as Hd2.
    { rewrite Hd. by rewrite <- !app_assoc. }
    rewrite (tes4_loop_step _ _ _ _ _ pre (fst s) (pack_H (len (snd s)))
               (snd s) (subrecords_bytes fields ++ rest)%list);
      [|done|done|done|done|by rewrite le_uint_pack_H by lia|cbn [pos]; lia].
    destruct (tes4_field_ok h st (decode_sig (fst s)) (snd s) Hhedr)
      as (h1 & -> & F1 & F2 & F3 & F4).
    unfold advance. cbn [data pos].
    set (st1 := if String.eqb (decode_sig (fst s)) "MAST"
                then add_master st (decode_utf8_replace (rstrip_nul (snd s)))
                else st).
    destruct (IH d (pre ++ subrecord_bytes s)%list rest fuel end_pos h1 st1
                Hd2) as (h' & Hrun & G1 & G2 & G3 & G4).
    { rewrite len_app, len_subrecord_bytes by done. lia. }
    rewrite len_app, len_subrecord_bytes in Hrun by done.
    exists h'. split; [|split_and!; congruence].
    rewrite Hrun. rewrite subrecords_bytes_cons, len_app,
      len_subrecord_bytes by done.
    f_equal.
    + unfold master_names, payloads_of. cbn [decoded_subrecords map].
      rewrite filter_cons. cbn [fst snd]. subst st1.
      destruct (String.eqb_spec (decode_sig (fst s)) "MAST") as [E|E].
      * rewrite decide_True by done. cbn [map with_masters add_master
          masters filename verbose records records_by_formid group_count
          record_count compressed_count type_counts stdout].
        by rewrite <- app_assoc.
      * by rewrite decide_False by done.
    + f_equal. lia.
Qed.

(** The loop always ends: an iteration that does not raise consumes at
    least six bytes that the buffer holds. *)
Lemma tes4_loop_ends (fuel : nat) :
  forall (end_pos : Z) (h : HeaderInfo) (st : ESPParser)
         (r : BinaryReader.t),
    0 <= pos r -> Z.max 0 (remaining r) < Z.of_nat fuel ->
    header_ends 0 end_pos r
      (tes4_loop decode_utf8_replace fuel end_pos h st r).
Proof.
  induction fuel as [|fuel IH]; intros end_pos h st r Hp Hr.
  - lia.
  - cbn [tes4_loop].
    destruct (Z.ltb_spec (pos r) end_pos) as [Hlt|Hge];
      [|cbn; split_and!; [done|lia|lia]].
    rewrite read_sig_eq.
    destruct (read_uint16 (advance r 4)) as [e|[sub_size r1]] eqn:E; [done|].
    pose proof (read_fixed_value _ _ _ _ E) as Hsize.
    assert (6 <= remaining r) as Hsix.
    { destruct (Z.lt_ge_cases (remaining (advance r 4)) 2) as [Hs|Hs].
      - unfold read_uint16 in E. by rewrite read_fixed_short in E.
      - rewrite remaining_advance in Hs. lia. }
    apply read_fixed_inr in E as ->. cbn [read].
    destruct (tes4_field _ _ _ _ _) as [[e h1]|[h1 st1]]; [done|].
    rewrite !advance_advance.
    replace (4 + (2 + sub_size)) with (4 + 2 + sub_size) by lia.
    specialize (IH end_pos h1 st1 (advance r (4 + 2 + sub_size))).
    rewrite remaining_advance in IH. cbn [advance pos] in IH.
    specialize (IH ltac:(lia) ltac:(lia)).
    destruct (tes4_loop _ _ _ _ _ _) as [h2 st2 r2|e h2 st2 r2|];
      cbn [header_ends advance data pos] in *; try done.
    destruct IH as (Hd & Hpos & Hend). split_and!; [done|lia|done].
Qed.

Lemma read_fixed_inl (size : Z) (r : BinaryReader.t) (e : exn) :
  read_fixed size r = inl e -> e = StructError.
Proof.
  unfold read_fixed, unpack_from.
  repeat match goal with
         | |- context [if ?c then _ else _] => destruct c
         end; by intros [= <-].
Qed.

(** The loop raises [struct.error] only. *)
Lemma tes4_loop_raises (fuel : nat) :
  forall end_pos h st r e h' st' r',
    tes4_loop decode_utf8_replace fuel end_pos h st r
    = HeaderRaise e h' st' r' ->
    e = StructError.
Proof.
  induction fuel as [|fuel IH]; intros end_pos h st r e h' st' r'; [done|].
  cbn [tes4_loop]. destruct (pos r <? end_pos); [|done].
  rewrite read_sig_eq.
  destruct (read_uint16 (advance r 4)) as [e1|[sub_size r1]] eqn:E.
  { apply read_fixed_inl in E. by intros [= <- _ _ _]. }
  cbn [read].
  destruct (tes4_field _ _ _ _ _) as [[e1 h1]|[h1 st1]] eqn:F;
    [|apply IH].
  intros [= <- _ _ _]. revert F. unfold tes4_field.
  destruct (String.eqb _ "HEDR").
  - unfold parse_hedr, unpack_I.
    repeat match goal with
           | |- context [if ?c then _ else _] => destruct c
           end; by intros [= <- _].
  - by repeat destruct (String.eqb _ _).
Qed.

(** [_parse_tes4] from the point where the five envelope fields have
    been read. *)
Lemma parse_tes4_envelope (fuel : nat) (h : HeaderInfo) (st : ESPParser)
    (r : BinaryReader.t) :
  0 <= pos r -> 24 <= remaining r -> sig_at (data r) (pos r) = "TES4" ->
  _parse_tes4 decode_utf8_replace fuel h st r
  = match tes4_loop decode_utf8_replace fuel
            (pos r + 24 + u32_at (data r) (pos r + 4))
            (set_header_flags h (u32_at (data r) (pos r + 8))) st
            (advance r 24) with
    | HeaderOk h st r => HeaderOk (print_header h st) st r
    | other => other
    end.
Proof.
  intros Hp Hr Hsig. unfold _parse_tes4. rewrite read_sig_eq, Hsig.
  cbn [String.eqb Ascii.eqb Bool.eqb andb negb].
  rewrite read_uint32_ok
    by (rewrite ?remaining_advance; cbn [pos advance]; lia).
  rewrite read_uint32_ok
    by (rewrite ?remaining_advance; cbn [pos advance]; lia).
  rewrite read_uint32_ok
    by (rewrite ?remaining_advance; cbn [pos advance]; lia).
  rewrite read_uint32_ok
    by (rewrite ?remaining_advance; cbn [pos advance]; lia).
  rewrite read_uint32_ok
    by (rewrite ?remaining_advance; cbn [pos advance]; lia).
  rewrite !advance_advance. cbn [advance pos data].
  replace (pos r + (4 + 4 + 4 + 4 + 4 + 4)) with (pos r + 24) by lia.
  replace (pos r + (4 + 4)) with (pos r + 8) by lia.
  replace (pos r + 24 + u32_at (data r) (pos r + 4))
    with (pos r + 24 + u32_at (data r) (pos r + 4)) by lia.
  reflexivity.
Qed.

(** [_parse_tes4] always ends. *)
Lemma parse_tes4_ends (fuel : nat) (h : HeaderInfo) (st : ESPParser)
    (r : BinaryReader.t) :
  0 <= pos r -> (length (data r) < fuel)%nat ->
  header_ends 24 (pos r + 24 + u32_at (data r) (pos r + 4)) r
    (_parse_tes4 decode_utf8_replace fuel h st r).
Proof.
  intros Hp Hf.
  destruct (decide (sig_at (data r) (pos r) = "TES4")) as [Hsig|Hsig].
  - destruct (Z.lt_ge_cases (remaining r) 24) as [Hshort|Hlong].
    + unfold _parse_tes4. rewrite read_sig_eq.
      destruct (negb _); [done|].
      repeat match goal with
             | |- context [match read_uint32 ?x with _ => _ end] =>
               let E := fresh "E" in
               destruct (read_uint32 x) as [?|[? ?]] eqn:E; [done|];
                 let H := fresh "H" in
                 assert (4 <= remaining x) as H
                     by (destruct (Z.lt_ge_cases (remaining x) 4) as [Hs|Hs];
                         [unfold read_uint32 in E;
                          by rewrite read_fixed_short in E|done]);
                 apply read_fixed_inr in E; subst
             end.
      rewrite !remaining_advance in *. lia.
    + rewrite parse_tes4_envelope by done.
      pose proof (tes4_loop_ends fuel
                    (pos r + 24 + u32_at (data r) (pos r + 4))
                    (set_header_flags h (u32_at (data r) (pos r + 8))) st
                    (advance r 24)) as Hloop.
      rewrite remaining_advance in Hloop. cbn [advance pos] in Hloop.
      specialize (Hloop ltac:(lia)
                    ltac:(unfold remaining, len in *; lia)).
      destruct (tes4_loop _ _ _ _ _ _) as [h2 st2 r2|e h2 st2 r2|];
        cbn [header_ends advance data pos] in *; try done.
      destruct Hloop as (Hd & Hpos & Hend). split_and!; [done|lia|done].
  - unfold _parse_tes4. rewrite read_sig_eq.
    apply String.eqb_neq in Hsig. by rewrite Hsig.
Qed.

End HeaderProofs.

(** When the decode loop returns, fewer than four bytes are left. *)
Lemma parse_groups_ok_exhausts (zlib : bytes -> Z -> option bytes)
    (fuel : nat) :
  forall filter_types st r a st' r',
    parse_groups zlib fuel filter_types st r = Ok a st' r' ->
    remaining r' < 4.
Proof.
  induction fuel as [|fuel IH]; intros filter_types st r a st' r'; [done|].
  rewrite parse_groups_unfold.
  destruct (has_data r && (4 <=? remaining r)) eqn:C.
  - destruct (sig_is _ _).
    + destruct (_parse_group _ _ _ _ _) as [a1 st1 r1|e st1 r1|];
        cbn [and_then]; [apply IH|done|done].
    + destruct (_parse_record _ _ _) as [a1 st1 r1|e st1 r1|];
        cbn [and_then]; [apply IH|done|done].
  - intros [= _ _ <-]. apply andb_false_iff in C as [C|C].
    + unfold has_data in C. apply Z.ltb_ge in C. unfold remaining. lia.
    + apply Z.leb_gt in C. lia.
Qed.

(** X18.  The header signature is checked first: on a buffer that does
    not start with the four bytes [TES4] (an empty file, for instance),
    the header decoder raises [AssertionError] once it has read the
    signature, and so does [parse]; the parser and the header fields are
    untouched and nothing of the body is decoded. *)
Theorem header_signature_is_checked
    (decode_utf8_replace : bytes -> string)
    (zlib : bytes -> Z -> option bytes) (fuel : nat)
    (filter_types : option (gset string)) (h : HeaderInfo) (st : ESPParser)
    (file : bytes) :
  sig_at file 0 <> "TES4" ->
  _parse_tes4 decode_utf8_replace fuel h st (BinaryReader.mk file 0)
  = HeaderRaise AssertionError h st (BinaryReader.mk file 4)
  /\ parse decode_utf8_replace zlib fuel filter_types h st file
     = ParseRaise AssertionError h st (BinaryReader.mk file 4).
Proof.
  intros Hsig.
  assert (_parse_tes4 decode_utf8_replace fuel h st (BinaryReader.mk file 0)
          = HeaderRaise AssertionError h st (BinaryReader.mk file 4)) as H.
  { unfold _parse_tes4. rewrite read_sig_eq. cbn [data pos].
    apply String.eqb_neq in Hsig. by rewrite Hsig. }
  split; [exact H|]. unfold parse. by rewrite H.
Qed.

(** X19.  Round trip of the header decoder: a header record written with
    its true payload size and fields of a 4-byte type (every [HEDR] field
    at least twelve bytes long) is read back wherever it stands in the
    buffer.  The decoder returns with the cursor at the end of the
    header; the names of the [MAST] fields, without their trailing nulls,
    have been appended to the master list in the order of the fields;
    nothing else of the parser has changed; and the three file flags are
    the bits 0x1, 0x200 and 0x40 of the written flags. *)
Theorem header_reads_back
    (decode_utf8_replace : bytes -> string) (fuel : nat) (h : HeaderInfo)
    (st : ESPParser) (pre post : bytes) (fl : Z)
    (fields : list (bytes * bytes)) :
  Forall header_field fields -> 0 <= fl < 2 ^ 32 ->
  len (subrecords_bytes fields) < 2 ^ 32 -> (length fields < fuel)%nat ->
  let d := (pre ++ tes4_bytes fl fields ++ post)%list in
  exists h',
    _parse_tes4 decode_utf8_replace fuel h st (BinaryReader.mk d (len pre))
    = HeaderOk h'
        (with_masters st
           (masters st ++ master_names decode_utf8_replace fields))
        (BinaryReader.mk d (len pre + 24 + len (subrecords_bytes fields)))
    /\ is_esm h' = negb (Z.land fl 0x1 =? 0)
    /\ is_esl h' = negb (Z.land fl 0x200 =? 0)
    /\ is_localized h' = negb (Z.land fl 0x40 =? 0).
Proof.
  intros Hfields Hfl Hsize Hfuel d.
  pose proof (len_nonneg (subrecords_bytes fields)) as Hs0.
  pose proof (len_nonneg pre) as Hpre. pose proof (len_nonneg post) as Hpost.
  destruct (record_bytes_at pre post (subrecords_bytes fields) "TES4"
              (len (subrecords_bytes fields)) fl 0)
    as (Hlen & Hsig & Hsz & Hflags & _);
    [done|lia|done|done|].
  fold (tes4_bytes fl fields) in Hlen, Hsig, Hsz, Hflags.
  fold d in Hlen, Hsig, Hsz, Hflags.
  rewrite parse_tes4_envelope
    by (first [exact Hsig | unfold remaining; cbn [data pos]; lia]).
  cbn [data pos advance]. rewrite Hsz, Hflags.
  replace fuel with (length fields + S (fuel - length fields - 1))%nat by lia.
  set (envelope := (list_byte_of_string "TES4"
                    ++ pack_I (len (subrecords_bytes fields)) ++ pack_I fl
                    ++ pack_I 0 ++ pack_I 0 ++ pack_I 0)%list).
  assert (len (pre ++ envelope)%list = len pre + 24) as Hpe
    by (rewrite len_app; subst envelope; rewrite !len_app;
        change (len (list_byte_of_string "TES4")) with 4;
        change (len (pack_I (len (subrecords_bytes fields)))) with 4;
        change (len (pack_I fl)) with 4; change (len (pack_I 0)) with 4; lia).
  assert (d = ((pre ++ envelope) ++ subrecords_bytes fields ++ post)%list)
    as Hd.
  { subst d envelope. unfold tes4_bytes, record_bytes.
    by rewrite <- !app_assoc. }
  destruct (tes4_loop_run decode_utf8_replace fields Hfields d
              (pre ++ envelope)%list post (S (fuel - length fields - 1))
              (len pre + 24 + len (subrecords_bytes fields))
              (set_header_flags h fl) st Hd)
    as (h' & Hrun & F1 & F2 & F3 & _); [lia|].
  rewrite Hpe in Hrun.
  change (advance (BinaryReader.mk d (len pre)) 24)
    with (BinaryReader.mk d (len pre + 24)).
  rewrite Hrun. cbn [tes4_loop pos].
  destruct (Z.ltb_spec (len pre + 24 + len (subrecords_bytes fields))
              (len pre + 24 + len (subrecords_bytes fields))); [lia|].
  eexists. split; [reflexivity|].
  unfold print_header. destruct (verbose _); cbn [is_esm is_esl is_localized];
    rewrite ?F1, ?F2, ?F3; done.
Qed.

(** X20.  The header decoder always ends, whatever the buffer holds:
    with fuel for more iterations than the buffer has bytes it returns or
    raises.  When it returns, the buffer is the same and the cursor is at
    least 24 bytes further and at or after the end that the header
    declares; it can be after it, since a field is read whole even when
    it runs past that end.  When it raises, the exception is
    [AssertionError] exactly when the signature is not [TES4], and
    [struct.error] otherwise. *)
Theorem header_decoder_always_ends
    (decode_utf8_replace : bytes -> string) (fuel : nat) (h : HeaderInfo)
    (st : ESPParser) (r : BinaryReader.t) :
  0 <= pos r -> (length (data r) < fuel)%nat ->
  header_ends 24 (pos r + 24 + u32_at (data r) (pos r + 4)) r
    (_parse_tes4 decode_utf8_replace fuel h st r)
  /\ forall e h' st' r',
      _parse_tes4 decode_utf8_replace fuel h st r = HeaderRaise e h' st' r' ->
      (e = AssertionError <-> sig_at (data r) (pos r) <> "TES4")
      /\ (e = StructError <-> sig_at (data r) (pos r) = "TES4").
Proof.
  intros Hp Hf. split; [by apply parse_tes4_ends|].
  intros e h' st' r' Hraise.
  destruct (decide (sig_at (data r) (pos r) = "TES4")) as [Hsig|Hsig].
  - assert (e = StructError) as ->.
    { revert Hraise. unfold _parse_tes4. rewrite read_sig_eq, Hsig.
      cbn [String.eqb Ascii.eqb Bool.eqb andb negb].
      repeat match goal with
             | |- context [match read_uint32 ?x with _ => _ end] =>
               let E := fresh "E" in
               destruct (read_uint32 x) as [?|[? ?]] eqn:E;
                 [apply read_fixed_inl in E; by intros [= <- _ _ _]|]
             end.
      destruct (tes4_loop _ _ _ _ _ _) as [h2 st2 r2|e2 h2 st2 r2|]
        eqn:Eloop; [done| |done].
      apply tes4_loop_raises in Eloop. by intros [= <- _ _ _]. }
    split; split; done.
  - assert (e = AssertionError) as ->.
    { revert Hraise. unfold _parse_tes4. rewrite read_sig_eq.
      apply String.eqb_neq in Hsig. rewrite Hsig. by intros [= <- _ _ _]. }
    split; split; done.
Qed.

(** X21.  Without an interest set [parse] ends on every file: with fuel
    for twice the length of the file (plus one) it returns or raises.
    When it returns, the header has been passed and fewer than four
    bytes of the file are left unread. *)
Theorem parse_without_filter_always_ends
    (decode_utf8_replace : bytes -> string)
    (zlib : bytes -> Z -> option bytes) (fuel : nat) (h : HeaderInfo)
    (st : ESPParser) (file : bytes) :
  (2 * length file + 1 <= fuel)%nat ->
  match parse decode_utf8_replace zlib fuel None h st file with
  | ParseOk _ _ r' _ =>
    data r' = file /\ 24 <= pos r' /\ remaining r' < 4
  | ParseRaise _ _ _ _ => True
  | ParseOutOfFuel => False
  end.
Proof.
  intros Hfuel. unfold parse.
  pose proof (parse_tes4_ends decode_utf8_replace fuel h st
                (BinaryReader.mk file 0)) as Hhead.
  cbn [data pos] in Hhead.
  specialize (Hhead ltac:(lia) ltac:(lia)).
  destruct (_parse_tes4 _ _ _ _ _) as [h1 st1 r1|e h1 st1 r1|];
    cbn [header_ends] in Hhead; [|done|done].
  destruct Hhead as (Hd & Hpos & _). cbn [data pos] in Hd, Hpos.
  pose proof (parse_groups_terminates zlib (length file) r1 st1 fuel)
    as Hbody.
  specialize (Hbody ltac:(lia)
                ltac:(unfold remaining, len; rewrite Hd; lia) Hfuel).
  destruct (parse_groups zlib fuel None st1 r1) as [a st2 r2|e st2 r2|] eqn:E;
    cbn [advances_by] in Hbody; [|done|done].
  destruct Hbody as [Hd2 Hpos2].
  split_and!; [congruence|lia|].
  by apply (parse_groups_ok_exhausts zlib fuel None st1 r1 a st2 r2).
Qed.
(** ** Compressed records *)

Section Compressed.

Variable zlib : bytes -> Z -> option bytes.

(** X22.  Round trip of a compressed record: when the compression flag
    is set and the payload is a 4-byte size followed by a stream that
    the decompressor inflates (with that size as buffer hint) to plain
    subrecords, none of them a keyword count longer than four bytes, the
    record is read back from the inflated bytes.  It is counted as a
    record and as compressed, stored in both indexes with the subrecords
    in order, and the cursor is left at the end of the stored payload,
    whatever the inflated length. *)
Theorem compressed_record_reads_back
    (st : ESPParser) (pre post stream : bytes) (sig : string)
    (fl fid declared : Z) (fields : list (bytes * bytes)) :
  len (list_byte_of_string sig) = 4 ->
  0 <= fl < 2 ^ 32 -> Z.land fl FLAG_COMPRESSED <> 0 ->
  0 <= fid < 2 ^ 32 -> 0 <= declared < 2 ^ 32 ->
  len (compressed_payload declared stream) < 2 ^ 32 ->
  zlib stream declared = Some (subrecords_bytes fields) ->
  Forall plain_subrecord fields ->
  (forall d, In ("KSIZ", d) (decoded_subrecords fields) -> len d <= 4) ->
  let payload := compressed_payload declared stream in
  let d := (pre ++ record_bytes sig (len payload) fl fid payload
            ++ post)%list in
  let ty := decode_sig (list_byte_of_string sig) in
  exists rec,
    _parse_record zlib st (BinaryReader.mk d (len pre))
    = Ok (Some rec)
        (store_record (count_compressed (count_record st ty)) ty fid rec)
        (BinaryReader.mk d (len pre + 24 + len payload))
    /\ is_compressed rec = true
    /\ type rec = ty /\ form_id rec = fid
    /\ subrecords rec = decoded_subrecords fields.
Proof.
  intros Hl Hf Hc Hi Hdecl Hs Hz Hplain Hk payload d ty.
  pose proof (len_nonneg payload) as Hs0.
  pose proof (len_nonneg pre) as Hpre. pose proof (len_nonneg post) as Hpost.
  pose proof (len_nonneg stream) as Hstream.
  assert (len payload = 4 + len stream) as Hpl
    by (subst payload; unfold compressed_payload; by rewrite len_app).
  destruct (record_bytes_at pre post payload sig (len payload) fl fid)
    as (Hlen & Hsig & Hsize & Hflags & Hfid & Hts & Hvi & Hpay);
    [done|by subst payload; lia|done|done|].
  fold d in Hlen, Hsig, Hsize, Hflags, Hfid, Hts, Hvi, Hpay.
  set (rec0 := set_subrecords
                 (new_record ty (len payload) fl fid 0 0)
                 (decoded_subrecords fields)).
  destruct (parse_subrecords_loop_keywords (decoded_subrecords fields)
              rec0 0 Hk) as (rec & Hrec & _).
  assert (parse_subrecords rec0 = inr rec) as Hrec' by exact Hrec.
  pose proof (parse_subrecords_fields _ _ Hrec') as (H1 & H2 & _ & H4).
  pose proof (parse_subrecords_loop_raw _ _ _ _ [] Hrec) as [_ Hsubs];
    [intros ty'; apply lookup_empty|].
  assert (is_compressed rec0 = true) as Hcomp.
  { subst rec0. cbn. by apply Z.eqb_neq in Hc as ->. }
  exists rec.
  split; [|split_and!;
           [by rewrite H4|by rewrite H1|by rewrite H2|by rewrite Hsubs]].
  rewrite parse_record_envelope
    by (unfold remaining; cbn [data pos]; lia).
  cbn [data pos]. rewrite Hsig, Hsize, Hflags, Hfid, Hts, Hvi.
  fold ty. unfold record_payload.
  rewrite remaining_advance. unfold remaining. cbn [data pos].
  destruct (Z.ltb_spec (len d - len pre - 24) (len payload)); [lia|].
  cbn [read advance data pos]. rewrite Hpay.
  change (is_compressed (new_record ty (len payload) fl fid 0 0))
    with (is_compressed rec0).
  rewrite Hcomp. destruct (Z.leb_spec 4 (len payload)); [|lia].
  cbn [andb].
  assert (slice payload 0 4 = pack_I declared) as ->.
  { apply (slice_at payload [] (pack_I declared) stream 0 4); done. }
  unfold unpack_I. change (len (pack_I declared) =? 4) with true. cbv iota.
  rewrite le_uint_pack_I by done.
  assert (slice payload 4 (len payload) = stream) as ->.
  { rewrite Hpl.
    apply (slice_at payload (pack_I declared) stream [] 4 (len stream));
      try done.
    subst payload. unfold compressed_payload. by rewrite app_nil_r. }
  rewrite Hz. unfold finish_record.
  rewrite <- (app_nil_r (subrecords_bytes fields)).
  rewrite split_subrecords_plain by done.
  fold rec0. rewrite Hrec'. reflexivity.
Qed.

(** X23.  A record whose compression flag is set but whose payload is
    shorter than four bytes is not decompressed: it is counted as a
    record only, and stored, flagged as compressed, with no
    subrecords. *)
Theorem short_compressed_record_is_stored_as_it_is
    (st : ESPParser) (pre post payload : bytes) (sig : string)
    (fl fid : Z) :
  len (list_byte_of_string sig) = 4 ->
  0 <= fl < 2 ^ 32 -> Z.land fl FLAG_COMPRESSED <> 0 ->
  0 <= fid < 2 ^ 32 -> len payload < 4 ->
  let d := (pre ++ record_bytes sig (len payload) fl fid payload
            ++ post)%list in
  let ty := decode_sig (list_byte_of_string sig) in
  let rec := new_record ty (len payload) fl fid 0 0 in
  _parse_record zlib st (BinaryReader.mk d (len pre))
  = Ok (Some rec) (store_record (count_record st ty) ty fid rec)
      (BinaryReader.mk d (len pre + 24 + len payload))
  /\ is_compressed rec = true /\ subrecords rec = []
  /\ compressed_count (store_record (count_record st ty) ty fid rec)
     = compressed_count st.
Proof.
  intros Hl Hf Hc Hi Hshort d ty rec.
  pose proof (len_nonneg payload) as Hs0.
  pose proof (len_nonneg pre) as Hpre. pose proof (len_nonneg post) as Hpost.
  destruct (record_bytes_at pre post payload sig (len payload) fl fid)
    as (Hlen & Hsig & Hsize & Hflags & Hfid & Hts & Hvi & Hpay);
    [done|lia|done|done|].
  fold d in Hlen, Hsig, Hsize, Hflags, Hfid, Hts, Hvi, Hpay.
  assert (is_compressed rec = true) as Hcomp.
  { subst rec. cbn. by apply Z.eqb_neq in Hc as ->. }
  split_and!; [|done|done|done].
  rewrite parse_record_envelope
    by (unfold remaining; cbn [data pos]; lia).
  cbn [data pos]. rewrite Hsig, Hsize, Hflags, Hfid, Hts, Hvi.
  fold ty. unfold record_payload.
  rewrite remaining_advance. unfold remaining. cbn [data pos].
  destruct (Z.ltb_spec (len d - len pre - 24) (len payload)); [lia|].
  cbn [read advance data pos]. rewrite Hpay. fold rec. rewrite Hcomp.
  destruct (Z.leb_spec 4 (len payload)); [lia|]. cbn [andb].
  unfold finish_record.
  change payload with (subrecords_bytes [] ++ payload)%list at 1.
  rewrite split_subrecords_plain by (first [by constructor | lia]).
  reflexivity.
Qed.

End Compressed.

(** ** The decompressor of the examples *)

Lemma adler32_range (d : bytes) : 0 <= adler32 d < 2 ^ 32.
Proof.
  unfold adler32.
  assert (forall (l : bytes) (ab : Z * Z),
             0 <= fst ab < 65521 -> 0 <= snd ab < 65521 ->
             let r := fold_left
                        (fun ab x =>
                           let a := (fst ab + byte_val x) mod 65521 in
                           (a, (snd ab + a) mod 65521)) l ab in
             0 <= fst r < 65521 /\ 0 <= snd r < 65521) as Hfold.
  { induction l as [|x l IH]; intros ab Ha Hb; [done|].
    cbn [fold_left]. apply IH; cbn [fst snd]; apply Z.mod_pos_bound; lia. }
  destruct (Hfold d (1, 0)) as [Ha Hb]; cbn [fst snd]; [lia..|].
  cbv zeta in Ha, Hb. lia.
Qed.

Lemma pack_H_value (v : Z) :
  0 <= v < 65536 ->
  byte_val (byte_of_Z (v mod 256))
  + 256 * byte_val (byte_of_Z (v / 256 mod 256)) = v.
Proof.
  intros Hv. pose proof (le_uint_pack_H v Hv) as H.
  unfold pack_H in H. cbn [le_uint] in H. lia.
Qed.

(** The decompressor of the examples inflates what [stored_stream]
    writes, whatever the buffer hint. *)
Lemma zlib_stored_stream (d : bytes) (bufsize : Z) :
  len d < 65536 -> zlib_stored (stored_stream d) bufsize = Some d.
Proof.
  intros Hd. pose proof (len_nonneg d) as Hd0.
  pose proof (adler32_range d) as Ha.
  unfold stored_stream, zlib_stored. cbn [app pack_H].
  change (Z.land (byte_val x78) 15 =? 8) with true.
  change (byte_val x78 / 16 <=? 7) with true.
  change ((byte_val x78 * 256 + byte_val x01) mod 31 =? 0) with true.
  change (Z.land (byte_val x01) 32 =? 0) with true.
  cbn [andb stored_blocks].
  change (Z.land (byte_val x01) 6 =? 0) with true.
  change (Z.land (byte_val x01) 1 =? 1) with true.
  rewrite !pack_H_value by lia.
  replace (len d + (65535 - len d) =? 65535) with true
    by (symmetry; apply Z.eqb_eq; lia).
  cbn [negb].
  destruct (Z.ltb_spec (len (d ++ rev (pack_I (adler32 d)))%list) (len d))
    as [Hlt|_].
  { rewrite len_app in Hlt. pose proof (len_nonneg (rev (pack_I (adler32 d)))).
    lia. }
  replace (Z.to_nat (len d)) with (length d) by (unfold len; lia).
  rewrite take_app_length, drop_app_length. cbn [app].
  change (4 <=? len (rev (pack_I (adler32 d)))) with true.
  change (firstn 4 (rev (pack_I (adler32 d))))
    with (rev (pack_I (adler32 d))).
  unfold be_uint. rewrite rev_involutive, le_uint_pack_I by done.
  by rewrite Z.eqb_refl.
Qed.
(** ** Reading text *)

Lemma until_nul_text (text tail : bytes) :
  ~ In x00 text -> (tail = [] \/ exists junk, tail = x00 :: junk) ->
  until_nul (text ++ tail)%list = text.
Proof.
  intros Hno Htail. induction text as [|b text IH].
  - destruct Htail as [->|[junk ->]]; reflexivity.
  - cbn [app until_nul].
    destruct (Byte.eqb b x00) eqn:E.
    + apply Byte.byte_dec_bl in E. subst b. exfalso. apply Hno. by left.
    + f_equal. apply IH. intros Hin. apply Hno. by right.
Qed.

(** X24.  Round trip of [read_string]: reading a field that holds
    well-formed UTF-8 text without a null byte, either filling the field
    or followed by a null byte and anything else, returns that text; the
    cursor moves by the length of the field. *)
Theorem read_string_reads_back (pre text tail post : bytes) :
  utf8_valid text = true -> ~ In x00 text ->
  (tail = [] \/ exists junk, tail = x00 :: junk) ->
  let d := (pre ++ (text ++ tail) ++ post)%list in
  read_string (BinaryReader.mk d (len pre)) (len text + len tail)
  = (string_of_list_byte text,
     BinaryReader.mk d (len pre + (len text + len tail))).
Proof.
  intros Hvalid Hno Htail d. unfold read_string. cbn [data pos advance].
  rewrite (slice_at d pre (text ++ tail)%list post); try done;
    [|by rewrite len_app].
  rewrite until_nul_text by done.
  unfold decode_text, decode_utf8. by rewrite Hvalid.
Qed.

(** ** The keyword analysis *)


(** ** The lenient decoder of the examples *)

Lemma second_ok_three (b0 b1 : byte) :
  in_range b0 0xE0 0xEF = true ->
  second_ok b0 b1
  = (if byte_val b0 =? 0xE0 then in_range b1 0xA0 0xBF
     else if byte_val b0 =? 0xED then in_range b1 0x80 0x9F
     else in_range b1 0x80 0xBF).
Proof.
  unfold in_range at 1, second_ok. intros H.
  apply andb_true_iff in H as [H1%Z.leb_le H2%Z.leb_le].
  destruct (Z.eqb_spec (byte_val b0) 0xE0); [done|].
  destruct (Z.eqb_spec (byte_val b0) 0xED); [done|].
  destruct (Z.eqb_spec (byte_val b0) 0xF0); [lia|].
  destruct (Z.eqb_spec (byte_val b0) 0xF4); [lia|done].
Qed.

Lemma second_ok_four (b0 b1 : byte) :
  in_range b0 0xF0 0xF4 = true ->
  second_ok b0 b1
  = (if byte_val b0 =? 0xF0 then in_range b1 0x90 0xBF
     else if byte_val b0 =? 0xF4 then in_range b1 0x80 0x8F
     else in_range b1 0x80 0xBF).
Proof.
  unfold in_range at 1, second_ok. intros H.
  apply andb_true_iff in H as [H1%Z.leb_le H2%Z.leb_le].
  destruct (Z.eqb_spec (byte_val b0) 0xE0); [lia|].
  destruct (Z.eqb_spec (byte_val b0) 0xED); [lia|].
  done.
Qed.

(** On well-formed UTF-8 the lenient decoder is the strict one: nothing
    is replaced. *)
Lemma utf8_replace_valid (raw : bytes) :
  utf8_valid raw = true -> utf8_replace raw = string_of_list_byte raw.
Proof.
  intros Hv. unfold utf8_replace. f_equal. revert Hv.
  remember (length raw) as n eqn:Hn. revert raw Hn.
  induction n as [n IH] using lt_wf_ind. intros l Hn Hv.
  destruct l as [|b0 t0]; [done|].
  cbn [utf8_valid utf8_replace_bytes] in *.
  destruct (byte_val b0 <? 0x80).
  { f_equal. apply (IH (length t0)); simpl in *; [lia|done|done]. }
  destruct (in_range b0 0xC2 0xDF).
  { destruct t0 as [|b1 t1]; [done|].
    apply andb_true_iff in Hv as [H1 Hv]. rewrite H1. do 2 f_equal.
    apply (IH (length t1)); simpl in *; [lia|done|done]. }
  destruct (in_range b0 0xE0 0xEF) eqn:E3.
  { destruct t0 as [|b1 [|b2 t2]]; try done.
    apply andb_true_iff in Hv as [Hv H3].
    apply andb_true_iff in Hv as [H1 H2].
    rewrite second_ok_three, H1, H2 by done. do 3 f_equal.
    apply (IH (length t2)); simpl in *; [lia|done|done]. }
  destruct (in_range b0 0xF0 0xF4) eqn:E4; [|done].
  destruct t0 as [|b1 [|b2 [|b3 t3]]]; try done.
  apply andb_true_iff in Hv as [Hv H4].
  apply andb_true_iff in Hv as [Hv H3].
  apply andb_true_iff in Hv as [H1 H2].
  rewrite second_ok_four, H1, H2, H3 by done. do 4 f_equal.
  apply (IH (length t3)); simpl in *; [lia|done|done].
Qed.
(** ** The further properties at concrete inputs *)

Ltac sample_plain :=
  repeat constructor; first [reflexivity | by vm_compute].

Ltac no_long_count :=
  let d := fresh "d" in
  let H := fresh "H" in
  intros d H; vm_compute in H; destruct_or!; try done; discriminate H.

Ltac sample_writable :=
  unfold writable; split_and!;
  [reflexivity | lia | lia | reflexivity | lia | lia | by vm_compute
   | sample_plain | no_long_count].

Lemma split_reads_back_plain_subrecords_witness :
  split_subrecords (subrecords_bytes sample_fields ++ [x01])%list
  = SplitDone (decoded_subrecords sample_fields).
Proof.
  refine (proj1 (split_reads_back_plain_subrecords sample_fields [x01]
                  _ _)).
  - sample_plain.
  - by vm_compute.
Defined.

Lemma split_stops_at_overrunning_subrecord_witness :
  split_subrecords
    (subrecords_bytes sample_fields ++ list_byte_of_string "DATA"
     ++ pack_H 10 ++ [x01])%list
  = SplitDone (decoded_subrecords sample_fields).
Proof.
  apply (split_stops_at_overrunning_subrecord sample_fields
           (list_byte_of_string "DATA") (pack_H 10) [x01]).
  - sample_plain.
  - reflexivity.
  - by vm_compute.
  - reflexivity.
  - by vm_compute.
Defined.

Lemma parse_subrecords_raises_on_long_count_only_witness :
  parse_subrecords long_count_record = inl StructError.
Proof.
  apply (proj1 (parse_subrecords_raises_on_long_count_only
                  long_count_record)).
  exists (pack_I 1 ++ [x00])%list. split; [by left|by vm_compute].
Defined.

Lemma raw_data_keeps_every_payload_witness :
  exists rec',
    parse_subrecords sample_record = inr rec'
    /\ raw_data rec' !! "FULL"
       = Some (RawBytes (list_byte_of_string "Name"))
    /\ raw_data rec' !! "DATA" = None.
Proof.
  destruct (parse_subrecords sample_record) as [e|rec'] eqn:E;
    [by vm_compute in E|].
  exists rec'. split; [reflexivity|].
  destruct (raw_data_keeps_every_payload sample_record rec' eq_refl E)
    as [H _].
  split; rewrite H; by vm_compute.
Defined.

Lemma record_decoder_index_discipline_witness :
  exists rec st' r',
    _parse_record zlib_reject (fresh_parser false)
      (BinaryReader.mk sample_record_file 0) = Ok (Some rec) st' r'
    /\ type rec = "WEAP" /\ form_id rec = 0x01000800.
Proof.
  destruct (_parse_record zlib_reject (fresh_parser false)
              (BinaryReader.mk sample_record_file 0))
    as [[rec|] st' r'|e st' r'|] eqn:E; try (by vm_compute in E).
  exists rec, st', r'. split; [reflexivity|].
  destruct (record_decoder_index_discipline zlib_reject
              (fresh_parser false) st'
              (BinaryReader.mk sample_record_file 0) r' (Some rec))
    as (Hty & Hfid & _).
  - simpl. lia.
  - exact E.
  - split; [rewrite Hty|rewrite Hfid]; by vm_compute.
Defined.

Lemma unfiltered_decode_terminates_witness :
  parse_groups zlib_reject 113 None (fresh_parser false)
    (BinaryReader.mk overrun_group 0)
  <> OutOfFuel.
Proof.
  pose proof (unfiltered_decode_terminates zlib_reject overrun_group 0
                (fresh_parser false) 113) as H.
  intros E. rewrite E in H. apply H.
  - lia.
  - vm_compute. lia.
Defined.

Lemma skipped_zero_sized_container_never_ends_witness :
  parse_groups zlib_reject 9 only_KYWD (fresh_parser false)
    (BinaryReader.mk zero_sized_group 0)
  = OutOfFuel.
Proof.
  apply (skipped_zero_sized_container_never_ends zlib_reject only_KYWD
           (BinaryReader.mk zero_sized_group 0) (fresh_parser false) 9).
  - simpl. lia.
  - by vm_compute.
  - by vm_compute.
  - by vm_compute.
  - by vm_compute.
  - by vm_compute.
Defined.

Lemma record_identity_splits_witness :
  master_index sample_record = 1
  /\ local_id sample_record = 0x800
  /\ form_id_hex sample_record = "01000800".
Proof.
  destruct (record_identity_splits (fresh_parser false) sample_record)
    as (_ & _ & _ & _ & _ & H).
  - simpl. lia.
  - split_and!; [reflexivity|reflexivity|].
    rewrite H. by vm_compute.
Defined.

Lemma decoded_record_names_its_identity_witness :
  exists v st' r',
    _parse_record zlib_reject (fresh_parser false)
      (BinaryReader.mk sample_record_file 0) = Ok v st' r'
    /\ get_keyword_name st' 0x01000800 = "Foo"
    /\ get_keyword_name st' 0x0004A0A2 = "WeaponTypeRifle".
Proof.
  destruct (decoded_record_names_its_identity zlib_reject
              (fresh_parser false) [] [] "WEAP" 0 0x01000800 sample_fields)
    as (v & st' & r' & Hrun & Hname & Hother).
  - sample_writable.
  - exists v, st', r'. split_and!.
    + exact Hrun.
    + rewrite Hname. by vm_compute.
    + rewrite Hother by done. by vm_compute.
Defined.

Lemma overrides_partition_the_records_witness :
  fst (analyze_overrides (fresh_parser false)
         [("WEAP", [sample_record]); ("KYWD", [sample_keyword])])
  !! "B.esm"
  = Some [override_of (fresh_parser false) sample_record]
  /\ snd (analyze_overrides (fresh_parser false)
            [("WEAP", [sample_record]); ("KYWD", [sample_keyword])])
     !! "KYWD"
     = Some [new_of (fresh_parser false) sample_keyword].
Proof.
  destruct (overrides_partition_the_records (fresh_parser false)
              [("WEAP", [sample_record]); ("KYWD", [sample_keyword])])
    as (Ho & Hn & _).
  split; [rewrite Ho|rewrite Hn]; reflexivity.
Defined.

Lemma decoder_keeps_the_settings_witness :
  exists st',
    final_parser (parse_groups zlib_reject 5 None (fresh_parser true)
                    (BinaryReader.mk overrun_group 0)) = Some st'
    /\ masters st' = ["A.esm"; "B.esm"]
    /\ stdout (fresh_parser true) `prefix_of` stdout st'.
Proof.
  destruct (final_parser (parse_groups zlib_reject 5 None (fresh_parser true)
                            (BinaryReader.mk overrun_group 0)))
    as [st'|] eqn:E; [|by vm_compute in E].
  exists st'. split; [reflexivity|].
  destruct (decoder_keeps_the_settings zlib_reject 5 None
              (fresh_parser true) st' (BinaryReader.mk overrun_group 0))
    as (_ & _ & Hm & Hp & _).
  - left. exact E.
  - split; [exact Hm|exact Hp].
Defined.

Lemma decoder_keeps_the_counters_consistent_witness :
  exists st',
    final_parser (parse_groups zlib_reject 5 None (fresh_parser true)
                    (BinaryReader.mk overrun_group 0)) = Some st'
    /\ stored_count st' - stored_count (fresh_parser true)
       <= record_count st' - record_count (fresh_parser true).
Proof.
  destruct (final_parser (parse_groups zlib_reject 5 None (fresh_parser true)
                            (BinaryReader.mk overrun_group 0)))
    as [st'|] eqn:E; [|by vm_compute in E].
  exists st'. split; [reflexivity|].
  destruct (decoder_keeps_the_counters_consistent zlib_reject 5 None
              (fresh_parser true) st' (BinaryReader.mk overrun_group 0))
    as (_ & _ & [_ H] & _).
  - left. exact E.
  - exact H.
Defined.

Lemma decoder_only_adds_to_the_indexes_witness :
  exists st',
    final_parser (_parse_record zlib_reject keyword_parser
                    (BinaryReader.mk sample_record_file 0)) = Some st'
    /\ is_Some (records_by_formid st' !! 0x05000001)
    /\ indexes_agree st'.
Proof.
  destruct (final_parser (_parse_record zlib_reject keyword_parser
                            (BinaryReader.mk sample_record_file 0)))
    as [st'|] eqn:E; [|by vm_compute in E].
  exists st'. split; [reflexivity|].
  destruct (decoder_only_adds_to_the_indexes zlib_reject 0 None
              keyword_parser st' (BinaryReader.mk sample_record_file 0))
    as (_ & Hk & Ha).
  - right. right. exact E.
  - split.
    + apply Hk. vm_compute. by eexists.
    + apply Ha. intros fid rec.
      unfold keyword_parser. cbn [store_record records_by_formid records].
      destruct (decide (fid = 0x05000001)) as [->|Hne].
      * rewrite lookup_insert_eq. intros [= <-].
        split; [reflexivity|]. vm_compute. by left.
      * rewrite lookup_insert_ne by done. intros H. by vm_compute in H.
Defined.

Lemma names_follow_the_last_subrecord_witness :
  exists rec',
    parse_subrecords sample_record = inr rec'
    /\ editor_id rec' = "Foo"
    /\ full_name rec' = "[LSTRING:656D614E]".
Proof.
  destruct (parse_subrecords sample_record) as [e|rec'] eqn:E;
    [by vm_compute in E|].
  exists rec'. split; [reflexivity|].
  destruct (names_follow_the_last_subrecord sample_record rec' E)
    as [He Hf].
  split; [rewrite He|rewrite Hf]; by vm_compute.
Defined.

Lemma record_decoder_reads_back_plain_record_witness :
  exists rec,
    _parse_record zlib_reject (fresh_parser false)
      (BinaryReader.mk ([x00] ++ sample_record_file ++ [x01; x02])%list 1)
    = Ok (Some rec)
        (store_record (count_record (fresh_parser false) "WEAP") "WEAP"
           0x01000800 rec)
        (BinaryReader.mk ([x00] ++ sample_record_file ++ [x01; x02])%list
           59)
    /\ editor_id rec = "Foo"
    /\ keywords rec = [0x0004A0A2; 0x01000800].
Proof.
  destruct (record_decoder_reads_back_plain_record zlib_reject
              (fresh_parser false) [x00] [x01; x02] "WEAP" 0 0x01000800
              sample_fields)
    as (rec & Hrun & _ & _ & _ & _ & _ & He & Hk & _).
  - sample_writable.
  - exists rec. split_and!.
    + exact Hrun.
    + rewrite He. by vm_compute.
    + rewrite Hk. by vm_compute.
Defined.

Lemma header_signature_is_checked_witness :
  parse utf8_replace zlib_reject 5 None new_header (blank_parser false)
    stray_record
  = ParseRaise AssertionError new_header (blank_parser false)
      (BinaryReader.mk stray_record 4).
Proof.
  apply (header_signature_is_checked utf8_replace zlib_reject 5 None
           new_header (blank_parser false) stray_record).
  by vm_compute.
Defined.

Ltac sample_header :=
  repeat constructor;
  first [reflexivity
        | by vm_compute
        | let H := fresh "H" in
          intros H; first [by vm_compute in H | by vm_compute]].

Lemma header_reads_back_witness :
  exists h',
    _parse_tes4 utf8_replace 7 new_header (blank_parser false)
      (BinaryReader.mk sample_plugin 0)
    = HeaderOk h'
        (with_masters (blank_parser false) ["Fallout4.esm"; "DLCRobot.esm"])
        (BinaryReader.mk sample_plugin
           (24 + len (subrecords_bytes sample_header_fields)))
    /\ is_esm h' = true /\ is_esl h' = true /\ is_localized h' = false.
Proof.
  destruct (header_reads_back utf8_replace 7 new_header
              (blank_parser false) [] sample_record_file 0x201
              sample_header_fields)
    as (h' & Hrun & H1 & H2 & H3).
  - sample_header.
  - lia.
  - by vm_compute.
  - simpl. lia.
  - exists h'. split_and!; [exact Hrun|exact H1|exact H2|exact H3].
Defined.

Lemma header_decoder_always_ends_witness :
  _parse_tes4 utf8_replace 200 new_header (blank_parser false)
    (BinaryReader.mk sample_plugin 0)
  <> HeaderOutOfFuel.
Proof.
  pose proof (header_decoder_always_ends utf8_replace 200 new_header
                (blank_parser false) (BinaryReader.mk sample_plugin 0)) as H.
  intros E. rewrite E in H. refine (proj1 (H _ _)).
  - simpl. lia.
  - vm_compute. lia.
Defined.

Lemma parse_without_filter_always_ends_witness :
  parse utf8_replace zlib_reject 400 None new_header (blank_parser false)
    sample_plugin
  <> ParseOutOfFuel.
Proof.
  pose proof (parse_without_filter_always_ends utf8_replace zlib_reject
                400 new_header (blank_parser false) sample_plugin) as H.
  intros E. rewrite E in H. apply H.
  vm_compute. lia.
Defined.

Lemma compressed_record_reads_back_witness :
  exists rec,
    _parse_record zlib_stored (fresh_parser false)
      (BinaryReader.mk sample_compressed_file 0)
    = Ok (Some rec)
        (store_record (count_compressed
                         (count_record (fresh_parser false) "WEAP"))
           "WEAP" 0x01000800 rec)
        (BinaryReader.mk sample_compressed_file 73)
    /\ is_compressed rec = true
    /\ subrecords rec = decoded_subrecords sample_fields.
Proof.
  destruct (compressed_record_reads_back zlib_stored (fresh_parser false)
              [] [] sample_stream "WEAP" FLAG_COMPRESSED 0x01000800 34
              sample_fields)
    as (rec & Hrun & Hc & _ & _ & Hs).
  - reflexivity.
  - by vm_compute.
  - by vm_compute.
  - lia.
  - lia.
  - by vm_compute.
  - reflexivity.
  - sample_plain.
  - no_long_count.
  - exists rec. split_and!; [exact Hrun|exact Hc|exact Hs].
Defined.

Lemma short_compressed_record_is_stored_as_it_is_witness :
  _parse_record zlib_stored (fresh_parser false)
    (BinaryReader.mk
       (record_bytes "WEAP" 2 FLAG_COMPRESSED 0x01000800 [x01; x02]) 0)
  = Ok (Some (new_record "WEAP" 2 FLAG_COMPRESSED 0x01000800 0 0))
      (store_record (count_record (fresh_parser false) "WEAP") "WEAP"
         0x01000800 (new_record "WEAP" 2 FLAG_COMPRESSED 0x01000800 0 0))
      (BinaryReader.mk
         (record_bytes "WEAP" 2 FLAG_COMPRESSED 0x01000800 [x01; x02]) 26).
Proof.
  destruct (short_compressed_record_is_stored_as_it_is zlib_stored
              (fresh_parser false) [] [] [x01; x02] "WEAP" FLAG_COMPRESSED
              0x01000800) as (Hrun & _).
  - reflexivity.
  - by vm_compute.
  - by vm_compute.
  - lia.
  - by vm_compute.
  - exact Hrun.
Defined.

Lemma read_string_reads_back_witness :
  read_string
    (BinaryReader.mk
       ([x01] ++ (list_byte_of_string "Foo" ++ [x00; x41]) ++ [])%list 1) 5
  = ("Foo",
     BinaryReader.mk
       ([x01] ++ (list_byte_of_string "Foo" ++ [x00; x41]) ++ [])%list 6).
Proof.
  apply (read_string_reads_back [x01] (list_byte_of_string "Foo")
           [x00; x41] []).
  - reflexivity.
  - intros H. vm_compute in H. destruct_or!; try done; discriminate H.
  - right. by eexists.
Defined.

